(** * Google Calendar MCP server: a shallow embedding of [src/index.ts]

    The server is a protocol adapter: a dispatcher ([CallToolRequestSchema]
    handler) extracts string arguments from an untyped mapping and calls one
    of seven gateway operations, each of which talks to the remote calendar
    service through a lazily initialised, memoised OAuth2 client.

    Modelling choices.
    - JavaScript strings are modelled by their UTF-8 encoding ([string] of
      bytes); [trim] and [parseInt] follow ECMAScript on that encoding, the
      result of [parseInt] being the double nearest the digits read.
    - [async] functions are computations in a state-and-exception monad [M]
      over a [World] holding the module-level variable [auth] and the trace
      of external calls (file reads and remote calendar calls): a call
      handled in one piece. For calls of [initializeAuth] that overlap, the
      call is also given between its awaits ([initializeAuth_begin],
      [initializeAuth_resume]) and the two are shown to agree.
    - Everything outside the process (file system, clock, remote service)
      is an [Env]: each answer is a function of the history of external
      calls made so far, so any deterministic environment is covered.
    - The parts of the JavaScript runtime whose behaviour is implementation
      defined ([JSON.parse], [Date.parse], [Date.prototype.toISOString]) are
      a [Runtime] record.
    - Writes to the logger (stderr) are not modelled. *)

From Stdlib Require Import ZArith QArith Lia Ascii String DecimalString.
From stdpp Require Import base option list gmap strings.

Local Open Scope string_scope.
Local Open Scope Z_scope.
Local Open Scope list_scope.

(** ** Numbers

    The Numbers [parseInt] can return, other than [NaN]: the doubles that
    are integers, and the two infinities. Both [+0] and [-0] are
    [Finite 0]. *)
Inductive number :=
| Finite (z : Z)
| Infinity (negative : bool).

Coercion Finite : Z >-> number.

(** ** Strings *)

Module Js.

Definition LF : string := String "010" EmptyString.
Definition DQ : string := String "034" EmptyString.

Definition bytes (l : list ascii) : string := string_of_list_ascii l.

(** ECMAScript [WhiteSpace] and [LineTerminator] code points, UTF-8 encoded:
    U+0009 U+000A U+000B U+000C U+000D U+0020 U+00A0 U+1680 U+2000..U+200A
    U+2028 U+2029 U+202F U+205F U+3000 U+FEFF. *)
Definition whitespace : list (list ascii) :=
  [ ["009"]; ["010"]; ["011"]; ["012"]; ["013"]; ["032"];
    ["194"; "160"];
    ["225"; "154"; "128"];
    ["226"; "128"; "128"]; ["226"; "128"; "129"]; ["226"; "128"; "130"];
    ["226"; "128"; "131"]; ["226"; "128"; "132"]; ["226"; "128"; "133"];
    ["226"; "128"; "134"]; ["226"; "128"; "135"]; ["226"; "128"; "136"];
    ["226"; "128"; "137"]; ["226"; "128"; "138"];
    ["226"; "128"; "168"]; ["226"; "128"; "169"]; ["226"; "128"; "175"];
    ["226"; "129"; "159"];
    ["227"; "128"; "128"];
    ["239"; "187"; "191"] ]%char.

Fixpoint strip_prefix (p s : list ascii) : option (list ascii) :=
  match p, s with
  | [], _ => Some s
  | a :: p', b :: s' => if Ascii.eqb a b then strip_prefix p' s' else None
  | _ :: _, [] => None
  end.

Fixpoint strip_any (ps : list (list ascii)) (s : list ascii) : option (list ascii) :=
  match ps with
  | [] => None
  | p :: ps' =>
      match strip_prefix p s with
      | Some r => Some r
      | None => strip_any ps' s
      end
  end.

(** Drops leading occurrences of the sequences [ps]; every sequence is
    non-empty, so [length s] steps always suffice. *)
Fixpoint strip_leading (fuel : nat) (ps : list (list ascii)) (s : list ascii) : list ascii :=
  match fuel with
  | O => s
  | S fuel' =>
      match strip_any ps s with
      | Some r => strip_leading fuel' ps r
      | None => s
      end
  end.

Definition trimStartL (s : list ascii) : list ascii :=
  strip_leading (length s) whitespace s.

Definition trimEndL (s : list ascii) : list ascii :=
  rev (strip_leading (length s) (map (@rev ascii) whitespace) (rev s)).

(** [String.prototype.trimStart] and [String.prototype.trim]. *)
Definition trimStart (s : string) : string :=
  string_of_list_ascii (trimStartL (list_ascii_of_string s)).

Definition trim (s : string) : string :=
  string_of_list_ascii (trimEndL (trimStartL (list_ascii_of_string s))).

(** Value of a digit in radix [r], if the byte is one. *)
Definition digit_value (r : Z) (c : ascii) : option Z :=
  let n := Z.of_nat (nat_of_ascii c) in
  let v :=
    if (48 <=? n) && (n <=? 57) then Some (n - 48)
    else if (97 <=? n) && (n <=? 122) then Some (n - 87)
    else if (65 <=? n) && (n <=? 90) then Some (n - 55)
    else None in
  match v with
  | Some d => if d <? r then Some d else None
  | None => None
  end.

(** Longest prefix of radix-[r] digits, most significant first. *)
Fixpoint leading_digits (r : Z) (s : string) : list Z :=
  match s with
  | EmptyString => []
  | String c s' =>
      match digit_value r c with
      | Some d => d :: leading_digits r s'
      | None => []
      end
  end.

Definition digits_value (r : Z) (ds : list Z) : Z :=
  fold_left (fun acc d => acc * r + d) ds 0.

(** The Number value of a mathematical integer: the nearest double, the
    even one of two that are equally near, and an infinity from
    [2^1024 - 2^970] on. Below [2^53] every integer is a double. *)
Definition to_double (n : Z) : number :=
  let a := Z.abs n in
  if a <? 2 ^ 53 then Finite n
  else
    let e := Z.log2 a - 52 in
    let q := Z.shiftr a e in
    let r := a - Z.shiftl q e in
    let half := Z.shiftl 1 (e - 1) in
    let q' :=
      if r <? half then q
      else if half <? r then q + 1
      else if Z.even q then q else q + 1 in
    let v := Z.shiftl q' e in
    if 1024 <=? Z.log2 v then Infinity (n <? 0) else Finite (Z.sgn n * v).

(** [parseInt(s)] with no radix argument. [None] is [NaN]. *)
Definition parseInt (s : string) : option number :=
  let s1 := trimStart s in
  let '(sign, s2) :=
    match s1 with
    | String "-" r => (-1, r)
    | String "+" r => (1, r)
    | _ => (1, s1)
    end in
  let '(radix, s3) :=
    match s2 with
    | String "0" (String "x" r) => (16, r)
    | String "0" (String "X" r) => (16, r)
    | _ => (10, s2)
    end in
  match leading_digits radix s3 with
  | [] => None
  | ds => Some (to_double (sign * digits_value radix ds))
  end.

(** Decimal rendering of an array length in a template literal. *)
Definition show_nat (n : nat) : string := NilEmpty.string_of_uint (Nat.to_uint n).

(** [s.split(",")]. *)
Fixpoint split_comma (s : string) : list string :=
  match s with
  | EmptyString => [EmptyString]
  | String c r =>
      if Ascii.eqb c ","%char then EmptyString :: split_comma r
      else match split_comma r with
           | h :: t => String c h :: t
           | [] => [String c EmptyString]
           end
  end.

(** [xs.join(sep)] on strings. *)
Definition join (sep : string) (xs : list string) : string := String.concat sep xs.

End Js.

(** ** Values exchanged with the outside world *)

(** A property of type [string | null | undefined] of a remote resource. *)
Inductive field :=
| Undefined
| Null
| Str (s : string).

(** JavaScript truthiness of such a property. *)
Definition truthy (f : field) : bool :=
  match f with
  | Str s => negb (String.eqb s "")
  | _ => false
  end.

(** [a || b]. *)
Definition or_else (a b : field) : field := if truthy a then a else b.

(** The text a template literal puts in place of the value. *)
Definition show (f : field) : string :=
  match f with
  | Undefined => "undefined"
  | Null => "null"
  | Str s => s
  end.

(** The text [Array.prototype.join] uses for an element. *)
Definition join_text (f : field) : string :=
  match f with
  | Str s => s
  | _ => ""
  end.

(** [truthy] on a plain string. *)
Definition nonempty (s : string) : bool := negb (String.eqb s "").

Record EventDateTime := {
  date : field;
  dateTime : field;
  timeZone : field
}.

Record Attendee := {
  email : field;
  responseStatus : field
}.

Record EntryPoint := {
  entryPointType : field;
  uri : field
}.

Record ConferenceData := {
  entryPoints : option (list EntryPoint)
}.

(** [calendar_v3.Schema$Event], restricted to the properties the server
    reads or writes. [None] is an absent object or array. *)
Record Event := {
  ev_id : field;
  ev_summary : field;
  ev_description : field;
  ev_location : field;
  ev_start : option EventDateTime;
  ev_end : option EventDateTime;
  ev_status : field;
  ev_htmlLink : field;
  ev_attendees : option (list Attendee);
  ev_conferenceData : option ConferenceData
}.

(** [calendar_v3.Schema$CalendarListEntry]. *)
Record CalendarListEntry := {
  cal_id : field;
  cal_summary : field;
  cal_description : field;
  cal_primary : bool;
  cal_accessRole : field
}.

(** Parameters of [calendar.events.list]. *)
Record ListParams := {
  lp_calendarId : string;
  lp_q : option string;
  lp_maxResults : number;
  lp_singleEvents : bool;
  lp_orderBy : string;
  lp_timeMin : option string;
  lp_timeMax : option string
}.

(** Parsed JSON documents. A number carries the value of its double. *)
#[warnings="-register-all"]
Inductive json :=
| JNull
| JBool (b : bool)
| JNumber (q : Q)
| JString (s : string)
| JArray (items : list json)
| JObject (members : list (string * json)).

(** Thrown values: an [Error] with its message, or any other value with the
    text [String(value)] gives. *)
Inductive Exn :=
| Error (message : string)
| Thrown (text : string).

(** The OAuth2 client handle: the three constructor arguments and the
    credentials set on it. [None] is [undefined]. *)
Record OAuth2Client := {
  client_id : option json;
  client_secret : option json;
  redirect_uri : option json;
  credentials : json
}.

(** External calls, in the order they are made. *)
Inductive Call :=
| FsReadFile (path : string)
| EventsList (p : ListParams)
| EventsInsert (calendarId : string) (requestBody : Event)
| EventsGet (calendarId eventId : string)
| EventsUpdate (calendarId eventId : string) (requestBody : Event)
| EventsDelete (calendarId eventId : string)
| CalendarListList.

Definition History := list Call.

(** A call to the remote calendar service (as opposed to a file read). *)
Definition is_remote (c : Call) : bool :=
  match c with
  | FsReadFile _ => false
  | _ => true
  end.

Definition remote_calls (h : History) : History := filter (fun c => is_remote c = true) h.

(** The environment: what each external call answers after history [h].
    [response.data.items] may be absent ([None]). *)
Record Env := {
  env_CREDENTIALS_PATH : option string;
  env_TOKEN_PATH : option string;
  fs_readFile : History -> string -> Exn + string;
  clock : History -> Z;
  events_list : History -> OAuth2Client -> ListParams -> Exn + option (list Event);
  events_insert : History -> OAuth2Client -> string -> Event -> Exn + Event;
  events_get : History -> OAuth2Client -> string -> string -> Exn + Event;
  events_update : History -> OAuth2Client -> string -> string -> Event -> Exn + Event;
  events_delete : History -> OAuth2Client -> string -> string -> Exn + unit;
  calendarList_list : History -> OAuth2Client -> Exn + option (list CalendarListEntry)
}.

(** Runtime built-ins left abstract. [Date_parse] returns the time value in
    milliseconds, [None] for [NaN]. *)
Record Runtime := {
  JSON_parse : string -> Exn + json;
  Date_parse : string -> option Z;
  Date_toISOString : Z -> string
}.

(** ** State and the monad of asynchronous computations *)

Record World := {
  auth : option OAuth2Client;
  trace : History
}.

Definition M (A : Type) : Type := World -> (Exn + A) * World.

Definition ret {A} (a : A) : M A := fun w => (inr a, w).

Definition throw {A} (e : Exn) : M A := fun w => (inl e, w).

Definition bind {A B} (m : M A) (k : A -> M B) : M B :=
  fun w =>
    match m w with
    | (inr a, w') => k a w'
    | (inl e, w') => (inl e, w')
    end.

Definition try_catch {A} (m : M A) (handler : Exn -> M A) : M A :=
  fun w =>
    match m w with
    | (inr a, w') => (inr a, w')
    | (inl e, w') => handler e w'
    end.

(** A synchronous expression that may throw. *)
Definition lift {A} (r : Exn + A) : M A := fun w => (r, w).

(** An external call: ask the environment, then record the call. *)
Definition external {A} (c : Call) (answer : History -> Exn + A) : M A :=
  fun w => (answer (trace w), {| auth := auth w; trace := trace w ++ [c] |}).

Notation "'let*' x ':=' m 'in' k" := (bind m (fun x => k))
  (at level 10, x name, m at level 100, k at level 200).

(** The calls made between two worlds. *)
Definition issued (w w' : World) : History := drop (length (trace w)) (trace w').

(** ** Results of the dispatcher *)

Inductive Content :=
| TextContent (text : string).

(** [isError] absent on the wire is [false] here. *)
Record ToolResult := {
  content : list Content;
  isError : bool
}.

(** The argument mapping of a tool call; [None] is a request without
    [arguments]. Values are strings, as the tool schemas declare them. *)
Definition Args := option (gmap string string).

(** [(args?.key as string) || fallback]. *)
Definition arg (args : Args) (key fallback : string) : string :=
  match args ≫= (fun m => m !! key) with
  | Some v => if nonempty v then v else fallback
  | None => fallback
  end.

(** The seven operations as the dispatcher calls them. *)
Record Gateway := {
  gw_listEvents : string -> string -> string -> string -> M string;
  gw_createEvent : string -> string -> string -> string -> string -> string -> string -> M string;
  gw_updateEvent : string -> string -> string -> string -> string -> string -> string -> M string;
  gw_deleteEvent : string -> string -> M string;
  gw_searchEvents : string -> string -> string -> M string;
  gw_listCalendars : M string;
  gw_getEvent : string -> string -> M string
}.

(** The names in [TOOLS]. *)
Definition TOOL_NAMES : list string :=
  [ "list_events"; "create_event"; "update_event"; "delete_event";
    "search_events"; "list_calendars"; "get_event" ].

(** ** Reading parsed JSON *)

Fixpoint member (k : string) (ms : list (string * json)) : option json :=
  match ms with
  | [] => None
  | (k', v) :: ms' => if String.eqb k k' then Some v else member k ms'
  end.

(** Truthiness of a JSON value or [undefined]. *)
Definition json_truthy (v : option json) : bool :=
  match v with
  | None => false
  | Some JNull => false
  | Some (JBool b) => b
  | Some (JNumber q) => negb (Qeq_bool q 0)
  | Some (JString s) => nonempty s
  | Some (JArray _) => true
  | Some (JObject _) => true
  end.

(** [v.k] for the property names the server reads ([installed], [web],
    [client_id], [client_secret], [redirect_uris]): none of them exists on
    arrays or primitives, and reading a property of [null] or [undefined]
    throws a [TypeError]. *)
Definition get_member (v : option json) (k : string) : Exn + option json :=
  match v with
  | None => inl (Error ("Cannot read properties of undefined (reading '" +:+ k +:+ "')"))
  | Some JNull => inl (Error ("Cannot read properties of null (reading '" +:+ k +:+ "')"))
  | Some (JObject ms) => inr (member k ms)
  | Some _ => inr None
  end.

(** Object destructuring throws on [null] and [undefined]. *)
Definition destructurable (v : option json) : Exn + unit :=
  match v with
  | None => inl (Error "Cannot destructure 'undefined' as it is undefined.")
  | Some JNull => inl (Error "Cannot destructure 'null' as it is null.")
  | Some _ => inr tt
  end.

(** Length in bytes of the UTF-8 character that starts with byte [c]. *)
Definition utf8_width (c : ascii) : nat :=
  let n := nat_of_ascii c in
  if (n <? 192)%nat then 1%nat else if (n <? 224)%nat then 2%nat
  else if (n <? 240)%nat then 3%nat else 4%nat.

(** [v[0]]. On a string it is the first character (for a character outside
    the basic plane JavaScript yields half of it; the whole is kept here). *)
Definition get_index0 (v : option json) : Exn + option json :=
  match v with
  | None => inl (Error "Cannot read properties of undefined (reading '0')")
  | Some JNull => inl (Error "Cannot read properties of null (reading '0')")
  | Some (JArray items) => inr (head items)
  | Some (JString s) =>
      match s with
      | EmptyString => inr None
      | String c _ => inr (Some (JString (String.substring 0 (utf8_width c) s)))
      end
  | Some (JObject ms) => inr (member "0" ms)
  | Some _ => inr None
  end.

(** Number of commas in a string. *)
Fixpoint count_commas (s : string) : nat :=
  match s with
  | EmptyString => O
  | String c r => if Ascii.eqb c ","%char then S (count_commas r) else count_commas r
  end.

(** ** Tool descriptors *)

Record PropertySchema := {
  ps_type : string;
  ps_description : string
}.

(** [required] is absent ([None]) for tools without mandatory parameters. *)
Record InputSchema := {
  is_type : string;
  is_properties : list (string * PropertySchema);
  is_required : option (list string)
}.

Record Tool := {
  tool_name : string;
  tool_description : string;
  inputSchema : InputSchema
}.

Definition string_property (description : string) : PropertySchema :=
  {| ps_type := "string"; ps_description := description |}.

Definition TOOLS : list Tool :=
  [ {| tool_name := "list_events";
       tool_description := "List upcoming calendar events";
       inputSchema :=
         {| is_type := "object";
            is_properties :=
              [ ("maxResults", string_property "Maximum number of events to return (default: 10)");
                ("calendarId", string_property "Calendar ID (default: primary)");
                ("timeMin", string_property "Start time (ISO 8601 format, optional)");
                ("timeMax", string_property "End time (ISO 8601 format, optional)") ];
            is_required := None |} |};
    {| tool_name := "create_event";
       tool_description := "Create a new calendar event";
       inputSchema :=
         {| is_type := "object";
            is_properties :=
              [ ("summary", string_property "Event title/summary");
                ("start", string_property "Start time (ISO 8601 format)");
                ("end", string_property "End time (ISO 8601 format)");
                ("description", string_property "Event description (optional)");
                ("location", string_property "Event location (optional)");
                ("attendees", string_property "Comma-separated list of attendee emails (optional)");
                ("calendarId", string_property "Calendar ID (default: primary)") ];
            is_required := Some ["summary"; "start"; "end"] |} |};
    {| tool_name := "update_event";
       tool_description := "Update an existing calendar event";
       inputSchema :=
         {| is_type := "object";
            is_properties :=
              [ ("eventId", string_property "Event ID to update");
                ("summary", string_property "New event title/summary (optional)");
                ("start", string_property "New start time (ISO 8601 format, optional)");
                ("end", string_property "New end time (ISO 8601 format, optional)");
                ("description", string_property "New event description (optional)");
                ("location", string_property "New event location (optional)");
                ("calendarId", string_property "Calendar ID (default: primary)") ];
            is_required := Some ["eventId"] |} |};
    {| tool_name := "delete_event";
       tool_description := "Delete a calendar event";
       inputSchema :=
         {| is_type := "object";
            is_properties :=
              [ ("eventId", string_property "Event ID to delete");
                ("calendarId", string_property "Calendar ID (default: primary)") ];
            is_required := Some ["eventId"] |} |};
    {| tool_name := "search_events";
       tool_description := "Search for events by keyword";
       inputSchema :=
         {| is_type := "object";
            is_properties :=
              [ ("query", string_property "Search query");
                ("maxResults", string_property "Maximum number of results (default: 10)");
                ("calendarId", string_property "Calendar ID (default: primary)") ];
            is_required := Some ["query"] |} |};
    {| tool_name := "list_calendars";
       tool_description := "List all available calendars";
       inputSchema :=
         {| is_type := "object"; is_properties := []; is_required := None |} |};
    {| tool_name := "get_event";
       tool_description := "Get detailed information about a specific event";
       inputSchema :=
         {| is_type := "object";
            is_properties :=
              [ ("eventId", string_property "Event ID");
                ("calendarId", string_property "Calendar ID (default: primary)") ];
            is_required := Some ["eventId"] |} |} ].

(** The [ListToolsRequestSchema] handler. *)
Definition listTools : M (list Tool) := ret TOOLS.

(** The parameters a tool declares, and those it declares mandatory. *)
Definition declared (t : Tool) : list string := map fst (is_properties (inputSchema t)).

Definition required (t : Tool) : list string := default [] (is_required (inputSchema t)).

(** ** The server *)

Section Server.

Variable R : Runtime.
Variable E : Env.

(** *** Configuration: [process.env.X || default] *)

Definition CREDENTIALS_PATH : string :=
  match env_CREDENTIALS_PATH E with
  | Some p => if nonempty p then p else "/app/credentials/credentials.json"
  | None => "/app/credentials/credentials.json"
  end.

Definition TOKEN_PATH : string :=
  match env_TOKEN_PATH E with
  | Some p => if nonempty p then p else "/app/credentials/token.json"
  | None => "/app/credentials/token.json"
  end.

(** *** Utility functions *)

Definition formatError (error : Exn) : string :=
  match error with
  | Error message => "❌ Error: " +:+ message
  | Thrown text => "❌ Error: " +:+ text
  end.

Definition validateRequired (value : option string) (name : string) : Exn + string :=
  match value with
  | Some v =>
      if negb (nonempty v) || String.eqb (Js.trim v) ""
      then inl (Error (name +:+ " is required"))
      else inr (Js.trim v)
  | None => inl (Error (name +:+ " is required"))
  end.

(** [new Date(s).toISOString()]: a [RangeError] on an invalid date. *)
Definition new_Date_toISOString (s : string) : Exn + string :=
  match Date_parse R s with
  | Some t => inr (Date_toISOString R t)
  | None => inl (Error "Invalid time value")
  end.

(** [new Date().toISOString()]. *)
Definition now_toISOString : M string :=
  fun w => (inr (Date_toISOString R (clock E (trace w))), w).

(** *** Authentication *)

Definition fs_readFile_utf8 (path : string) : M string :=
  external (FsReadFile path) (fun h => fs_readFile E h path).

Definition set_auth (a : OAuth2Client) : M unit :=
  fun w => (inr tt, {| auth := Some a; trace := trace w |}).

Definition auth_init_error : Exn :=
  Error "Failed to initialize Google Calendar authentication. Make sure credentials and token files are properly set up.".

Definition initializeAuth : M OAuth2Client :=
  fun w =>
    match auth w with
    | Some a => ret a w
    | None =>
        try_catch
          (let* credentialsContent := fs_readFile_utf8 CREDENTIALS_PATH in
           let* credentials := lift (JSON_parse R credentialsContent) in
           let* tokenContent := fs_readFile_utf8 TOKEN_PATH in
           let* token := lift (JSON_parse R tokenContent) in
           let* installed := lift (get_member (Some credentials) "installed") in
           let* source :=
             if json_truthy installed then ret installed
             else lift (get_member (Some credentials) "web") in
           let* _ := lift (destructurable source) in
           let* client_secret := lift (get_member source "client_secret") in
           let* client_id := lift (get_member source "client_id") in
           let* redirect_uris := lift (get_member source "redirect_uris") in
           let* redirect_uri0 := lift (get_index0 redirect_uris) in
           let client :=
             {| client_id := client_id; client_secret := client_secret;
                redirect_uri := redirect_uri0; credentials := token |} in
           let* _ := set_auth client in
           ret client)
          (fun _ => throw auth_init_error)
          w
    end.

(** *** [initializeAuth] between its awaits

    An [async] function runs from one [await] to the next without
    interruption; while it awaits, other work of the process runs. A call
    of [initializeAuth] that finds no handle cached awaits twice, once for
    each file. [Pending] is where such a call stands. *)
Inductive Pending :=
| AwaitCredentials
| AwaitToken (credentials : json)
| Settled (r : Exn + OAuth2Client).

Definition is_settled (p : Pending) : bool :=
  match p with
  | Settled _ => true
  | _ => false
  end.

(** From the call to the first await: the test of the cache. *)
Definition initializeAuth_begin (w : World) : Pending :=
  match auth w with
  | Some a => Settled (inr a)
  | None => AwaitCredentials
  end.

(** From the completion of the awaited read to the next await, or to the
    end of the call. *)
Definition initializeAuth_resume (p : Pending) (w : World) : Pending * World :=
  match p with
  | AwaitCredentials =>
      match (let* credentialsContent := fs_readFile_utf8 CREDENTIALS_PATH in
             lift (JSON_parse R credentialsContent)) w with
      | (inr credentials, w1) => (AwaitToken credentials, w1)
      | (inl _, w1) => (Settled (inl auth_init_error), w1)
      end
  | AwaitToken credentials =>
      match try_catch
              (let* tokenContent := fs_readFile_utf8 TOKEN_PATH in
               let* token := lift (JSON_parse R tokenContent) in
               let* installed := lift (get_member (Some credentials) "installed") in
               let* source :=
                 if json_truthy installed then ret installed
                 else lift (get_member (Some credentials) "web") in
               let* _ := lift (destructurable source) in
               let* client_secret := lift (get_member source "client_secret") in
               let* client_id := lift (get_member source "client_id") in
               let* redirect_uris := lift (get_member source "redirect_uris") in
               let* redirect_uri0 := lift (get_index0 redirect_uris) in
               let client :=
                 {| client_id := client_id; client_secret := client_secret;
                    redirect_uri := redirect_uri0; credentials := token |} in
               let* _ := set_auth client in
               ret client)
              (fun _ => throw auth_init_error)
              w with
      | (r, w1) => (Settled r, w1)
      end
  | Settled r => (Settled r, w)
  end.

(** The process as far as the handle is concerned: the shared world and the
    calls of [initializeAuth] made so far. *)
Record Process := {
  shared : World;
  calls : list Pending
}.

(** What happens next in the process: a new call of [initializeAuth] starts
    and runs to its first await; the read that call [i] awaits completes
    and the call runs on; or other code of the process makes an external
    call. *)
Inductive ProcessEvent :=
| Invoke
| Resume (i : nat)
| Elsewhere (c : Call).

Definition process_step (P : Process) (ev : ProcessEvent) : Process :=
  match ev with
  | Invoke =>
      {| shared := shared P; calls := calls P ++ [initializeAuth_begin (shared P)] |}
  | Resume i =>
      match calls P !! i with
      | Some p =>
          let (p', w') := initializeAuth_resume p (shared P) in
          {| shared := w'; calls := <[i := p']> (calls P) |}
      | None => P
      end
  | Elsewhere c =>
      {| shared := {| auth := auth (shared P); trace := trace (shared P) ++ [c] |};
         calls := calls P |}
  end.

Definition process_run (events : list ProcessEvent) (P : Process) : Process :=
  fold_left process_step events P.

(** The external calls other code made. *)
Definition elsewhere (events : list ProcessEvent) : History :=
  flat_map (fun ev => match ev with Elsewhere c => [c] | _ => [] end) events.

(** The API client is the authenticated handle. *)
Definition getCalendar : M OAuth2Client :=
  let* authClient := initializeAuth in
  ret authClient.

(** *** Remote calls *)

Definition calendar_events_list (calendar : OAuth2Client) (p : ListParams) :=
  external (EventsList p) (fun h => events_list E h calendar p).

Definition calendar_events_insert (calendar : OAuth2Client) (calendarId : string) (body : Event) :=
  external (EventsInsert calendarId body) (fun h => events_insert E h calendar calendarId body).

Definition calendar_events_get (calendar : OAuth2Client) (calendarId eventId : string) :=
  external (EventsGet calendarId eventId) (fun h => events_get E h calendar calendarId eventId).

Definition calendar_events_update (calendar : OAuth2Client) (calendarId eventId : string) (body : Event) :=
  external (EventsUpdate calendarId eventId body)
    (fun h => events_update E h calendar calendarId eventId body).

Definition calendar_events_delete (calendar : OAuth2Client) (calendarId eventId : string) :=
  external (EventsDelete calendarId eventId) (fun h => events_delete E h calendar calendarId eventId).

Definition calendar_calendarList_list (calendar : OAuth2Client) :=
  external CalendarListList (fun h => calendarList_list E h calendar).

(** *** Formatting helpers *)

(** [x?.dateTime || x?.date]. *)
Definition when (x : option EventDateTime) : field :=
  match x with
  | Some d => or_else (dateTime d) (date d)
  | None => Undefined
  end.

Definition line (label : string) (value : string) : string :=
  label +:+ value +:+ Js.LF.

(** An optional line, present when the property is truthy. *)
Definition line_if (label : string) (f : field) : string :=
  if truthy f then line label (show f) else "".

Definition utc (iso : string) : EventDateTime :=
  {| date := Undefined; dateTime := Str iso; timeZone := Str "UTC" |}.

(** [maxResultsNum = parseInt(maxResults) || 10] *)
Definition maxResultsNum (maxResults : string) : number :=
  match Js.parseInt maxResults with
  | Some (Finite n) => if n =? 0 then Finite 10 else Finite n
  | Some (Infinity negative) => Infinity negative
  | None => Finite 10
  end.

Definition is_undefined (f : field) : bool :=
  match f with
  | Undefined => true
  | _ => false
  end.

(** *** Tool implementations

    Every parameter has a default, used when the argument is [undefined]
    ([None]). *)

Definition listEvents_block (event : Event) : string :=
  line "📍 " (show (or_else (ev_summary event) (Str "Untitled Event"))) +:+
  line "   ID: " (show (ev_id event)) +:+
  line "   Start: " (show (when (ev_start event))) +:+
  line "   End: " (show (when (ev_end event))) +:+
  line_if "   Description: " (ev_description event) +:+
  line_if "   Location: " (ev_location event) +:+
  match ev_attendees event with
  | Some (a :: l) =>
      line "   Attendees: " (Js.join ", " (map (fun a => join_text (email a)) (a :: l)))
  | _ => ""
  end +:+
  Js.LF.

Definition listEvents (maxResults calendarId timeMin timeMax : option string) : M string :=
  let maxResults := default "10" maxResults in
  let calendarId := default "primary" calendarId in
  let timeMin := default "" timeMin in
  let timeMax := default "" timeMax in
  try_catch
    (let* calendar := getCalendar in
     let* tmin :=
       if nonempty timeMin then lift (new_Date_toISOString timeMin)
       else now_toISOString in
     let* tmax :=
       if nonempty timeMax
       then let* t := lift (new_Date_toISOString timeMax) in ret (Some t)
       else ret None in
     let params :=
       {| lp_calendarId := calendarId; lp_q := None;
          lp_maxResults := maxResultsNum maxResults;
          lp_singleEvents := true; lp_orderBy := "startTime";
          lp_timeMin := Some tmin; lp_timeMax := tmax |} in
     let* items := calendar_events_list calendar params in
     let events := default [] items in
     if (length events =? 0)%nat then ret "📅 No upcoming events found."
     else
       ret (fold_left (fun result event => result +:+ listEvents_block event) events
              ("📅 Found " +:+ Js.show_nat (length events) +:+ " event(s):" +:+ Js.LF +:+ Js.LF)))
    (fun error => ret (formatError error)).

Definition createEvent
  (summary start end_ description location attendees calendarId : option string) : M string :=
  let summary := default "" summary in
  let start := default "" start in
  let end_ := default "" end_ in
  let description := default "" description in
  let location := default "" location in
  let attendees := default "" attendees in
  let calendarId := default "primary" calendarId in
  try_catch
    (let* _ := lift (validateRequired (Some summary) "summary") in
     let* _ := lift (validateRequired (Some start) "start") in
     let* _ := lift (validateRequired (Some end_) "end") in
     let* calendar := getCalendar in
     let* startISO := lift (new_Date_toISOString start) in
     let* endISO := lift (new_Date_toISOString end_) in
     let eventData :=
       {| ev_id := Undefined;
          ev_summary := Str summary;
          ev_description := if nonempty description then Str description else Undefined;
          ev_location := if nonempty location then Str location else Undefined;
          ev_start := Some (utc startISO);
          ev_end := Some (utc endISO);
          ev_status := Undefined;
          ev_htmlLink := Undefined;
          ev_attendees :=
            if nonempty attendees
            then Some (map (fun email => {| email := Str (Js.trim email); responseStatus := Undefined |})
                         (Js.split_comma attendees))
            else None;
          ev_conferenceData := None |} in
     let* data := calendar_events_insert calendar calendarId eventData in
     ret ("✅ Event created successfully!" +:+ Js.LF +:+ Js.LF +:+
          line "📍 " (show (ev_summary data)) +:+
          line "   ID: " (show (ev_id data)) +:+
          line "   Start: " (show (when (ev_start data))) +:+
          line "   End: " (show (when (ev_end data))) +:+
          "   Link: " +:+ show (ev_htmlLink data)))
    (fun error => ret (formatError error)).

Definition updateEvent
  (eventId summary start end_ description location calendarId : option string) : M string :=
  let eventId := default "" eventId in
  let summary := default "" summary in
  let start := default "" start in
  let end_ := default "" end_ in
  let description := default "" description in
  let location := default "" location in
  let calendarId := default "primary" calendarId in
  try_catch
    (let* _ := lift (validateRequired (Some eventId) "eventId") in
     let* calendar := getCalendar in
     let* existing := calendar_events_get calendar calendarId eventId in
     let* newStart :=
       if nonempty start
       then let* iso := lift (new_Date_toISOString start) in ret (Some (utc iso))
       else ret (ev_start existing) in
     let* newEnd :=
       if nonempty end_
       then let* iso := lift (new_Date_toISOString end_) in ret (Some (utc iso))
       else ret (ev_end existing) in
     let eventData :=
       {| ev_id := Undefined;
          ev_summary := if nonempty summary then Str summary else ev_summary existing;
          ev_description :=
            if negb (is_undefined (Str description)) then Str description else Undefined;
          ev_location :=
            if negb (is_undefined (Str location)) then Str location else Undefined;
          ev_start := newStart;
          ev_end := newEnd;
          ev_status := Undefined;
          ev_htmlLink := Undefined;
          ev_attendees := None;
          ev_conferenceData := None |} in
     let* data := calendar_events_update calendar calendarId eventId eventData in
     ret ("✅ Event updated successfully!" +:+ Js.LF +:+ Js.LF +:+
          line "📍 " (show (ev_summary data)) +:+
          line "   ID: " (show (ev_id data)) +:+
          line "   Start: " (show (when (ev_start data))) +:+
          "   End: " +:+ show (when (ev_end data))))
    (fun error => ret (formatError error)).

Definition deleteEvent (eventId calendarId : option string) : M string :=
  let eventId := default "" eventId in
  let calendarId := default "primary" calendarId in
  try_catch
    (let* _ := lift (validateRequired (Some eventId) "eventId") in
     let* calendar := getCalendar in
     let* _ := calendar_events_delete calendar calendarId eventId in
     ret ("✅ Event deleted successfully!" +:+ Js.LF +:+ "   Event ID: " +:+ eventId))
    (fun error => ret (formatError error)).

Definition searchEvents_block (event : Event) : string :=
  line "📍 " (show (or_else (ev_summary event) (Str "Untitled Event"))) +:+
  line "   ID: " (show (ev_id event)) +:+
  line "   Start: " (show (when (ev_start event))) +:+
  line_if "   Description: " (ev_description event) +:+
  Js.LF.

Definition searchEvents (query maxResults calendarId : option string) : M string :=
  let query := default "" query in
  let maxResults := default "10" maxResults in
  let calendarId := default "primary" calendarId in
  try_catch
    (let* _ := lift (validateRequired (Some query) "query") in
     let* calendar := getCalendar in
     let params :=
       {| lp_calendarId := calendarId; lp_q := Some query;
          lp_maxResults := maxResultsNum maxResults;
          lp_singleEvents := true; lp_orderBy := "startTime";
          lp_timeMin := None; lp_timeMax := None |} in
     let* items := calendar_events_list calendar params in
     let events := default [] items in
     if (length events =? 0)%nat
     then ret ("🔍 No events found matching: " +:+ Js.DQ +:+ query +:+ Js.DQ)
     else
       ret (fold_left (fun result event => result +:+ searchEvents_block event) events
              ("🔍 Found " +:+ Js.show_nat (length events) +:+ " event(s) matching " +:+
               Js.DQ +:+ query +:+ Js.DQ +:+ ":" +:+ Js.LF +:+ Js.LF)))
    (fun error => ret (formatError error)).

Definition listCalendars_block (cal : CalendarListEntry) : string :=
  line "📍 " (show (or_else (cal_summary cal) (Str "Untitled Calendar"))) +:+
  line "   ID: " (show (cal_id cal)) +:+
  line_if "   Description: " (cal_description cal) +:+
  line "   Primary: " (if cal_primary cal then "Yes" else "No") +:+
  line "   Access: " (show (cal_accessRole cal)) +:+
  Js.LF.

Definition listCalendars : M string :=
  try_catch
    (let* calendar := getCalendar in
     let* items := calendar_calendarList_list calendar in
     let calendars := default [] items in
     if (length calendars =? 0)%nat then ret "📅 No calendars found."
     else
       ret (fold_left (fun result cal => result +:+ listCalendars_block cal) calendars
              ("📅 Found " +:+ Js.show_nat (length calendars) +:+ " calendar(s):" +:+
               Js.LF +:+ Js.LF)))
    (fun error => ret (formatError error)).

(** The text [getEvent] builds from the data of the remote event. *)
Definition getEvent_text (event : Event) : string :=
  line "📍 " (show (or_else (ev_summary event) (Str "Untitled Event"))) +:+ Js.LF +:+
  line "ID: " (show (ev_id event)) +:+
  line "Start: " (show (when (ev_start event))) +:+
  line "End: " (show (when (ev_end event))) +:+
  line "Status: " (show (ev_status event)) +:+
  line_if "Description: " (ev_description event) +:+
  line_if "Location: " (ev_location event) +:+
  match ev_attendees event with
  | Some (a :: l) =>
      fold_left
        (fun result attendee =>
           result +:+ "  - " +:+ show (email attendee) +:+ " (" +:+
           show (or_else (responseStatus attendee) (Str "no response")) +:+ ")" +:+ Js.LF)
        (a :: l) (Js.LF +:+ "Attendees:" +:+ Js.LF)
  | _ => ""
  end +:+
  match ev_conferenceData event with
  | Some {| entryPoints := Some entries |} =>
      fold_left
        (fun result entry =>
           result +:+ "  - " +:+ show (entryPointType entry) +:+ ": " +:+ show (uri entry) +:+ Js.LF)
        entries (Js.LF +:+ "Conference:" +:+ Js.LF)
  | _ => ""
  end +:+
  Js.LF +:+ "Link: " +:+ show (ev_htmlLink event).

Definition getEvent (eventId calendarId : option string) : M string :=
  let eventId := default "" eventId in
  let calendarId := default "primary" calendarId in
  try_catch
    (let* _ := lift (validateRequired (Some eventId) "eventId") in
     let* calendar := getCalendar in
     let* event := calendar_events_get calendar calendarId eventId in
     ret (getEvent_text event))
    (fun error => ret (formatError error)).

(** *** The dispatcher *)

Definition text_result (text : string) : ToolResult :=
  {| content := [TextContent text]; isError := false |}.

Definition error_result (error : Exn) : ToolResult :=
  {| content := [TextContent (formatError error)]; isError := true |}.

(** The [switch] of the [CallToolRequestSchema] handler: the gateway
    operation selected by [name], applied to the extracted arguments, or the
    [default] branch. *)
Definition dispatch (G : Gateway) (name : string) (args : Args) : M string :=
  if String.eqb name "list_events" then
    let maxResults := arg args "maxResults" "10" in
    let calendarId := arg args "calendarId" "primary" in
    let timeMin := arg args "timeMin" "" in
    let timeMax := arg args "timeMax" "" in
    gw_listEvents G maxResults calendarId timeMin timeMax
  else if String.eqb name "create_event" then
    let summary := arg args "summary" "" in
    let start := arg args "start" "" in
    let end_ := arg args "end" "" in
    let description := arg args "description" "" in
    let location := arg args "location" "" in
    let attendees := arg args "attendees" "" in
    let calendarId := arg args "calendarId" "primary" in
    gw_createEvent G summary start end_ description location attendees calendarId
  else if String.eqb name "update_event" then
    let eventId := arg args "eventId" "" in
    let summary := arg args "summary" "" in
    let start := arg args "start" "" in
    let end_ := arg args "end" "" in
    let description := arg args "description" "" in
    let location := arg args "location" "" in
    let calendarId := arg args "calendarId" "primary" in
    gw_updateEvent G eventId summary start end_ description location calendarId
  else if String.eqb name "delete_event" then
    let eventId := arg args "eventId" "" in
    let calendarId := arg args "calendarId" "primary" in
    gw_deleteEvent G eventId calendarId
  else if String.eqb name "search_events" then
    let query := arg args "query" "" in
    let maxResults := arg args "maxResults" "10" in
    let calendarId := arg args "calendarId" "primary" in
    gw_searchEvents G query maxResults calendarId
  else if String.eqb name "list_calendars" then
    gw_listCalendars G
  else if String.eqb name "get_event" then
    let eventId := arg args "eventId" "" in
    let calendarId := arg args "calendarId" "primary" in
    gw_getEvent G eventId calendarId
  else
    throw (Error ("Unknown tool: " +:+ name)).

(** The handler around the [switch]: a returned text becomes a result
    without error flag, anything thrown is caught and flagged. *)
Definition handler (G : Gateway) (name : string) (args : Args) : M ToolResult :=
  try_catch
    (let* text := dispatch G name args in
     ret (text_result text))
    (fun error => ret (error_result error)).

(** The seven tool implementations of this file. *)
Definition gateway : Gateway :=
  {| gw_listEvents := fun maxResults calendarId timeMin timeMax =>
       listEvents (Some maxResults) (Some calendarId) (Some timeMin) (Some timeMax);
     gw_createEvent := fun summary start end_ description location attendees calendarId =>
       createEvent (Some summary) (Some start) (Some end_) (Some description)
         (Some location) (Some attendees) (Some calendarId);
     gw_updateEvent := fun eventId summary start end_ description location calendarId =>
       updateEvent (Some eventId) (Some summary) (Some start) (Some end_)
         (Some description) (Some location) (Some calendarId);
     gw_deleteEvent := fun eventId calendarId => deleteEvent (Some eventId) (Some calendarId);
     gw_searchEvents := fun query maxResults calendarId =>
       searchEvents (Some query) (Some maxResults) (Some calendarId);
     gw_listCalendars := listCalendars;
     gw_getEvent := fun eventId calendarId => getEvent (Some eventId) (Some calendarId) |}.

Definition callTool (name : string) (args : Args) : M ToolResult :=
  handler gateway name args.

(** *** Vocabulary of the properties *)

Definition file_reads_only (h : History) : Prop := remote_calls h = [].

(** A required input that is missing, empty, or empty once trimmed. *)
Definition blank (value : option string) : Prop := Js.trim (default "" value) = "".

(** An optional input that is missing or empty: both are falsy. *)
Definition absent (value : option string) : Prop := default "" value = "".

(** The operation returned the validation failure for input [name] and left
    the world as it was: no file read, no remote call. *)
Definition rejected (name : string) (w : World) (r : (Exn + string) * World) : Prop :=
  r = (inr ("❌ Error: " +:+ name +:+ " is required"), w)
  /\ remote_calls (issued w (snd r)) = [].

(** What a call of [initializeAuth] from world [w] can do: return the cached
    handle and touch nothing; read both files, build the handle and cache
    it; or fail after one or two file reads, leaving the cache empty. *)
Inductive auth_outcome (w : World) : (Exn + OAuth2Client) * World -> Prop :=
| auth_cached a :
    auth w = Some a ->
    auth_outcome w (inr a, w)
| auth_loaded a :
    auth w = None ->
    auth_outcome w
      (inr a, {| auth := Some a;
                 trace := trace w ++ [FsReadFile CREDENTIALS_PATH; FsReadFile TOKEN_PATH] |})
| auth_failed reads :
    auth w = None ->
    reads = [FsReadFile CREDENTIALS_PATH]
    \/ reads = [FsReadFile CREDENTIALS_PATH; FsReadFile TOKEN_PATH] ->
    auth_outcome w (inl auth_init_error, {| auth := None; trace := trace w ++ reads |}).

Definition keeps_auth {A} (m : M A) : Prop :=
  forall w a, auth w = Some a -> auth (snd (m w)) = Some a.

(** The report [getEvent] makes of the answer to its get call. *)
Definition getEvent_report (answer : Exn + Event) : string :=
  match answer with
  | inl error => formatError error
  | inr event => getEvent_text event
  end.

Definition logged (c : Call) (w : World) : World :=
  {| auth := auth w; trace := trace w ++ [c] |}.

(** After history [h0] the remote event keeps its data: the get call for
    it is answered as it is at [h0]. *)
Definition event_unchanged_since (h0 : History) (calendarId eventId : string) : Prop :=
  forall h a, events_get E (h0 ++ h) a calendarId eventId = events_get E h0 a calendarId eventId.

(** After history [h0] the files keep their content. *)
Definition files_unchanged_since (h0 : History) : Prop :=
  forall h path, fs_readFile E (h0 ++ h) path = fs_readFile E h0 path.

(** Authentication succeeds from world [w]. *)
Definition authenticates (w : World) : Prop :=
  exists a w1, initializeAuth w = (inr a, w1).

(** The reading of idempotence under which the remote event alone has to
    stay the same between two consecutive calls of [getEvent]. *)
Definition getEvent_repeats_on_same_event : Prop :=
  forall eventId calendarId w,
    event_unchanged_since (trace w) (default "primary" calendarId) (default "" eventId) ->
    fst (getEvent eventId calendarId (snd (getEvent eventId calendarId w)))
    = fst (getEvent eventId calendarId w).

(** The reading of memoisation that covers overlapping calls: once a call
    of [initializeAuth] has succeeded, whatever happens next in the process,
    no call of [initializeAuth] reads a file and every call that succeeds
    returns that same handle. *)
Definition memoized_for_lifetime : Prop :=
  forall w events later i a,
    let P := process_run events {| shared := w; calls := [] |} in
    let P' := process_run later P in
    calls P !! i = Some (Settled (inr a)) ->
    trace (shared P') = trace (shared P) ++ elsewhere later
    /\ (forall j b, calls P' !! j = Some (Settled (inr b)) -> b = a).

(** A computation that always returns a value: it never throws. *)
Definition returns {A} (m : M A) : Prop := forall w, exists a w', m w = (inr a, w').

(** The reading of the error flag under which a failure report of the
    gateway (a text that starts with the error glyph and prefix) is
    flagged. *)
Definition flags_gateway_failures : Prop :=
  forall name args w text w',
    name ∈ TOOL_NAMES ->
    dispatch gateway name args w = (inr text, w') ->
    String.prefix "❌ Error: " text = true ->
    exists r w'', callTool name args w = (inr r, w'') /\ isError r = true.

(** What a tool call may have issued between [w] and [w']: file reads (at
    most two, and none when the handle was cached) followed by at most [k]
    remote calls. *)
Definition call_budget (k : nat) (w w' : World) : Prop :=
  exists reads calls,
    issued w w' = reads ++ calls
    /\ file_reads_only reads
    /\ (length reads <= 2)%nat
    /\ (auth w <> None -> reads = [])
    /\ Forall (fun c => is_remote c = true) calls
    /\ (length calls <= k)%nat.

(** A date argument that is supplied and does not parse. *)
Definition supplied_invalid (value : option string) : Prop :=
  nonempty (default "" value) = true /\ Date_parse R (default "" value) = None.

(** The text is a failure report of the date conversion or of the
    authentication. *)
Definition date_or_auth_failure (r : Exn + string) : Prop :=
  exists message,
    r = inr ("❌ Error: " +:+ message)
    /\ (message = "Invalid time value" \/ Error message = auth_init_error).

(** The error, if any, with which the remote service answers call [c] made
    through handle [a] after history [h]. *)
Definition remote_error (h : History) (a : OAuth2Client) (c : Call) : option Exn :=
  match c with
  | FsReadFile _ => None
  | EventsList p =>
      match events_list E h a p with inl e => Some e | inr _ => None end
  | EventsInsert calendarId body =>
      match events_insert E h a calendarId body with inl e => Some e | inr _ => None end
  | EventsGet calendarId eventId =>
      match events_get E h a calendarId eventId with inl e => Some e | inr _ => None end
  | EventsUpdate calendarId eventId body =>
      match events_update E h a calendarId eventId body with inl e => Some e | inr _ => None end
  | EventsDelete calendarId eventId =>
      match events_delete E h a calendarId eventId with inl e => Some e | inr _ => None end
  | CalendarListList =>
      match calendarList_list E h a with inl e => Some e | inr _ => None end
  end.

(** A run [r] from [w] stops at the first remote call the service answers
    with an error, and returns the formatted message of that error. *)
Definition reports_failure (w : World) (r : (Exn + string) * World) : Prop :=
  forall a pre c post e,
    auth (snd r) = Some a ->
    issued w (snd r) = pre ++ c :: post ->
    remote_error (trace w ++ pre) a c = Some e ->
    post = [] /\ fst r = inr (formatError e).

(** A remote call that changes the calendar. *)
Definition mutating (c : Call) : bool :=
  match c with
  | EventsInsert _ _ | EventsUpdate _ _ _ | EventsDelete _ _ => true
  | _ => false
  end.

(** The text starts with the success glyph. *)
Definition confirmation (text : string) : Prop := exists rest, text = "✅" +:+ rest.

(** A run [r] from [w] that returns a confirmation ended with a mutating
    remote call that the service accepted. *)
Definition confirms_only_success (w : World) (r : (Exn + string) * World) : Prop :=
  forall text,
    fst r = inr text ->
    confirmation text ->
    exists a pre c,
      auth (snd r) = Some a
      /\ issued w (snd r) = pre ++ [c]
      /\ mutating c = true
      /\ remote_error (trace w ++ pre) a c = None.

(** The world after a sequence of tool calls handled one after another. *)
Definition after_calls (requests : list (string * Args)) (w : World) : World :=
  fold_left (fun w' request => snd (callTool (fst request) (snd request) w')) requests w.

(** With the handle cached, a computation keeps it and makes remote calls
    only. *)
Definition steady {A} (m : M A) : Prop :=
  forall w a,
    auth w = Some a ->
    exists h,
      snd (m w) = {| auth := Some a; trace := trace w ++ h |}
      /\ Forall (fun c => is_remote c = true) h.

(** The blocks of the items of a report, one after another. *)
Definition blocks {A} (block : A -> string) (items : list A) : string :=
  fold_right (fun item rest => block item +:+ rest) "" items.

(** The reports of the three listing operations, from the items the remote
    service returned. *)
Definition listEvents_text (items : option (list Event)) : string :=
  match default [] items with
  | [] => "📅 No upcoming events found."
  | events =>
      "📅 Found " +:+ Js.show_nat (length events) +:+ " event(s):" +:+ Js.LF +:+ Js.LF +:+
      blocks listEvents_block events
  end.

Definition searchEvents_text (query : string) (items : option (list Event)) : string :=
  match default [] items with
  | [] => "🔍 No events found matching: " +:+ Js.DQ +:+ query +:+ Js.DQ
  | events =>
      "🔍 Found " +:+ Js.show_nat (length events) +:+ " event(s) matching " +:+
      Js.DQ +:+ query +:+ Js.DQ +:+ ":" +:+ Js.LF +:+ Js.LF +:+
      blocks searchEvents_block events
  end.

Definition listCalendars_text (items : option (list CalendarListEntry)) : string :=
  match default [] items with
  | [] => "📅 No calendars found."
  | calendars =>
      "📅 Found " +:+ Js.show_nat (length calendars) +:+ " calendar(s):" +:+ Js.LF +:+ Js.LF +:+
      blocks listCalendars_block calendars
  end.

End Server.

(** ** A concrete runtime and environment

    Used to run the server on concrete requests: a runtime whose date
    parser accepts [YYYY-MM-DDTHH:mm:ss] (read as UTC, optionally followed
    by [Z]) and nothing else, and an environment with both credential files
    in place and a calendar [primary] holding one event [evt1]. *)

Module Sample.

Definition days_from_civil (y m d : Z) : Z :=
  let y' := if m <=? 2 then y - 1 else y in
  let era := y' / 400 in
  let yoe := y' - era * 400 in
  let mp := if 2 <? m then m - 3 else m + 9 in
  let doy := (153 * mp + 2) / 5 + d - 1 in
  let doe := yoe * 365 + yoe / 4 - yoe / 100 + doy in
  era * 146097 + doe - 719468.

Definition civil_from_days (z : Z) : Z * Z * Z :=
  let z := z + 719468 in
  let era := z / 146097 in
  let doe := z - era * 146097 in
  let yoe := (doe - doe / 1460 + doe / 36524 - doe / 146096) / 365 in
  let y := yoe + era * 400 in
  let doy := doe - (365 * yoe + yoe / 4 - yoe / 100) in
  let mp := (5 * doy + 2) / 153 in
  let d := doy - (153 * mp + 2) / 5 + 1 in
  let m := if mp <? 10 then mp + 3 else mp - 9 in
  (if m <=? 2 then y + 1 else y, m, d).

Fixpoint zeros (n : nat) : string :=
  match n with
  | O => ""
  | S n' => "0" +:+ zeros n'
  end.

(** [n >= 0] in decimal, left-padded with zeros to [width] digits. *)
Definition padded (width : nat) (n : Z) : string :=
  let digits := Js.show_nat (Z.to_nat n) in
  zeros (width - String.length digits) +:+ digits.

Definition toISOString (t : Z) : string :=
  let day := t / 86400000 in
  let ms := t mod 86400000 in
  let '(y, m, d) := civil_from_days day in
  let year :=
    if (0 <=? y) && (y <=? 9999) then padded 4 y
    else if y <? 0 then "-" +:+ padded 6 (- y) else "+" +:+ padded 6 y in
  year +:+ "-" +:+ padded 2 m +:+ "-" +:+ padded 2 d +:+ "T" +:+
  padded 2 (ms / 3600000) +:+ ":" +:+ padded 2 (ms / 60000 mod 60) +:+ ":" +:+
  padded 2 (ms / 1000 mod 60) +:+ "." +:+ padded 3 (ms mod 1000) +:+ "Z".

(** The number written by exactly [n] decimal digits at the head of [s],
    with the rest of [s]. *)
Fixpoint number (n : nat) (acc : Z) (s : string) : option (Z * string) :=
  match n with
  | O => Some (acc, s)
  | S n' =>
      match s with
      | String c r =>
          match Js.digit_value 10 c with
          | Some d => number n' (acc * 10 + d) r
          | None => None
          end
      | EmptyString => None
      end
  end.

Definition expect (c : ascii) (s : string) : option string :=
  match s with
  | String c' r => if Ascii.eqb c c' then Some r else None
  | EmptyString => None
  end.

Definition days_in_month (y m : Z) : Z :=
  days_from_civil (if m =? 12 then y + 1 else y) (if m =? 12 then 1 else m + 1) 1
  - days_from_civil y m 1.

Definition parse (s : string) : option Z :=
  '(y, s) ← number 4 0 s;
  s ← expect "-" s;
  '(m, s) ← number 2 0 s;
  s ← expect "-" s;
  '(d, s) ← number 2 0 s;
  s ← expect "T" s;
  '(hh, s) ← number 2 0 s;
  s ← expect ":" s;
  '(mm, s) ← number 2 0 s;
  s ← expect ":" s;
  '(ss, s) ← number 2 0 s;
  if (String.eqb s "" || String.eqb s "Z")
     && (1 <=? m) && (m <=? 12) && (1 <=? d) && (d <=? days_in_month y m)
     && (hh <=? 23) && (mm <=? 59) && (ss <=? 59)
  then Some (days_from_civil y m d * 86400000 + hh * 3600000 + mm * 60000 + ss * 1000)
  else None.

Definition quoted (s : string) : string := Js.DQ +:+ s +:+ Js.DQ.

Definition credentials_text : string :=
  "{" +:+ quoted "installed" +:+ ":{" +:+
  quoted "client_id" +:+ ":" +:+ quoted "id.apps.example" +:+ "," +:+
  quoted "client_secret" +:+ ":" +:+ quoted "s3cret" +:+ "," +:+
  quoted "redirect_uris" +:+ ":[" +:+ quoted "http://localhost" +:+ "]}}".

Definition credentials_json : json :=
  JObject [("installed",
            JObject [("client_id", JString "id.apps.example");
                     ("client_secret", JString "s3cret");
                     ("redirect_uris", JArray [JString "http://localhost"])])].

Definition token_text : string :=
  "{" +:+ quoted "refresh_token" +:+ ":" +:+ quoted "r-1" +:+ "," +:+
  quoted "access_token" +:+ ":" +:+ quoted "a-1" +:+ "}".

Definition token_json : json :=
  JObject [("refresh_token", JString "r-1"); ("access_token", JString "a-1")].

(** [JSON.parse] on the two documents above; a [SyntaxError] elsewhere. *)
Definition parse_json (s : string) : Exn + json :=
  if String.eqb s credentials_text then inr credentials_json
  else if String.eqb s token_text then inr token_json
  else inl (Error "Unexpected token in JSON").

Definition runtime : Runtime :=
  {| JSON_parse := parse_json; Date_parse := parse; Date_toISOString := toISOString |}.

Definition evt1 : Event :=
  {| ev_id := Str "evt1";
     ev_summary := Str "Team Sync";
     ev_description := Str "Quarterly planning";
     ev_location := Str "Room 4";
     ev_start := Some {| date := Undefined; dateTime := Str "2025-11-27T14:00:00Z"; timeZone := Str "UTC" |};
     ev_end := Some {| date := Undefined; dateTime := Str "2025-11-27T15:00:00Z"; timeZone := Str "UTC" |};
     ev_status := Str "confirmed";
     ev_htmlLink := Str "https://calendar.example/evt1";
     ev_attendees := Some [ {| email := Str "ana@example.org"; responseStatus := Str "accepted" |};
                            {| email := Str "bo@example.org"; responseStatus := Undefined |} ];
     ev_conferenceData := None |}.

Definition not_found {A} : Exn + A := inl (Error "Not Found").

Definition known (calendarId eventId : string) : bool :=
  String.eqb calendarId "primary" && String.eqb eventId "evt1".

Definition stored (eventId : string) (body : Event) : Event :=
  {| ev_id := Str eventId;
     ev_summary := ev_summary body;
     ev_description := ev_description body;
     ev_location := ev_location body;
     ev_start := ev_start body;
     ev_end := ev_end body;
     ev_status := Str "confirmed";
     ev_htmlLink := Str ("https://calendar.example/" +:+ eventId);
     ev_attendees := ev_attendees body;
     ev_conferenceData := ev_conferenceData body |}.

(** Both files exist; the clock starts on 2025-11-27T12:00:00Z and moves
    one millisecond per external call. *)
Definition env : Env :=
  {| env_CREDENTIALS_PATH := None;
     env_TOKEN_PATH := None;
     fs_readFile := fun _ path =>
       if String.eqb path "/app/credentials/credentials.json" then inr credentials_text
       else if String.eqb path "/app/credentials/token.json" then inr token_text
       else inl (Error ("ENOENT: no such file or directory, open '" +:+ path +:+ "'"));
     clock := fun h => 1764244800000 + Z.of_nat (length h);
     events_list := fun _ _ p =>
       if String.eqb (lp_calendarId p) "primary" then inr (Some [evt1]) else not_found;
     events_insert := fun _ _ calendarId body =>
       if String.eqb calendarId "primary" then inr (stored "evt2" body) else not_found;
     events_get := fun _ _ calendarId eventId =>
       if known calendarId eventId then inr evt1 else not_found;
     events_update := fun _ _ calendarId eventId body =>
       if known calendarId eventId then inr (stored eventId body) else not_found;
     events_delete := fun _ _ calendarId eventId =>
       if known calendarId eventId then inr tt else not_found;
     calendarList_list := fun _ _ =>
       inr (Some [ {| cal_id := Str "primary"; cal_summary := Str "Work";
                      cal_description := Undefined; cal_primary := true;
                      cal_accessRole := Str "owner" |} ]) |}.

(** The world of a freshly started process. *)
Definition fresh : World := {| auth := None; trace := [] |}.

End Sample.

Definition sample_client : OAuth2Client :=
  {| client_id := Some (JString "id.apps.example");
     client_secret := Some (JString "s3cret");
     redirect_uri := Some (JString "http://localhost");
     credentials := Sample.token_json |}.

Definition sample_reads : History :=
  [ FsReadFile "/app/credentials/credentials.json"; FsReadFile "/app/credentials/token.json" ].

Definition sample_authenticated : World :=
  {| auth := Some sample_client; trace := sample_reads |}.

(** The list call [listEvents] sends when called without arguments in the
    fresh world. *)
Definition sample_list_params : ListParams :=
  {| lp_calendarId := "primary"; lp_q := None; lp_maxResults := 10;
     lp_singleEvents := true; lp_orderBy := "startTime";
     lp_timeMin := Some "2025-11-27T12:00:00.002Z"; lp_timeMax := None |}.

(** The descriptor [TOOLS] lists under a name (an empty one for a name
    that is not listed). *)
Definition sample_tool (name : string) : Tool :=
  default
    {| tool_name := name; tool_description := "";
       inputSchema := {| is_type := "object"; is_properties := []; is_required := None |} |}
    (List.find (fun t => String.eqb (tool_name t) name) TOOLS).

(** [Sample.env] without its token file. *)
Definition sample_env_no_token : Env :=
  {| env_CREDENTIALS_PATH := None;
     env_TOKEN_PATH := None;
     fs_readFile := fun _ path =>
       if String.eqb path "/app/credentials/credentials.json" then inr Sample.credentials_text
       else inl (Error ("ENOENT: no such file or directory, open '" +:+ path +:+ "'"));
     clock := clock Sample.env;
     events_list := events_list Sample.env;
     events_insert := events_insert Sample.env;
     events_get := events_get Sample.env;
     events_update := events_update Sample.env;
     events_delete := events_delete Sample.env;
     calendarList_list := calendarList_list Sample.env |}.

(** [Sample.env] with a token file that is put in place only after the
    first two external calls of the process. *)
Definition sample_env_late_token : Env :=
  {| env_CREDENTIALS_PATH := None;
     env_TOKEN_PATH := None;
     fs_readFile := fun h path =>
       if String.eqb path "/app/credentials/credentials.json" then inr Sample.credentials_text
       else if String.eqb path "/app/credentials/token.json" && (2 <=? length h)%nat
            then inr Sample.token_text
       else inl (Error ("ENOENT: no such file or directory, open '" +:+ path +:+ "'"));
     clock := clock Sample.env;
     events_list := events_list Sample.env;
     events_insert := events_insert Sample.env;
     events_get := events_get Sample.env;
     events_update := events_update Sample.env;
     events_delete := events_delete Sample.env;
     calendarList_list := calendarList_list Sample.env |}.

(** The world after a failed initialisation in [sample_env_no_token]. *)
Definition sample_unauthenticated : World := {| auth := None; trace := sample_reads |}.

(** The bodies and parameters of the remote calls of the sample requests
    below. *)
Definition sample_insert_body : Event :=
  {| ev_id := Undefined;
     ev_summary := Str "Team Sync";
     ev_description := Undefined;
     ev_location := Str "Room 4";
     ev_start := Some {| date := Undefined; dateTime := Str "2025-11-27T14:00:00.000Z";
                         timeZone := Str "UTC" |};
     ev_end := Some {| date := Undefined; dateTime := Str "2025-11-27T15:00:00.000Z";
                       timeZone := Str "UTC" |};
     ev_status := Undefined;
     ev_htmlLink := Undefined;
     ev_attendees := Some [ {| email := Str "ana@example.org"; responseStatus := Undefined |};
                            {| email := Str "bo@example.org"; responseStatus := Undefined |};
                            {| email := Str ""; responseStatus := Undefined |} ];
     ev_conferenceData := None |}.

Definition sample_update_body : Event :=
  {| ev_id := Undefined;
     ev_summary := Str "Renamed";
     ev_description := Str "";
     ev_location := Str "";
     ev_start := Some {| date := Undefined; dateTime := Str "2025-11-28T09:00:00.000Z";
                         timeZone := Str "UTC" |};
     ev_end := Some {| date := Undefined; dateTime := Str "2025-11-27T15:00:00Z";
                       timeZone := Str "UTC" |};
     ev_status := Undefined;
     ev_htmlLink := Undefined;
     ev_attendees := None;
     ev_conferenceData := None |}.

(** The list call [listEvents] sends in the fresh world when only [timeMin]
    is supplied, as 2025-11-27T14:00:00. *)
Definition sample_list_params_since : ListParams :=
  {| lp_calendarId := "primary"; lp_q := None; lp_maxResults := 10;
     lp_singleEvents := true; lp_orderBy := "startTime";
     lp_timeMin := Some "2025-11-27T14:00:00.000Z"; lp_timeMax := None |}.

Definition sample_search_params : ListParams :=
  {| lp_calendarId := "primary"; lp_q := Some "sync"; lp_maxResults := 10;
     lp_singleEvents := true; lp_orderBy := "startTime";
     lp_timeMin := None; lp_timeMax := None |}.

Definition sample_calendar : CalendarListEntry :=
  {| cal_id := Str "primary"; cal_summary := Str "Work"; cal_description := Undefined;
     cal_primary := true; cal_accessRole := Str "owner" |}.

(** ** Process start-up ([main] of [src/index.ts])

    The calls [main] makes are the two accessibility checks and the
    connection of the transport; what they answer is given by a [Host], as
    a function of the calls made before. Log lines are not modelled. *)

Module Startup.

Inductive Step :=
| FsAccess (path : string)
| ServerConnect.

(** How [main] leaves the process: exited with a status, or serving. *)
Inductive Outcome :=
| Exited (status : Z)
| Serving.

Record Host := {
  fs_access : list Step -> string -> Exn + unit;
  server_connect : list Step -> Exn + unit
}.

(** [main], with the [catch] of [main().catch(...)] around it. *)
Definition main (E : Env) (H : Host) : Outcome * list Step :=
  let credentials := FsAccess (CREDENTIALS_PATH E) in
  let token := FsAccess (TOKEN_PATH E) in
  match fs_access H [] (CREDENTIALS_PATH E) with
  | inl _ => (Exited 1, [credentials])
  | inr _ =>
      match fs_access H [credentials] (TOKEN_PATH E) with
      | inl _ => (Exited 1, [credentials; token])
      | inr _ =>
          match server_connect H [credentials; token] with
          | inl _ => (Exited 1, [credentials; token; ServerConnect])
          | inr _ => (Serving, [credentials; token; ServerConnect])
          end
      end
  end.

End Startup.

(** ** The authentication set-up script ([src/auth.ts]) *)

Module AuthSetup.

Definition SCOPES : list string := ["https://www.googleapis.com/auth/calendar"].

Definition CREDENTIALS_PATH (E : Env) : string :=
  match env_CREDENTIALS_PATH E with
  | Some p => if nonempty p then p else "./credentials.json"
  | None => "./credentials.json"
  end.

Definition TOKEN_PATH (E : Env) : string :=
  match env_TOKEN_PATH E with
  | Some p => if nonempty p then p else "./token.json"
  | None => "./token.json"
  end.

(** What the script reads off the client [authenticate] returns. [None] is
    [undefined]. *)
Record Authenticated := {
  clientId : option json;
  clientSecret : option json;
  refresh_token : option json;
  access_token : option json;
  expiry_date : option json
}.

Inductive Step :=
| FsAccess (path : string)
| Authenticate (keyfilePath : string) (scopes : list string)
| FsWriteFile (path : string) (data : string).

Inductive Outcome :=
| Exited (status : Z)
| Completed.

(** [JSON_stringify] is [JSON.stringify(value, null, 2)] on an object given
    by its properties in order. *)
Record Host := {
  fs_access : list Step -> string -> Exn + unit;
  authenticate : list Step -> string -> list string -> Exn + Authenticated;
  fs_writeFile : list Step -> string -> string -> Exn + unit;
  JSON_stringify : list (string * option json) -> string
}.

Definition tokenData (auth : Authenticated) : list (string * option json) :=
  [ ("type", Some (JString "authorized_user"));
    ("client_id", clientId auth);
    ("client_secret", clientSecret auth);
    ("refresh_token", refresh_token auth);
    ("access_token", access_token auth);
    ("expiry_date", expiry_date auth) ].

Definition main (E : Env) (H : Host) : Outcome * list Step :=
  let check := FsAccess (CREDENTIALS_PATH E) in
  let flow := Authenticate (CREDENTIALS_PATH E) SCOPES in
  match fs_access H [] (CREDENTIALS_PATH E) with
  | inl _ => (Exited 1, [check])
  | inr _ =>
      match authenticate H [check] (CREDENTIALS_PATH E) SCOPES with
      | inl _ => (Exited 1, [check; flow])
      | inr auth =>
          let data := JSON_stringify H (tokenData auth) in
          let write := FsWriteFile (TOKEN_PATH E) data in
          match fs_writeFile H [check; flow] (TOKEN_PATH E) data with
          | inl _ => (Exited 1, [check; flow; write])
          | inr _ => (Completed, [check; flow; write])
          end
      end
  end.

End AuthSetup.

(** * Properties *)

(** ** The runtime helpers and the sample on concrete inputs *)

Example trim_ex1 : Js.trim "  evt 1 " = "evt 1".
Proof. reflexivity. Qed.
Example trim_ex2 : Js.trim (" " +:+ Js.LF +:+ Js.bytes ["226"; "128"; "168"; "009"]%char) = "".
Proof. reflexivity. Qed.
Example parseInt_ex1 : Js.parseInt "10" = Some (Finite 10).
Proof. reflexivity. Qed.
Example parseInt_ex2 : Js.parseInt "  -0x1F rest" = Some (Finite (-31)).
Proof. reflexivity. Qed.
Example parseInt_ex3 : Js.parseInt "ten" = None.
Proof. reflexivity. Qed.
Example parseInt_ex4 :
  Js.parseInt "0" = Some (Finite 0) /\ Js.parseInt "-0" = Some (Finite 0)
  /\ Js.parseInt "12px" = Some (Finite 12).
Proof. repeat split; reflexivity. Qed.

Example parseInt_ex5 :
  Js.parseInt "9007199254740993" = Some (Finite 9007199254740992)
  /\ Js.parseInt "9007199254740995" = Some (Finite 9007199254740996)
  /\ Js.parseInt "-9007199254740993" = Some (Finite (-9007199254740992))
  /\ Js.parseInt "100000000000000000000000" = Some (Finite 99999999999999991611392).
Proof. repeat split; vm_compute; reflexivity. Qed.

Example to_double_ex :
  Js.to_double (2 ^ 53 - 1) = Finite (2 ^ 53 - 1)
  /\ Js.to_double (2 ^ 1024 - 2 ^ 970 - 1) = Finite (2 ^ 1024 - 2 ^ 971)
  /\ Js.to_double (2 ^ 1024 - 2 ^ 970) = Infinity false
  /\ Js.to_double (- 10 ^ 309) = Infinity true.
Proof. repeat split; vm_compute; reflexivity. Qed.
Example split_ex : Js.split_comma "a@x.org, b@y.org,," = ["a@x.org"; " b@y.org"; ""; "" ].
Proof. reflexivity. Qed.
Example sample_parse_ex : Sample.parse "2025-11-27T14:00:00" = Some 1764252000000.
Proof. reflexivity. Qed.
Example sample_iso_ex : Sample.toISOString 1764252000000 = "2025-11-27T14:00:00.000Z".
Proof. reflexivity. Qed.
Example sample_parse_bad : Sample.parse "next tuesday" = None /\ Sample.parse "2025-02-30T10:00:00" = None.
Proof. split; reflexivity. Qed.

Example create_event_ex :
  fst (callTool Sample.runtime Sample.env "create_event"
         (Some (list_to_map [("summary", "Team Sync"); ("start", "2025-11-27T14:00:00");
                             ("end", "2025-11-27T15:00:00"); ("attendees", "ana@example.org, bo@example.org")]))
         Sample.fresh)
  = inr {| content :=
             [TextContent
                ("✅ Event created successfully!" +:+ Js.LF +:+ Js.LF +:+
                 "📍 Team Sync" +:+ Js.LF +:+
                 "   ID: evt2" +:+ Js.LF +:+
                 "   Start: 2025-11-27T14:00:00.000Z" +:+ Js.LF +:+
                 "   End: 2025-11-27T15:00:00.000Z" +:+ Js.LF +:+
                 "   Link: https://calendar.example/evt2")];
           isError := false |}.
Proof. vm_compute. reflexivity. Qed.

Example get_event_ex :
  fst (callTool Sample.runtime Sample.env "get_event"
         (Some {[ "eventId" := "evt1" ]}) Sample.fresh)
  = inr {| content :=
             [TextContent
                ("📍 Team Sync" +:+ Js.LF +:+ Js.LF +:+
                 "ID: evt1" +:+ Js.LF +:+
                 "Start: 2025-11-27T14:00:00Z" +:+ Js.LF +:+
                 "End: 2025-11-27T15:00:00Z" +:+ Js.LF +:+
                 "Status: confirmed" +:+ Js.LF +:+
                 "Description: Quarterly planning" +:+ Js.LF +:+
                 "Location: Room 4" +:+ Js.LF +:+ Js.LF +:+
                 "Attendees:" +:+ Js.LF +:+
                 "  - ana@example.org (accepted)" +:+ Js.LF +:+
                 "  - bo@example.org (no response)" +:+ Js.LF +:+ Js.LF +:+
                 "Link: https://calendar.example/evt1")];
           isError := false |}.
Proof. vm_compute. reflexivity. Qed.

Example get_event_missing_ex :
  callTool Sample.runtime Sample.env "get_event" (Some {[ "eventId" := "nope" ]})
    sample_authenticated
  = (inr {| content := [TextContent "❌ Error: Not Found"]; isError := false |},
     {| auth := Some sample_client;
        trace := sample_reads ++ [EventsGet "primary" "nope"] |}).
Proof. vm_compute. reflexivity. Qed.

Section Properties.

Variable R : Runtime.
Variable E : Env.

(** ** Traces *)

Lemma issued_extend w a h : issued w {| auth := a; trace := trace w ++ h |} = h.
Proof. unfold issued; simpl. apply drop_app_length. Qed.

Lemma issued_same w : issued w w = [].
Proof. unfold issued. apply drop_all. Qed.

Lemma issued_auth w a : issued w {| auth := a; trace := trace w |} = [].
Proof. unfold issued; simpl. apply drop_all. Qed.

Lemma remote_calls_app h1 h2 : remote_calls (h1 ++ h2) = remote_calls h1 ++ remote_calls h2.
Proof. unfold remote_calls. apply filter_app. Qed.

Lemma file_reads_no_list h p : file_reads_only h -> EventsList p ∉ h.
Proof.
  unfold file_reads_only, remote_calls. intros Hf Hin.
  assert (Hm : EventsList p ∈ filter (fun c => is_remote c = true) h)
    by (apply list_elem_of_filter; split; [reflexivity | exact Hin]).
  rewrite Hf in Hm. inversion Hm.
Qed.

(** ** Validation *)

Lemma validateRequired_blank value name :
  blank (Some value) -> validateRequired (Some value) name = inl (Error (name +:+ " is required")).
Proof.
  unfold blank, validateRequired; simpl. intros ->.
  rewrite orb_true_r. reflexivity.
Qed.

Lemma validateRequired_not_blank value name :
  ~ blank (Some value) -> validateRequired (Some value) name = inr (Js.trim value).
Proof.
  unfold blank, validateRequired, nonempty; simpl. intros Hnb.
  destruct (String.eqb_spec (Js.trim value) "") as [Heq | _]; [contradiction |].
  destruct (String.eqb_spec value "") as [-> | _]; [exfalso; apply Hnb; reflexivity |].
  reflexivity.
Qed.

Lemma blank_dec value : {blank value} + {~ blank value}.
Proof. unfold blank. apply String.string_dec. Qed.

(** ** Authentication *)

(** Case analysis on an innermost scrutinee of the goal. *)
Ltac case_step :=
  match goal with
  | |- context [match ?x with _ => _ end] =>
      lazymatch x with
      | context [match _ with _ => _ end] => fail
      | _ => destruct x eqn:?
      end
  end.

Ltac run := unfold try_catch, bind, lift, external, ret, throw; cbv beta iota.

Ltac run_all := repeat (case_step; cbv beta iota); cbn [auth trace fst snd].

Lemma initializeAuth_outcome w : auth_outcome E w (initializeAuth R E w).
Proof.
  unfold initializeAuth. destruct (auth w) as [a |] eqn:Ha.
  - apply auth_cached. exact Ha.
  - unfold fs_readFile_utf8, set_auth. run. run_all.
    all: rewrite <- ?app_assoc; cbn [app]; rewrite ?Ha.
    all: first [ apply auth_loaded; exact Ha | apply auth_failed; [exact Ha | auto] ].
Qed.

(** [getCalendar] either fails with the fixed message or yields a handle
    that is now cached; in both cases it makes file reads only. *)
Lemma getCalendar_run w :
  exists reads, file_reads_only reads /\
    (getCalendar R E w = (inl auth_init_error, {| auth := auth w; trace := trace w ++ reads |})
     \/ exists a, getCalendar R E w = (inr a, {| auth := Some a; trace := trace w ++ reads |})).
Proof.
  unfold getCalendar. run.
  destruct (initializeAuth_outcome w) as [a Ha | a Ha | reads Ha Hr].
  - exists []. split; [reflexivity |]. right. exists a.
    rewrite app_nil_r, <- Ha. destruct w; reflexivity.
  - eexists. split; [| right; eexists; reflexivity]. reflexivity.
  - exists reads. split; [destruct Hr; subst; reflexivity |]. left. rewrite Ha. reflexivity.
Qed.

(** ** Computations that never drop the cached handle *)

Lemma keeps_ret {A} (x : A) : keeps_auth (ret x).
Proof. intros w a H. exact H. Qed.

Lemma keeps_throw {A} e : keeps_auth (@throw A e).
Proof. intros w a H. exact H. Qed.

Lemma keeps_lift {A} (r : Exn + A) : keeps_auth (lift r).
Proof. intros w a H. exact H. Qed.

Lemma keeps_external {A} c (answer : History -> Exn + A) : keeps_auth (external c answer).
Proof. intros w a H. exact H. Qed.

Lemma keeps_now : keeps_auth (now_toISOString R E).
Proof. intros w a H. exact H. Qed.

Lemma keeps_bind {A B} (m : M A) (k : A -> M B) :
  keeps_auth m -> (forall x, keeps_auth (k x)) -> keeps_auth (bind m k).
Proof.
  intros Hm Hk w a H. unfold bind. specialize (Hm w a H).
  destruct (m w) as [[e | x] w1]; simpl in *; [exact Hm | apply Hk; exact Hm].
Qed.

Lemma keeps_try_catch {A} (m : M A) (h : Exn -> M A) :
  keeps_auth m -> (forall e, keeps_auth (h e)) -> keeps_auth (try_catch m h).
Proof.
  intros Hm Hh w a H. unfold try_catch. specialize (Hm w a H).
  destruct (m w) as [[e | x] w1]; simpl in *; [apply Hh; exact Hm | exact Hm].
Qed.

Lemma keeps_initializeAuth : keeps_auth (initializeAuth R E).
Proof.
  intros w a H. destruct (initializeAuth_outcome w) as [a' Ha | a' Ha | reads Ha Hr];
    simpl; congruence.
Qed.

Lemma keeps_getCalendar : keeps_auth (getCalendar R E).
Proof. apply keeps_bind; [apply keeps_initializeAuth | intros; apply keeps_ret]. Qed.

Create HintDb keeps discriminated.
#[local] Hint Resolve keeps_ret keeps_throw keeps_lift keeps_external keeps_now
  keeps_initializeAuth keeps_getCalendar : keeps.

Ltac keeps :=
  repeat first
    [ apply keeps_try_catch | apply keeps_bind
    | match goal with
      | |- forall _, _ => intro
      | |- keeps_auth (if ?b then _ else _) => destruct b
      end
    | solve [auto with keeps] ].

Lemma keeps_gateway name args : keeps_auth (dispatch (gateway R E) name args).
Proof.
  unfold dispatch, gateway; cbn [gw_listEvents gw_createEvent gw_updateEvent gw_deleteEvent
    gw_searchEvents gw_listCalendars gw_getEvent].
  unfold listEvents, createEvent, updateEvent, deleteEvent, searchEvents, listCalendars,
    getEvent, calendar_events_list, calendar_events_insert, calendar_events_get,
    calendar_events_update, calendar_events_delete, calendar_calendarList_list.
  keeps.
Qed.

Lemma keeps_callTool name args : keeps_auth (callTool R E name args).
Proof.
  unfold callTool, handler. keeps. apply keeps_gateway.
Qed.

(** ** Memoisation of the OAuth2 client *)

(** Calls handled one after another. A call that succeeds from an empty
    cache reads the credentials file and the token file, once each, and
    caches the handle it built. From then on every call returns that same
    handle and changes nothing (so it reads no file), however many times it
    is repeated, and no tool call ever empties the cache. *)
Lemma initializeAuth_sequential w a w1 :
  initializeAuth R E w = (inr a, w1) ->
  (auth w = None ->
     issued w w1 = [FsReadFile (CREDENTIALS_PATH E); FsReadFile (TOKEN_PATH E)])
  /\ (auth w <> None -> w1 = w)
  /\ auth w1 = Some a
  /\ (forall w2, auth w2 = Some a -> initializeAuth R E w2 = (inr a, w2))
  /\ (forall n, Nat.iter n (fun w' => snd (initializeAuth R E w')) w1 = w1)
  /\ (forall name args w2, auth w2 = Some a -> auth (snd (callTool R E name args w2)) = Some a).
Proof.
  intros Hrun.
  assert (Hcached : forall w2, auth w2 = Some a -> initializeAuth R E w2 = (inr a, w2)).
  { intros w2 H2. unfold initializeAuth. rewrite H2. reflexivity. }
  assert (Hw1 : auth w1 = Some a).
  { pose proof (initializeAuth_outcome w) as Ho. rewrite Hrun in Ho.
    inversion Ho; subst; [assumption | reflexivity]. }
  repeat split.
  - intros Hnone. pose proof (initializeAuth_outcome w) as Ho. rewrite Hrun in Ho.
    inversion Ho; subst; [congruence | apply issued_extend].
  - intros Hsome. pose proof (initializeAuth_outcome w) as Ho. rewrite Hrun in Ho.
    inversion Ho; subst; [reflexivity | contradiction].
  - exact Hw1.
  - exact Hcached.
  - induction n as [| n IH]; simpl; [reflexivity |].
    rewrite IH, (Hcached w1 Hw1). reflexivity.
  - intros name args w2 H2. apply keeps_callTool. exact H2.
Qed.

(** *** Calls that overlap *)

(** A call that is begun and resumed twice with nothing in between is the
    call handled in one piece. *)
Lemma initializeAuth_by_steps w :
  let (p1, w1) := initializeAuth_resume R E (initializeAuth_begin w) w in
  initializeAuth_resume R E p1 w1
  = (Settled (fst (initializeAuth R E w)), snd (initializeAuth R E w)).
Proof.
  unfold initializeAuth_begin, initializeAuth. destruct (auth w) as [a |] eqn:Ha.
  - reflexivity.
  - unfold initializeAuth_resume, fs_readFile_utf8, set_auth. run.
    destruct (fs_readFile E (trace w) (CREDENTIALS_PATH E)) as [e | content];
      [reflexivity |].
    destruct (JSON_parse R content) as [e | document]; [reflexivity |].
    cbn [trace]. run_all; reflexivity.
Qed.

(** Resuming a call never empties the cache. *)
Lemma initializeAuth_resume_keeps p w :
  auth w <> None -> auth (snd (initializeAuth_resume R E p w)) <> None.
Proof.
  intros Hw. destruct p as [| document | r]; [| | exact Hw];
    unfold initializeAuth_resume, fs_readFile_utf8, set_auth; run; run_all;
    first [exact Hw | discriminate].
Qed.

Lemma process_step_keeps P ev :
  auth (shared P) <> None -> auth (shared (process_step R E P ev)) <> None.
Proof.
  intros HP. destruct ev as [| i | c]; cbn [process_step shared auth]; [exact HP | | exact HP].
  destruct (calls P !! i) as [p |]; [| exact HP].
  pose proof (initializeAuth_resume_keeps p (shared P) HP) as Hkeep.
  destruct (initializeAuth_resume R E p (shared P)) as [p' w']. exact Hkeep.
Qed.

Lemma process_run_keeps events P :
  auth (shared P) <> None -> auth (shared (process_run R E events P)) <> None.
Proof.
  revert P. induction events as [| ev events IH]; intros P HP; [exact HP |].
  apply IH, process_step_keeps, HP.
Qed.

Lemma elsewhere_cons ev events : elsewhere (ev :: events) = elsewhere [ev] ++ elsewhere events.
Proof. unfold elsewhere. cbn [flat_map]. rewrite app_nil_r. reflexivity. Qed.

(** With a handle cached and no call in flight, nothing that happens next
    makes [initializeAuth] read a file or return another handle. *)
Lemma process_step_quiescent a P ev :
  auth (shared P) = Some a ->
  Forall (fun p => is_settled p = true) (calls P) ->
  auth (shared (process_step R E P ev)) = Some a
  /\ Forall (fun p => is_settled p = true) (calls (process_step R E P ev))
  /\ trace (shared (process_step R E P ev)) = trace (shared P) ++ elsewhere [ev]
  /\ exists n, calls (process_step R E P ev) = calls P ++ replicate n (Settled (inr a)).
Proof.
  intros Ha Hall. destruct ev as [| i | c]; cbn [process_step].
  - unfold initializeAuth_begin. rewrite Ha. cbn [shared calls elsewhere flat_map app].
    split; [exact Ha | split; [| split; [rewrite app_nil_r; reflexivity |]]].
    + apply Forall_app. split; [exact Hall | repeat constructor].
    + exists 1%nat. reflexivity.
  - destruct (calls P !! i) as [p |] eqn:Hp.
    + pose proof (Forall_lookup_1 _ _ _ _ Hall Hp) as Hset.
      destruct p as [| document | r]; try discriminate Hset.
      cbn [initializeAuth_resume shared calls elsewhere flat_map app].
      rewrite (list_insert_id _ _ _ Hp), !app_nil_r.
      split; [exact Ha | split; [exact Hall | split; [reflexivity |]]].
      exists 0%nat. cbn [replicate]. rewrite app_nil_r. reflexivity.
    + cbn [elsewhere flat_map app]. rewrite !app_nil_r.
      split; [exact Ha | split; [exact Hall | split; [reflexivity |]]].
      exists 0%nat. cbn [replicate]. rewrite app_nil_r. reflexivity.
  - cbn [shared calls auth trace elsewhere flat_map app].
    split; [exact Ha | split; [exact Hall | split; [reflexivity |]]].
    exists 0%nat. cbn [replicate]. rewrite app_nil_r. reflexivity.
Qed.

Lemma process_run_quiescent a events P :
  auth (shared P) = Some a ->
  Forall (fun p => is_settled p = true) (calls P) ->
  auth (shared (process_run R E events P)) = Some a
  /\ trace (shared (process_run R E events P)) = trace (shared P) ++ elsewhere events
  /\ exists n, calls (process_run R E events P) = calls P ++ replicate n (Settled (inr a)).
Proof.
  revert P. induction events as [| ev events IH]; intros P Ha Hall.
  - cbn [process_run fold_left elsewhere flat_map]. rewrite app_nil_r.
    split; [exact Ha | split; [reflexivity |]].
    exists 0%nat. cbn [replicate]. rewrite app_nil_r. reflexivity.
  - destruct (process_step_quiescent a P ev Ha Hall) as (Ha1 & Hall1 & Htrace1 & n1 & Hcalls1).
    destruct (IH _ Ha1 Hall1) as (Ha' & Htrace' & n' & Hcalls').
    change (process_run R E (ev :: events) P)
      with (process_run R E events (process_step R E P ev)).
    split; [exact Ha' | split].
    + rewrite Htrace', Htrace1, <- app_assoc, <- elsewhere_cons. reflexivity.
    + exists (n1 + n')%nat. rewrite Hcalls', Hcalls1, <- app_assoc, replicate_add. reflexivity.
Qed.

(** A call that starts and is resumed twice with nothing in between. *)
Lemma process_run_alone P :
  process_run R E [Invoke; Resume (length (calls P)); Resume (length (calls P))] P
  = {| shared := snd (initializeAuth R E (shared P));
       calls := calls P ++ [Settled (fst (initializeAuth R E (shared P)))] |}.
Proof.
  pose proof (initializeAuth_by_steps (shared P)) as Hsteps.
  unfold process_run. cbn [fold_left process_step shared calls].
  rewrite lookup_app_r by lia. rewrite Nat.sub_diag. cbn [lookup list_lookup].
  destruct (initializeAuth_resume R E (initializeAuth_begin (shared P)) (shared P))
    as [p1 w1].
  cbn [shared calls].
  rewrite insert_app_r_alt by lia. rewrite Nat.sub_diag. cbn [insert list_insert].
  rewrite lookup_app_r by lia. rewrite Nat.sub_diag. cbn [lookup list_lookup].
  rewrite Hsteps.
  rewrite insert_app_r_alt by lia. rewrite Nat.sub_diag. reflexivity.
Qed.


(** ** Validation comes before any external call *)

Lemma rejected_intro name w : rejected name w (inr (formatError (Error (name +:+ " is required"))), w).
Proof. split; [reflexivity |]. simpl. rewrite issued_same. reflexivity. Qed.

Lemma blank_default value : blank value -> blank (Some (default "" value)).
Proof. unfold blank. simpl. auto. Qed.

Lemma not_blank_default value : ~ blank value -> ~ blank (Some (default "" value)).
Proof. unfold blank. simpl. auto. Qed.

(** C3. An operation whose required textual input is missing, empty, or
    empty after trimming returns the validation failure report for that
    input and makes no remote call (it makes no external call at all):
    [eventId] for [updateEvent], [deleteEvent] and [getEvent], [query] for
    [searchEvents], and the first blank one of [summary], [start], [end]
    for [createEvent]. *)
Theorem required_inputs_validated w :
  (forall eventId summary start end_ description location calendarId,
      blank eventId ->
      rejected "eventId" w
        (updateEvent R E eventId summary start end_ description location calendarId w))
  /\ (forall eventId calendarId,
        blank eventId -> rejected "eventId" w (deleteEvent R E eventId calendarId w))
  /\ (forall eventId calendarId,
        blank eventId -> rejected "eventId" w (getEvent R E eventId calendarId w))
  /\ (forall query maxResults calendarId,
        blank query -> rejected "query" w (searchEvents R E query maxResults calendarId w))
  /\ (forall summary start end_ description location attendees calendarId,
        blank summary \/ blank start \/ blank end_ ->
        exists name, name ∈ ["summary"; "start"; "end"] /\
          rejected name w
            (createEvent R E summary start end_ description location attendees calendarId w)).
Proof.
  split; [| split; [| split; [| split]]].
  - intros eventId summary start end_ description location calendarId Hb.
    unfold updateEvent. run.
    rewrite (validateRequired_blank _ _ (blank_default _ Hb)). apply rejected_intro.
  - intros eventId calendarId Hb. unfold deleteEvent. run.
    rewrite (validateRequired_blank _ _ (blank_default _ Hb)). apply rejected_intro.
  - intros eventId calendarId Hb. unfold getEvent. run.
    rewrite (validateRequired_blank _ _ (blank_default _ Hb)). apply rejected_intro.
  - intros query maxResults calendarId Hb. unfold searchEvents. run.
    rewrite (validateRequired_blank _ _ (blank_default _ Hb)). apply rejected_intro.
  - intros summary start end_ description location attendees calendarId Hb.
    unfold createEvent. run.
    destruct (blank_dec summary) as [Hs | Hs].
    { exists "summary". split; [repeat constructor |].
      rewrite (validateRequired_blank _ _ (blank_default _ Hs)). apply rejected_intro. }
    rewrite (validateRequired_not_blank _ "summary" (not_blank_default _ Hs)).
    destruct (blank_dec start) as [Ht | Ht].
    { exists "start". split; [repeat constructor |].
      rewrite (validateRequired_blank _ _ (blank_default _ Ht)). apply rejected_intro. }
    rewrite (validateRequired_not_blank _ "start" (not_blank_default _ Ht)).
    destruct Hb as [Hb | [Hb | Hb]]; try contradiction.
    exists "end". split; [repeat constructor |].
    rewrite (validateRequired_blank _ _ (blank_default _ Hb)). apply rejected_intro.
Qed.

(** ** Date conversion failures in [createEvent] *)

Lemma invalid_date s : Date_parse R s = None -> new_Date_toISOString R s = inl (Error "Invalid time value").
Proof. unfold new_Date_toISOString. intros ->. reflexivity. Qed.

(** C10. When [summary], [start] and [end] are not blank but [start] or
    [end] is not a valid date, [createEvent] returns a failure report that
    begins with the error glyph and prefix (the message is that of the date
    conversion, or that of a failed authentication, which comes first), and
    no remote call is made: in particular no insert. *)
Theorem createEvent_invalid_date
  summary start end_ description location attendees calendarId w :
  ~ blank summary -> ~ blank start -> ~ blank end_ ->
  Date_parse R (default "" start) = None \/ Date_parse R (default "" end_) = None ->
  let r := createEvent R E summary start end_ description location attendees calendarId w in
  (exists message,
      fst r = inr ("❌ Error: " +:+ message)
      /\ (message = "Invalid time value"
          \/ Error message = auth_init_error))
  /\ remote_calls (issued w (snd r)) = [].
Proof.
  intros Hs Ht He Hbad. unfold createEvent. run.
  rewrite (validateRequired_not_blank _ "summary" (not_blank_default _ Hs)).
  rewrite (validateRequired_not_blank _ "start" (not_blank_default _ Ht)).
  rewrite (validateRequired_not_blank _ "end" (not_blank_default _ He)).
  cbv beta iota.
  destruct (getCalendar_run w) as (reads & Hreads & [Hg | [a Hg]]); rewrite Hg; cbv beta iota.
  - cbn [fst snd]. rewrite issued_extend. split; [| exact Hreads].
    eexists. split; [reflexivity | right; reflexivity].
  - destruct Hbad as [Hbad | Hbad].
    + rewrite (invalid_date _ Hbad). cbn [fst snd formatError]. rewrite issued_extend.
      split; [| exact Hreads]. eexists. split; [reflexivity | left; reflexivity].
    + destruct (new_Date_toISOString R (default "" start)) as [e | iso] eqn:Hstart.
      * unfold new_Date_toISOString in Hstart.
        destruct (Date_parse R (default "" start)); [discriminate |].
        inversion Hstart; subst. cbn [fst snd formatError]. rewrite issued_extend.
        split; [| exact Hreads]. eexists. split; [reflexivity | left; reflexivity].
      * rewrite (invalid_date _ Hbad). cbn [fst snd formatError]. rewrite issued_extend.
        split; [| exact Hreads]. eexists. split; [reflexivity | left; reflexivity].
Qed.

(** ** Defaults of the list and search operations *)

Lemma absent_nonempty value : absent value -> nonempty (default "" value) = false.
Proof. unfold absent. intros ->. reflexivity. Qed.

Lemma maxResultsNum_fallback s :
  Js.parseInt s = None \/ Js.parseInt s = Some (Finite 0) -> maxResultsNum s = 10.
Proof. unfold maxResultsNum. intros [-> | ->]; reflexivity. Qed.

Lemma maxResultsNum_omitted : maxResultsNum (default "10" None) = 10.
Proof. reflexivity. Qed.

(** A list call at the end of what was issued, after file reads only, is
    the call the operation sent. *)
Lemma issued_list_call w a reads p0 pre p :
  file_reads_only reads ->
  issued w {| auth := a; trace := (trace w ++ reads) ++ [EventsList p0] |} = pre ++ [EventsList p] ->
  pre = reads /\ p = p0.
Proof.
  intros _ H. rewrite <- app_assoc, issued_extend in H.
  apply app_inj_tail in H. destruct H as [-> H]. inversion H. auto.
Qed.

Lemma issued_no_list_call w a reads pre p :
  file_reads_only reads ->
  issued w {| auth := a; trace := trace w ++ reads |} <> pre ++ [EventsList p].
Proof.
  intros Hr H. rewrite issued_extend in H.
  apply (file_reads_no_list reads p Hr). rewrite H. apply elem_of_app. right. constructor.
Qed.

Ltac list_call_cases Hreads :=
  run_all; intros Hiss;
  first
    [ exfalso; exact (issued_no_list_call _ _ _ _ _ Hreads Hiss)
    | apply (issued_list_call _ _ _ _ _ _ Hreads) in Hiss; destruct Hiss as [-> ->] ].

(** When authentication succeeds, [getCalendar] yields the handle, now
    cached, after file reads only. *)
Lemma getCalendar_authenticates w :
  authenticates R E w ->
  exists reads a,
    file_reads_only reads
    /\ getCalendar R E w = (inr a, {| auth := Some a; trace := trace w ++ reads |}).
Proof.
  intros (a0 & w0 & Hok).
  destruct (getCalendar_run w) as (reads & Hreads & [Hg | [a Hg]]).
  - exfalso. revert Hg. unfold getCalendar. run. rewrite Hok. discriminate.
  - exists reads, a. split; assumption.
Qed.

Lemma not_supplied_invalid value :
  ~ supplied_invalid R value ->
  nonempty (default "" value) = false
  \/ exists iso, new_Date_toISOString R (default "" value) = inr iso.
Proof.
  intros Hok. unfold supplied_invalid in Hok.
  destruct (nonempty (default "" value)); [right | left; reflexivity].
  unfold new_Date_toISOString.
  destruct (Date_parse R (default "" value)); [eexists; reflexivity |].
  exfalso. apply Hok. split; reflexivity.
Qed.

(** With authentication succeeding and no time bound that is supplied and
    invalid, [listEvents] does send its list call, after file reads only. *)
Lemma listEvents_sends maxResults calendarId timeMin timeMax w :
  authenticates R E w ->
  ~ supplied_invalid R timeMin -> ~ supplied_invalid R timeMax ->
  exists pre p,
    file_reads_only pre
    /\ issued w (snd (listEvents R E maxResults calendarId timeMin timeMax w))
       = pre ++ [EventsList p].
Proof.
  intros Hauth Hmin Hmax.
  destruct (getCalendar_authenticates w Hauth) as (reads & a & Hreads & Hg).
  exists reads.
  unfold listEvents. run. rewrite Hg. cbv beta iota.
  unfold now_toISOString, calendar_events_list. run.
  destruct (not_supplied_invalid _ Hmin) as [-> | [isomin ->]];
    [| destruct (nonempty (default "" timeMin))];
    (destruct (not_supplied_invalid _ Hmax) as [-> | [isomax ->]];
     [| destruct (nonempty (default "" timeMax))]);
    cbv beta iota; run_all;
    (eexists; split; [exact Hreads |]);
    rewrite <- app_assoc, issued_extend; reflexivity.
Qed.

(** With authentication succeeding and a query that is not blank,
    [searchEvents] does send its list call, after file reads only. *)
Lemma searchEvents_sends query maxResults calendarId w :
  authenticates R E w ->
  ~ blank query ->
  exists pre p,
    file_reads_only pre
    /\ issued w (snd (searchEvents R E query maxResults calendarId w)) = pre ++ [EventsList p].
Proof.
  intros Hauth Hq.
  destruct (getCalendar_authenticates w Hauth) as (reads & a & Hreads & Hg).
  exists reads.
  unfold searchEvents. run.
  rewrite (validateRequired_not_blank _ "query" (not_blank_default _ Hq)). cbv beta iota.
  rewrite Hg. cbv beta iota. unfold calendar_events_list. run. run_all;
    (eexists; split; [exact Hreads |]);
    rewrite <- app_assoc, issued_extend; reflexivity.
Qed.

(** The parameters of the list call [listEvents] sends. *)
Lemma listEvents_params maxResults calendarId timeMin timeMax w pre p :
  issued w (snd (listEvents R E maxResults calendarId timeMin timeMax w)) = pre ++ [EventsList p] ->
  (absent timeMin -> lp_timeMin p = Some (Date_toISOString R (clock E (trace w ++ pre))))
  /\ lp_maxResults p = maxResultsNum (default "10" maxResults)
  /\ (absent timeMax -> lp_timeMax p = None).
Proof.
  unfold listEvents. run. unfold now_toISOString, calendar_events_list. run.
  destruct (getCalendar_run w) as (reads & Hreads & [Hg | [a Hg]]); rewrite Hg; cbv beta iota.
  - cbn [snd]. intros Hiss. exfalso. exact (issued_no_list_call _ _ _ _ _ Hreads Hiss).
  - cbn [trace auth].
    destruct (nonempty (default "" timeMin)) eqn:Hmin;
      destruct (nonempty (default "" timeMax)) eqn:Hmax; cbv beta iota;
      list_call_cases Hreads; cbn [lp_timeMin lp_maxResults lp_timeMax];
      (split; [intros Habs; first [ reflexivity
                                  | rewrite (absent_nonempty _ Habs) in Hmin; discriminate ]
              | split; [reflexivity
                       | intros Habs; first [ reflexivity
                                            | rewrite (absent_nonempty _ Habs) in Hmax;
                                              discriminate ] ] ]).
Qed.

(** C6. For every call of [listEvents]: the list call it sends carries, when
    [timeMin] is absent, the current time as [timeMin], read when the
    parameters are built (no external call lies between that reading and
    the list call); its [maxResults] is 10 when the argument is omitted or
    does not parse as a number; and it carries no [timeMax] when [timeMax]
    is absent. Each default holds whatever the other arguments are. The
    list call is sent whenever authentication succeeds and no time bound is
    supplied that is not a date. *)
Theorem listEvents_defaults maxResults calendarId timeMin timeMax w :
  (forall pre p,
      issued w (snd (listEvents R E maxResults calendarId timeMin timeMax w))
        = pre ++ [EventsList p] ->
      (absent timeMin -> lp_timeMin p = Some (Date_toISOString R (clock E (trace w ++ pre))))
      /\ (maxResults = None \/ Js.parseInt (default "10" maxResults) = None ->
          lp_maxResults p = 10)
      /\ (absent timeMax -> lp_timeMax p = None))
  /\ (authenticates R E w ->
      ~ supplied_invalid R timeMin -> ~ supplied_invalid R timeMax ->
      exists pre p,
        file_reads_only pre
        /\ issued w (snd (listEvents R E maxResults calendarId timeMin timeMax w))
           = pre ++ [EventsList p]).
Proof.
  split.
  - intros pre p Hiss.
    destruct (listEvents_params _ _ _ _ _ _ _ Hiss) as (Hmin & Hlimit & Hmax).
    split; [exact Hmin | split; [| exact Hmax]].
    rewrite Hlimit. intros [-> | Hnan]; [reflexivity |].
    apply maxResultsNum_fallback. left. exact Hnan.
  - apply listEvents_sends.
Qed.

(** The limit [searchEvents] sends is [maxResultsNum] of the argument. *)
Lemma searchEvents_limit query maxResults calendarId w pre p :
  issued w (snd (searchEvents R E query maxResults calendarId w)) = pre ++ [EventsList p] ->
  lp_maxResults p = maxResultsNum (default "10" maxResults).
Proof.
  unfold searchEvents. run. unfold calendar_events_list. run.
  destruct (validateRequired (Some (default "" query)) "query") as [e | q]; cbv beta iota.
  - cbn [snd]. rewrite issued_same. intros Hiss. destruct pre; discriminate.
  - destruct (getCalendar_run w) as (reads & Hreads & [Hg | [a Hg]]); rewrite Hg; cbv beta iota.
    + cbn [snd]. intros Hiss. exfalso. exact (issued_no_list_call _ _ _ _ _ Hreads Hiss).
    + cbn [trace auth]. list_call_cases Hreads; reflexivity.
Qed.

(** The operations use [maxResults] through [maxResultsNum] only. *)
Lemma listEvents_same_limit m1 m2 calendarId timeMin timeMax w :
  maxResultsNum (default "10" m1) = maxResultsNum (default "10" m2) ->
  listEvents R E m1 calendarId timeMin timeMax w = listEvents R E m2 calendarId timeMin timeMax w.
Proof. intros Heq. unfold listEvents. cbv zeta. rewrite Heq. reflexivity. Qed.

Lemma searchEvents_same_limit query m1 m2 calendarId w :
  maxResultsNum (default "10" m1) = maxResultsNum (default "10" m2) ->
  searchEvents R E query m1 calendarId w = searchEvents R E query m2 calendarId w.
Proof. intros Heq. unfold searchEvents. cbv zeta. rewrite Heq. reflexivity. Qed.

(** C9. A [maxResults] argument that parses to zero is treated like one that
    does not parse. For [listEvents] and for [searchEvents] alike: the call
    is the same, in result and effects, as with an argument that does not
    parse; any list call sent carries the default limit 10, not 0; and the
    list call is sent, with limit 10, whenever authentication succeeds and
    the other arguments are valid. *)
Theorem maxResults_zero_falls_back maxResults :
  Js.parseInt maxResults = Some (Finite 0) ->
  (forall calendarId timeMin timeMax w,
      (forall other,
          Js.parseInt other = None ->
          listEvents R E (Some maxResults) calendarId timeMin timeMax w
          = listEvents R E (Some other) calendarId timeMin timeMax w)
      /\ (forall pre p,
            issued w (snd (listEvents R E (Some maxResults) calendarId timeMin timeMax w))
              = pre ++ [EventsList p] ->
            lp_maxResults p = 10 /\ lp_maxResults p <> 0)
      /\ (authenticates R E w ->
          ~ supplied_invalid R timeMin -> ~ supplied_invalid R timeMax ->
          exists pre p,
            issued w (snd (listEvents R E (Some maxResults) calendarId timeMin timeMax w))
              = pre ++ [EventsList p]
            /\ lp_maxResults p = 10))
  /\ (forall query calendarId w,
        (forall other,
            Js.parseInt other = None ->
            searchEvents R E query (Some maxResults) calendarId w
            = searchEvents R E query (Some other) calendarId w)
        /\ (forall pre p,
              issued w (snd (searchEvents R E query (Some maxResults) calendarId w))
                = pre ++ [EventsList p] ->
              lp_maxResults p = 10 /\ lp_maxResults p <> 0)
        /\ (authenticates R E w ->
            ~ blank query ->
            exists pre p,
              issued w (snd (searchEvents R E query (Some maxResults) calendarId w))
                = pre ++ [EventsList p]
              /\ lp_maxResults p = 10)).
Proof.
  intros Hzero.
  assert (Hnum : maxResultsNum (default "10" (Some maxResults)) = 10)
    by (apply maxResultsNum_fallback; right; exact Hzero).
  assert (Hother : forall other, Js.parseInt other = None ->
                     maxResultsNum (default "10" (Some maxResults))
                     = maxResultsNum (default "10" (Some other))).
  { intros other Hnan. rewrite Hnum. symmetry. apply maxResultsNum_fallback. left. exact Hnan. }
  split.
  - intros calendarId timeMin timeMax w.
    assert (Hlimit : forall pre p,
               issued w (snd (listEvents R E (Some maxResults) calendarId timeMin timeMax w))
                 = pre ++ [EventsList p] -> lp_maxResults p = 10).
    { intros pre p Hiss. destruct (listEvents_params _ _ _ _ _ _ _ Hiss) as (_ & -> & _).
      exact Hnum. }
    split; [| split].
    + intros other Hnan. apply listEvents_same_limit, Hother, Hnan.
    + intros pre p Hiss. rewrite (Hlimit pre p Hiss). split; [reflexivity | discriminate].
    + intros Hauth Hmin Hmax.
      destruct (listEvents_sends (Some maxResults) calendarId timeMin timeMax w Hauth Hmin Hmax)
        as (pre & p & _ & Hiss).
      exists pre, p. split; [exact Hiss | exact (Hlimit pre p Hiss)].
  - intros query calendarId w.
    assert (Hlimit : forall pre p,
               issued w (snd (searchEvents R E query (Some maxResults) calendarId w))
                 = pre ++ [EventsList p] -> lp_maxResults p = 10).
    { intros pre p Hiss. rewrite (searchEvents_limit _ _ _ _ _ _ Hiss). exact Hnum. }
    split; [| split].
    + intros other Hnan. apply searchEvents_same_limit, Hother, Hnan.
    + intros pre p Hiss. rewrite (Hlimit pre p Hiss). split; [reflexivity | discriminate].
    + intros Hauth Hq.
      destruct (searchEvents_sends query (Some maxResults) calendarId w Hauth Hq)
        as (pre & p & _ & Hiss).
      exists pre, p. split; [exact Hiss | exact (Hlimit pre p Hiss)].
Qed.

(** ** [getEvent] *)

(** [getEvent] with a valid [eventId]: authenticate, make one get call, and
    report its answer. *)
Lemma getEvent_unfold eventId calendarId w :
  ~ blank eventId ->
  getEvent R E eventId calendarId w =
    match initializeAuth R E w with
    | (inl error, w1) => (inr (formatError error), w1)
    | (inr a, w1) =>
        (inr (getEvent_report
                (events_get E (trace w1) a (default "primary" calendarId) (default "" eventId))),
         logged (EventsGet (default "primary" calendarId) (default "" eventId)) w1)
    end.
Proof.
  intros Hnb. unfold getEvent, getCalendar, calendar_events_get, logged, getEvent_report. run.
  rewrite (validateRequired_not_blank _ "eventId" (not_blank_default _ Hnb)). cbv beta iota.
  destruct (initializeAuth R E w) as [[e | a] w1]; [reflexivity |].
  destruct (events_get E (trace w1) a _ _); reflexivity.
Qed.

Lemma getEvent_blank eventId calendarId w :
  blank eventId ->
  getEvent R E eventId calendarId w = (inr (formatError (Error "eventId is required")), w).
Proof.
  intros Hb. unfold getEvent. run.
  rewrite (validateRequired_blank _ _ (blank_default _ Hb)). reflexivity.
Qed.

(** Whether authentication succeeds, and with which handle, depends on the
    two files only. *)
Lemma initializeAuth_same_files w w' :
  auth w = None -> auth w' = None ->
  fs_readFile E (trace w') (CREDENTIALS_PATH E) = fs_readFile E (trace w) (CREDENTIALS_PATH E) ->
  fs_readFile E (trace w' ++ [FsReadFile (CREDENTIALS_PATH E)]) (TOKEN_PATH E)
    = fs_readFile E (trace w ++ [FsReadFile (CREDENTIALS_PATH E)]) (TOKEN_PATH E) ->
  fst (initializeAuth R E w') = fst (initializeAuth R E w).
Proof.
  intros Ha Ha' Hc Ht. unfold initializeAuth. rewrite Ha, Ha'.
  unfold fs_readFile_utf8, set_auth. run. cbn [trace]. rewrite Hc, Ht.
  run_all; reflexivity.
Qed.


(** ** The dispatcher *)

Lemma try_catch_returns {A} (m : M A) (f : Exn -> A) :
  returns (try_catch m (fun error => ret (f error))).
Proof.
  intros w. unfold try_catch, ret. destruct (m w) as [[e | a] w']; eauto.
Qed.

(** Each of the seven tool implementations catches its own failures. *)
Lemma gateway_returns name args :
  name ∈ TOOL_NAMES -> returns (dispatch (gateway R E) name args).
Proof.
  unfold TOOL_NAMES. rewrite !elem_of_cons.
  intros [-> | [-> | [-> | [-> | [-> | [-> | [-> | H]]]]]]]; [.. | inversion H];
    apply try_catch_returns.
Qed.

Lemma dispatch_unknown G name args :
  name ∉ TOOL_NAMES -> dispatch G name args = throw (Error ("Unknown tool: " +:+ name)).
Proof.
  intros Hn. unfold dispatch.
  repeat match goal with
         | |- context [String.eqb name ?s] =>
             destruct (String.eqb_spec name s) as [-> | _];
             [exfalso; apply Hn; unfold TOOL_NAMES; repeat constructor |]
         end.
  reflexivity.
Qed.

Lemma handler_returned G name args w text w' :
  dispatch G name args w = (inr text, w') ->
  handler G name args w = (inr {| content := [TextContent text]; isError := false |}, w').
Proof. intros H. unfold handler. run. rewrite H. reflexivity. Qed.

Lemma handler_raised G name args w e w' :
  dispatch G name args w = (inl e, w') ->
  handler G name args w = (inr {| content := [TextContent (formatError e)]; isError := true |}, w').
Proof. intros H. unfold handler. run. rewrite H. reflexivity. Qed.

(** C4. For each of the seven tool names and any argument mapping,
    [callTool] does not raise: it returns a result made of one text block,
    with or without the error flag. *)
Theorem callTool_never_raises name args w :
  name ∈ TOOL_NAMES ->
  exists text flag w',
    callTool R E name args w = (inr {| content := [TextContent text]; isError := flag |}, w').
Proof.
  intros Hname. unfold callTool.
  destruct (gateway_returns name args Hname w) as (text & w' & Hrun).
  exists text, false, w'. apply handler_returned. exact Hrun.
Qed.

(** C5. For a name that is not one of the seven, [callTool] returns the
    error report for the unknown tool, with the error flag set, and does
    nothing else. It is the only failure the dispatcher makes itself: for
    the seven names it hands over to the gateway operation and returns the
    text of that operation without the flag. *)
Theorem unknown_tool_only_dispatcher_failure name args w :
  (name ∉ TOOL_NAMES ->
     callTool R E name args w =
       (inr {| content := [TextContent ("❌ Error: " +:+ ("Unknown tool: " +:+ name))];
               isError := true |}, w))
  /\ (name ∈ TOOL_NAMES ->
        exists text w',
          dispatch (gateway R E) name args w = (inr text, w')
          /\ callTool R E name args w =
               (inr {| content := [TextContent text]; isError := false |}, w')).
Proof.
  split.
  - intros Hn. unfold callTool.
    apply (handler_raised _ _ _ _ (Error ("Unknown tool: " +:+ name))).
    rewrite (dispatch_unknown _ _ _ Hn). reflexivity.
  - intros Hname. destruct (gateway_returns name args Hname w) as (text & w' & Hrun).
    exists text, w'. split; [exact Hrun |]. apply handler_returned. exact Hrun.
Qed.

(** C2, as the code has it. For a recognised tool name the result carries
    the text the gateway operation returned, whatever it says, and the
    error flag is not set; the flag is set when the gateway call raises
    instead of returning, and then the text is the formatted error. The
    seven operations of this server always return, so for them the flag
    stays unset. *)
Theorem error_flag_set_only_on_raise (G : Gateway) name args w :
  name ∈ TOOL_NAMES ->
  (forall text w',
      dispatch G name args w = (inr text, w') ->
      handler G name args w = (inr {| content := [TextContent text]; isError := false |}, w'))
  /\ (forall e w',
        dispatch G name args w = (inl e, w') ->
        handler G name args w =
          (inr {| content := [TextContent (formatError e)]; isError := true |}, w'))
  /\ (exists text w',
        callTool R E name args w = (inr {| content := [TextContent text]; isError := false |}, w')).
Proof.
  intros Hname. split; [| split].
  - intros text w'. apply handler_returned.
  - intros e w'. apply handler_raised.
  - destruct (gateway_returns name args Hname w) as (text & w' & Hrun).
    exists text, w'. apply handler_returned. exact Hrun.
Qed.

(** ** The request body of [updateEvent] *)

Lemma issued_tail w a h pre c :
  issued w {| auth := a; trace := trace w ++ h |} = pre ++ [c] -> h = pre ++ [c].
Proof. rewrite issued_extend. auto. Qed.

Lemma file_reads_last reads pre c :
  file_reads_only reads -> reads = pre ++ [c] -> is_remote c = false.
Proof.
  unfold file_reads_only. intros Hr ->. rewrite remote_calls_app in Hr.
  apply app_eq_nil in Hr. destruct Hr as [_ Hr]. unfold remote_calls in Hr. simpl in Hr.
  destruct c; simpl in *; first [reflexivity | discriminate].
Qed.

(** What [updateEvent] puts in the body of the update call it sends: the
    call follows a get call for the same event; [summary], [start] and
    [end] keep the value the get call returned when the argument is absent;
    [description] and [location] are always the argument, an absent one
    being the empty string. *)
Lemma updateEvent_request
  eventId summary start end_ description location calendarId w pre cid eid body :
  issued w (snd (updateEvent R E eventId summary start end_ description location calendarId w))
    = pre ++ [EventsUpdate cid eid body] ->
  exists reads a existing,
    file_reads_only reads
    /\ pre = reads ++ [EventsGet cid eid]
    /\ events_get E (trace w ++ reads) a cid eid = inr existing
    /\ (absent summary -> ev_summary body = ev_summary existing)
    /\ (absent start -> ev_start body = ev_start existing)
    /\ (absent end_ -> ev_end body = ev_end existing)
    /\ ev_description body = Str (default "" description)
    /\ ev_location body = Str (default "" location).
Proof.
  unfold updateEvent. run. unfold calendar_events_get, calendar_events_update. run.
  destruct (validateRequired (Some (default "" eventId)) "eventId") as [e | id']; cbv beta iota.
  { cbn [snd]. rewrite issued_same. intros Hiss. destruct pre; discriminate. }
  destruct (getCalendar_run w) as (reads & Hreads & [Hg | [a Hg]]); rewrite Hg; cbv beta iota.
  { cbn [snd]. intros Hiss. apply issued_tail in Hiss.
    pose proof (file_reads_last _ _ _ Hreads Hiss). discriminate. }
  cbn [trace auth].
  destruct (events_get E (trace w ++ reads) a (default "primary" calendarId) (default "" eventId))
    as [e | existing] eqn:Hget; cbv beta iota.
  { cbn [snd]. rewrite <- app_assoc. intros Hiss. apply issued_tail in Hiss.
    apply app_inj_tail in Hiss. destruct Hiss; discriminate. }
  run_all; rewrite <- ?app_assoc; intros Hiss; apply issued_tail in Hiss;
    rewrite ?app_assoc in Hiss; apply app_inj_tail in Hiss; destruct Hiss as [Hpre Hcall];
    try discriminate; inversion Hcall; subst; clear Hcall;
    exists reads, a, existing; cbn [ev_summary ev_start ev_end ev_description ev_location];
    repeat split; try reflexivity; try assumption;
    intros Habs; apply absent_nonempty in Habs; congruence.
Qed.

(** The handler adds no external call of its own. *)
Lemma handler_world G name args w :
  snd (handler G name args w) = snd (dispatch G name args w).
Proof.
  unfold handler. run. destruct (dispatch G name args w) as [[e | text] w']; reflexivity.
Qed.

(** An [update_event] call that supplies only [eventId]: the body of the
    update call keeps [summary], [start] and [end] of the event as the get
    call returned it, and carries an empty [description] and an empty
    [location]. *)
Lemma update_event_only_eventId eventId w pre cid eid body :
  issued w (snd (callTool R E "update_event" (Some {[ "eventId" := eventId ]}) w))
    = pre ++ [EventsUpdate cid eid body] ->
  ev_description body = Str "" /\ ev_location body = Str ""
  /\ exists reads a existing,
       pre = reads ++ [EventsGet cid eid]
       /\ events_get E (trace w ++ reads) a cid eid = inr existing
       /\ ev_summary body = ev_summary existing
       /\ ev_start body = ev_start existing
       /\ ev_end body = ev_end existing.
Proof.
  unfold callTool. rewrite handler_world.
  unfold dispatch, gateway; cbn [String.eqb Ascii.eqb Bool.eqb gw_updateEvent].
  assert (Harg : forall key, key <> "eventId" ->
            arg (Some ({[ "eventId" := eventId ]} : gmap string string)) key "" = "").
  { intros key Hk. unfold arg. simpl. rewrite lookup_singleton_ne by congruence. reflexivity. }
  rewrite (Harg "summary"), (Harg "start"), (Harg "end"), (Harg "description"),
    (Harg "location") by (intros ?; discriminate).
  intros Hiss. apply updateEvent_request in Hiss.
  destruct Hiss as (reads & a & existing & _ & Hpre & Hget & Hs & Ht & He & Hd & Hl).
  split; [exact Hd | split; [exact Hl |]].
  exists reads, a, existing.
  split; [exact Hpre | split; [exact Hget |]].
  split; [apply Hs; reflexivity | split; [apply Ht; reflexivity | apply He; reflexivity]].
Qed.

(** ** The tool list and the dispatcher *)

Lemma TOOLS_names : map tool_name TOOLS = TOOL_NAMES.
Proof. reflexivity. Qed.

(** X1. The tools [listTools] announces are exactly the names the
    dispatcher handles: a name is listed if and only if [callTool] answers
    it, for all arguments and in every world, with an unflagged result. *)
Theorem listed_iff_dispatched name :
  name ∈ map tool_name TOOLS <->
  forall args w, exists text w',
    callTool R E name args w = (inr {| content := [TextContent text]; isError := false |}, w').
Proof.
  rewrite TOOLS_names. split.
  - intros Hname args w. unfold callTool.
    destruct (gateway_returns name args Hname w) as (text & w' & Hrun).
    exists text, w'. apply handler_returned. exact Hrun.
  - intros Hall. destruct (decide (name ∈ TOOL_NAMES)) as [Hin | Hout]; [exact Hin |].
    destruct (Hall None {| auth := None; trace := [] |}) as (text & w' & Hrun).
    unfold callTool in Hrun.
    rewrite (handler_raised _ name None _ (Error ("Unknown tool: " +:+ name))
               {| auth := None; trace := [] |}) in Hrun
      by (rewrite (dispatch_unknown _ _ _ Hout); reflexivity).
    discriminate Hrun.
Qed.

Lemma arg_agree (m1 m2 : gmap string string) key fallback :
  m1 !! key = m2 !! key -> arg (Some m1) key fallback = arg (Some m2) key fallback.
Proof. unfold arg. simpl. intros ->. reflexivity. Qed.

(** X2. A tool call depends only on the parameters its schema declares:
    two argument mappings that agree on the declared parameters of a listed
    tool give the same result and the same external calls. *)
Theorem undeclared_arguments_ignored t (m1 m2 : gmap string string) w :
  t ∈ TOOLS ->
  (forall key, key ∈ declared t -> m1 !! key = m2 !! key) ->
  callTool R E (tool_name t) (Some m1) w = callTool R E (tool_name t) (Some m2) w.
Proof.
  unfold TOOLS. rewrite !elem_of_cons, elem_of_nil.
  intros [-> | [-> | [-> | [-> | [-> | [-> | [-> | []]]]]]]] Hagree;
    unfold callTool, handler, dispatch;
    cbn [tool_name String.eqb Ascii.eqb Bool.eqb];
    repeat match goal with
           | |- context [arg (Some m1) ?key ?fallback] =>
               rewrite (arg_agree m1 m2 key fallback)
                 by (apply Hagree; unfold declared; simpl; repeat constructor)
           end;
    reflexivity.
Qed.

Lemma dispatch_ext G name args1 args2 :
  (forall key fallback, arg args1 key fallback = arg args2 key fallback) ->
  dispatch G name args1 = dispatch G name args2.
Proof. intros Hargs. unfold dispatch. rewrite !Hargs. reflexivity. Qed.

(** X3. The dispatcher cannot tell an argument that is the empty string
    from one that is missing, nor a request without [arguments] from one
    with an empty mapping: in each case the tool call is the same. *)
Theorem empty_argument_is_omitted name key (m : gmap string string) w :
  callTool R E name (Some (<[key := ""]> m)) w = callTool R E name (Some (delete key m)) w
  /\ callTool R E name None w = callTool R E name (Some ∅) w.
Proof.
  unfold callTool, handler. split.
  - rewrite (dispatch_ext _ name (Some (<[key := ""]> m)) (Some (delete key m))); [reflexivity |].
    intros key' fallback. unfold arg. simpl.
    destruct (decide (key = key')) as [-> | Hne].
    + rewrite lookup_insert_eq, lookup_delete_eq. reflexivity.
    + rewrite lookup_insert_ne, lookup_delete_ne by assumption. reflexivity.
  - rewrite (dispatch_ext _ name None (Some ∅)); [reflexivity |].
    intros key' fallback. unfold arg. simpl. rewrite lookup_empty. reflexivity.
Qed.

(** X4. The parameters a schema declares mandatory are the ones the
    operations validate: when a mandatory parameter of a listed tool is
    missing or blank in the arguments, [callTool] returns, unflagged, the
    validation failure for a blank mandatory parameter of that tool, and
    makes no external call. *)
Theorem schema_required_is_validated t args w :
  t ∈ TOOLS ->
  (exists p, p ∈ required t /\ blank (Some (arg args p ""))) ->
  exists q,
    q ∈ required t /\ blank (Some (arg args q ""))
    /\ callTool R E (tool_name t) args w
       = (inr {| content := [TextContent ("❌ Error: " +:+ q +:+ " is required")];
                 isError := false |}, w).
Proof.
  unfold TOOLS. rewrite !elem_of_cons, elem_of_nil.
  intros [-> | [-> | [-> | [-> | [-> | [-> | [-> | []]]]]]]] (p & Hp & Hblank);
    unfold required in *; simpl in Hp;
    rewrite ?elem_of_cons, ?elem_of_nil in Hp.
  - destruct Hp.
  - (* create_event *)
    assert (Hsome : blank (Some (arg args "summary" "")) \/ blank (Some (arg args "start" ""))
                    \/ blank (Some (arg args "end" "")))
      by (destruct Hp as [-> | [-> | [-> | []]]]; auto).
    clear p Hp Hblank.
    destruct (blank_dec (Some (arg args "summary" ""))) as [Hs | Hs].
    { exists "summary". split; [simpl; repeat constructor | split; [exact Hs |]].
      unfold callTool. apply handler_returned.
      unfold dispatch, gateway; cbn [String.eqb Ascii.eqb Bool.eqb gw_createEvent].
      unfold createEvent. run. cbn [from_option id]. rewrite (validateRequired_blank _ _ Hs). reflexivity. }
    destruct (blank_dec (Some (arg args "start" ""))) as [Ht | Ht].
    { exists "start". split; [simpl; repeat constructor | split; [exact Ht |]].
      unfold callTool. apply handler_returned.
      unfold dispatch, gateway; cbn [String.eqb Ascii.eqb Bool.eqb gw_createEvent].
      unfold createEvent. run. cbn [from_option id].
      rewrite (validateRequired_not_blank _ "summary" Hs), (validateRequired_blank _ _ Ht).
      reflexivity. }
    destruct Hsome as [He | [He | He]]; try contradiction.
    exists "end". split; [simpl; repeat constructor | split; [exact He |]].
    unfold callTool. apply handler_returned.
    unfold dispatch, gateway; cbn [String.eqb Ascii.eqb Bool.eqb gw_createEvent].
    unfold createEvent. run. cbn [from_option id].
    rewrite (validateRequired_not_blank _ "summary" Hs), (validateRequired_not_blank _ "start" Ht),
      (validateRequired_blank _ _ He).
    reflexivity.
  - (* update_event *)
    destruct Hp as [-> | []]. exists "eventId". split; [simpl; repeat constructor | split; [exact Hblank |]].
    unfold callTool. apply handler_returned.
    unfold dispatch, gateway; cbn [String.eqb Ascii.eqb Bool.eqb gw_updateEvent].
    unfold updateEvent. run. cbn [from_option id]. rewrite (validateRequired_blank _ _ Hblank). reflexivity.
  - (* delete_event *)
    destruct Hp as [-> | []]. exists "eventId". split; [simpl; repeat constructor | split; [exact Hblank |]].
    unfold callTool. apply handler_returned.
    unfold dispatch, gateway; cbn [String.eqb Ascii.eqb Bool.eqb gw_deleteEvent].
    unfold deleteEvent. run. cbn [from_option id]. rewrite (validateRequired_blank _ _ Hblank). reflexivity.
  - (* search_events *)
    destruct Hp as [-> | []]. exists "query". split; [simpl; repeat constructor | split; [exact Hblank |]].
    unfold callTool. apply handler_returned.
    unfold dispatch, gateway; cbn [String.eqb Ascii.eqb Bool.eqb gw_searchEvents].
    unfold searchEvents. run. cbn [from_option id]. rewrite (validateRequired_blank _ _ Hblank). reflexivity.
  - destruct Hp.
  - (* get_event *)
    destruct Hp as [-> | []]. exists "eventId". split; [simpl; repeat constructor | split; [exact Hblank |]].
    unfold callTool. apply handler_returned.
    unfold dispatch, gateway; cbn [String.eqb Ascii.eqb Bool.eqb gw_getEvent].
    unfold getEvent. run. cbn [from_option id]. rewrite (validateRequired_blank _ _ Hblank). reflexivity.
Qed.

(** ** How many external calls a tool call makes *)

Lemma getCalendar_cases w :
  exists reads,
    file_reads_only reads /\ (length reads <= 2)%nat /\ (auth w <> None -> reads = [])
    /\ (getCalendar R E w = (inl auth_init_error, {| auth := auth w; trace := trace w ++ reads |})
        \/ exists a, getCalendar R E w = (inr a, {| auth := Some a; trace := trace w ++ reads |})).
Proof.
  unfold getCalendar. run.
  destruct (initializeAuth_outcome w) as [a Ha | a Ha | reads Ha Hr].
  - exists []. split; [reflexivity |]. split; [simpl; lia |]. split; [reflexivity |].
    right. exists a. rewrite app_nil_r, <- Ha. destruct w; reflexivity.
  - eexists. split; [| split; [| split; [congruence |]]]; [| | right; eexists; reflexivity].
    + reflexivity.
    + simpl. lia.
  - exists reads. split; [destruct Hr; subst; reflexivity |].
    split; [destruct Hr; subst; simpl; lia |]. split; [congruence |].
    left. rewrite Ha. reflexivity.
Qed.

Section Budget.

Variables (k : nat) (w : World) (reads : History).
Hypothesis Hreads : file_reads_only reads.
Hypothesis Hlen : (length reads <= 2)%nat.
Hypothesis Hcached : auth w <> None -> reads = [].

Lemma budget_none a : call_budget k w {| auth := a; trace := trace w ++ reads |}.
Proof.
  exists reads, []. rewrite issued_extend, app_nil_r.
  repeat split; auto. simpl. lia.
Qed.

Lemma budget_one a c :
  is_remote c = true -> (1 <= k)%nat ->
  call_budget k w {| auth := a; trace := (trace w ++ reads) ++ [c] |}.
Proof.
  intros Hc Hk. exists reads, [c]. rewrite <- app_assoc, issued_extend.
  repeat split; auto.
Qed.

Lemma budget_two a c1 c2 :
  is_remote c1 = true -> is_remote c2 = true -> (2 <= k)%nat ->
  call_budget k w {| auth := a; trace := ((trace w ++ reads) ++ [c1]) ++ [c2] |}.
Proof.
  intros H1 H2 Hk. exists reads, [c1; c2]. rewrite <- !app_assoc, issued_extend.
  repeat split; auto.
Qed.

End Budget.

Lemma budget_same k w : call_budget k w w.
Proof.
  exists [], []. rewrite issued_same.
  split; [reflexivity |]. split; [reflexivity |]. split; [simpl; lia |].
  split; [reflexivity |]. split; [constructor | simpl; lia].
Qed.

Ltac budget_leaf Hreads Hlen Hcached :=
  cbn [fst snd];
  first
    [ apply budget_same
    | apply (budget_none _ _ _ Hreads Hlen Hcached)
    | apply (budget_one _ _ _ Hreads Hlen Hcached); [reflexivity | lia]
    | apply (budget_two _ _ _ Hreads Hlen Hcached); [reflexivity | reflexivity | lia] ].

Ltac budget_op :=
  run;
  repeat match goal with
         | |- context [validateRequired ?v ?n] => destruct (validateRequired v n); cbv beta iota
         end;
  try apply budget_same;
  match goal with
  | |- context [getCalendar R E ?w] =>
      let reads := fresh "reads" in
      let Hreads := fresh "Hreads" in
      let Hlen := fresh "Hlen" in
      let Hcached := fresh "Hcached" in
      let Hg := fresh "Hg" in
      let a := fresh "a" in
      destruct (getCalendar_cases w) as (reads & Hreads & Hlen & Hcached & [Hg | [a Hg]]);
      rewrite Hg; cbv beta iota; cbn [trace auth];
      run_all; budget_leaf Hreads Hlen Hcached
  end.

Lemma listEvents_budget maxResults calendarId timeMin timeMax w :
  call_budget 1 w (snd (listEvents R E maxResults calendarId timeMin timeMax w)).
Proof. unfold listEvents, now_toISOString, calendar_events_list. budget_op. Qed.

Lemma createEvent_budget summary start end_ description location attendees calendarId w :
  call_budget 1 w
    (snd (createEvent R E summary start end_ description location attendees calendarId w)).
Proof. unfold createEvent, calendar_events_insert. budget_op. Qed.

Lemma updateEvent_budget eventId summary start end_ description location calendarId w :
  call_budget 2 w
    (snd (updateEvent R E eventId summary start end_ description location calendarId w)).
Proof. unfold updateEvent, calendar_events_get, calendar_events_update. budget_op. Qed.

Lemma deleteEvent_budget eventId calendarId w :
  call_budget 1 w (snd (deleteEvent R E eventId calendarId w)).
Proof. unfold deleteEvent, calendar_events_delete. budget_op. Qed.

Lemma searchEvents_budget query maxResults calendarId w :
  call_budget 1 w (snd (searchEvents R E query maxResults calendarId w)).
Proof. unfold searchEvents, calendar_events_list. budget_op. Qed.

Lemma listCalendars_budget w : call_budget 1 w (snd (listCalendars R E w)).
Proof. unfold listCalendars, calendar_calendarList_list. budget_op. Qed.

Lemma getEvent_budget eventId calendarId w :
  call_budget 1 w (snd (getEvent R E eventId calendarId w)).
Proof. unfold getEvent, calendar_events_get. budget_op. Qed.

Lemma call_budget_weaken k k' w w' : (k <= k')%nat -> call_budget k w w' -> call_budget k' w w'.
Proof.
  intros Hk (reads & calls & H1 & H2 & H3 & H4 & H5 & H6).
  exists reads, calls. repeat split; auto. lia.
Qed.

Lemma callTool_budget name args w :
  call_budget (if String.eqb name "update_event" then 2 else 1) w
    (snd (callTool R E name args w)).
Proof.
  unfold callTool. rewrite handler_world. unfold dispatch.
  repeat match goal with
         | |- context [if String.eqb name ?s then _ else _] =>
             destruct (String.eqb_spec name s) as [-> | ?]
         end;
    cbn [String.eqb Ascii.eqb Bool.eqb gateway gw_listEvents gw_createEvent gw_updateEvent
           gw_deleteEvent gw_searchEvents gw_listCalendars gw_getEvent];
    first [ apply listEvents_budget | apply createEvent_budget | apply updateEvent_budget
          | apply deleteEvent_budget | apply searchEvents_budget | apply listCalendars_budget
          | apply getEvent_budget | apply budget_same ].
Qed.

(** X5. Whatever the tool name and the arguments, a tool call makes file
    reads only to fill an empty handle cache (at most two, before any remote
    call) and then at most one remote call; only [update_event] may make
    two. *)
Theorem tool_call_budget name args w :
  call_budget (if String.eqb name "update_event" then 2 else 1) w
    (snd (callTool R E name args w)).
Proof. apply callTool_budget. Qed.

(** ** Failed authentication *)

Lemma initializeAuth_failed w e w1 :
  initializeAuth R E w = (inl e, w1) ->
  e = auth_init_error /\ auth w = None
  /\ exists reads,
       w1 = {| auth := None; trace := trace w ++ reads |}
       /\ (reads = [FsReadFile (CREDENTIALS_PATH E)]
           \/ reads = [FsReadFile (CREDENTIALS_PATH E); FsReadFile (TOKEN_PATH E)]).
Proof.
  intros Hrun. pose proof (initializeAuth_outcome w) as Ho. rewrite Hrun in Ho.
  inversion Ho as [| | reads Ha Hreads]; subst. repeat split; auto. exists reads. auto.
Qed.

(** X6. A failed initialisation is not memoised. Whatever went wrong
    (a file that cannot be read, a document that does not parse, a missing
    field), the error is the same fixed one, the cache stays empty, the
    credentials file was read (and the token file at most once), and the
    next call starts over by reading the credentials file again. *)
Theorem failed_initialization_is_retried w e w1 :
  initializeAuth R E w = (inl e, w1) ->
  e = auth_init_error
  /\ auth w1 = None
  /\ (issued w w1 = [FsReadFile (CREDENTIALS_PATH E)]
      \/ issued w w1 = [FsReadFile (CREDENTIALS_PATH E); FsReadFile (TOKEN_PATH E)])
  /\ exists more,
       issued w1 (snd (initializeAuth R E w1)) = FsReadFile (CREDENTIALS_PATH E) :: more.
Proof.
  intros Hrun. destruct (initializeAuth_failed _ _ _ Hrun) as (-> & Ha & reads & -> & Hreads).
  split; [reflexivity |]. split; [reflexivity |]. split.
  - rewrite issued_extend. exact Hreads.
  - set (w1 := {| auth := None; trace := trace w ++ reads |}).
    destruct (initializeAuth_outcome w1) as [a Hc | a Hc | reads' Hc Hr'].
    + discriminate Hc.
    + eexists. cbn [snd]. rewrite issued_extend. reflexivity.
    + cbn [snd]. rewrite issued_extend. destruct Hr' as [-> | ->]; eexists; reflexivity.
Qed.

Lemma getCalendar_failed w e w1 :
  initializeAuth R E w = (inl e, w1) ->
  getCalendar R E w = (inl auth_init_error, w1)
  /\ auth w1 = None /\ remote_calls (issued w w1) = [].
Proof.
  intros Hrun. destruct (initializeAuth_failed _ _ _ Hrun) as (-> & Ha & reads & -> & Hreads).
  unfold getCalendar. run. rewrite Hrun. split; [reflexivity |]. split; [reflexivity |].
  rewrite issued_extend. destruct Hreads as [-> | ->]; reflexivity.
Qed.

Lemma via_dispatch G name args w text (P : World -> Prop) :
  (exists w', dispatch G name args w = (inr text, w') /\ P w') ->
  exists w',
    handler G name args w = (inr {| content := [TextContent text]; isError := false |}, w')
    /\ P w'.
Proof.
  intros (w' & Hrun & HP). exists w'. split; [apply handler_returned; exact Hrun | exact HP].
Qed.

(** X7. When authentication fails, every listed tool whose mandatory
    parameters are supplied returns the same fixed failure report,
    unflagged, makes no remote call, and leaves the cache empty. *)
Theorem authentication_failure_stops_every_tool t args w e w1 :
  t ∈ TOOLS ->
  (forall p, p ∈ required t -> ~ blank (Some (arg args p ""))) ->
  initializeAuth R E w = (inl e, w1) ->
  exists w',
    callTool R E (tool_name t) args w
    = (inr {| content := [TextContent (formatError auth_init_error)]; isError := false |}, w')
    /\ (remote_calls (issued w w') = [] /\ auth w' = None).
Proof.
  unfold TOOLS. rewrite !elem_of_cons, elem_of_nil.
  intros [-> | [-> | [-> | [-> | [-> | [-> | [-> | []]]]]]]] Hreq Hfail;
    unfold required in Hreq; simpl in Hreq;
    unfold callTool;
    apply (via_dispatch _ _ _ _ _
             (fun w' => remote_calls (issued w w') = [] /\ auth w' = None));
    unfold dispatch, gateway;
    cbn [tool_name String.eqb Ascii.eqb Bool.eqb gw_listEvents gw_createEvent gw_updateEvent
           gw_deleteEvent gw_searchEvents gw_listCalendars gw_getEvent];
    unfold listEvents, createEvent, updateEvent, deleteEvent, searchEvents, listCalendars,
      getEvent;
    run; cbn [from_option id];
    repeat match goal with
           | |- context [validateRequired (Some ?v) ?n] =>
               rewrite (validateRequired_not_blank v n) by (apply Hreq; repeat constructor);
               cbv beta iota
           end;
    destruct (getCalendar_failed _ _ _ Hfail) as (Hg & Hnone & Hcalls);
    rewrite Hg; cbv beta iota; exists w1; (split; [reflexivity | split; assumption]).
Qed.

(** ** Invalid dates *)

Lemma new_Date_cases s :
  (exists t, Date_parse R s = Some t /\ new_Date_toISOString R s = inr (Date_toISOString R t))
  \/ (Date_parse R s = None /\ new_Date_toISOString R s = inl (Error "Invalid time value")).
Proof.
  unfold new_Date_toISOString. destruct (Date_parse R s) as [t |]; [left; eauto | right; auto].
Qed.

Lemma remote_calls_reads a w reads :
  file_reads_only reads ->
  remote_calls (issued w {| auth := a; trace := trace w ++ reads |}) = [].
Proof. intros Hr. rewrite issued_extend. exact Hr. Qed.

Lemma remote_calls_reads_then a w reads calls :
  file_reads_only reads ->
  remote_calls (issued w {| auth := a; trace := (trace w ++ reads) ++ calls |}) = remote_calls calls.
Proof.
  intros Hr. rewrite <- app_assoc, issued_extend, remote_calls_app, Hr. reflexivity.
Qed.

Lemma invalid_time_failure : date_or_auth_failure (inr (formatError (Error "Invalid time value"))).
Proof. eexists. split; [reflexivity | left; reflexivity]. Qed.

Lemma auth_failure : date_or_auth_failure (inr (formatError auth_init_error)).
Proof. eexists. split; [reflexivity | right; reflexivity]. Qed.

(** X8. When [timeMin] or [timeMax] is supplied and is not a valid date,
    [listEvents] returns a failure report (of the date conversion, or of the
    authentication, which comes first) and makes no remote call. *)
Theorem listEvents_invalid_time maxResults calendarId timeMin timeMax w :
  supplied_invalid R timeMin \/ supplied_invalid R timeMax ->
  let r := listEvents R E maxResults calendarId timeMin timeMax w in
  date_or_auth_failure (fst r) /\ remote_calls (issued w (snd r)) = [].
Proof.
  intros Hbad. cbv zeta. unfold listEvents, now_toISOString, calendar_events_list. run.
  destruct (getCalendar_run w) as (reads & Hreads & [Hg | [a Hg]]); rewrite Hg; cbv beta iota.
  { cbn [fst snd]. split; [apply auth_failure | apply remote_calls_reads; exact Hreads]. }
  cbn [trace auth].
  assert (Hdone : forall a',
            date_or_auth_failure (inr (formatError (Error "Invalid time value")))
            /\ remote_calls (issued w {| auth := a'; trace := trace w ++ reads |}) = [])
    by (intros a'; split; [apply invalid_time_failure | apply remote_calls_reads; exact Hreads]).
  destruct Hbad as [[Hne Hnone] | [Hne Hnone]].
  - rewrite Hne, (invalid_date _ Hnone). cbv beta iota. cbn [fst snd]. apply Hdone.
  - rewrite Hne, (invalid_date _ Hnone).
    destruct (nonempty (default "" timeMin)); cbv beta iota.
    + destruct (new_Date_cases (default "" timeMin)) as [(t & _ & ->) | (_ & ->)];
        cbv beta iota; cbn [fst snd]; apply Hdone.
    + cbn [fst snd]. apply Hdone.
Qed.

(** X9. When [start] or [end] is supplied and is not a valid date,
    [updateEvent] with a valid [eventId] returns a failure report and sends
    no update: the only remote call it may have made is the get call for
    that event. *)
Theorem updateEvent_invalid_date eventId summary start end_ description location calendarId w :
  ~ blank eventId ->
  supplied_invalid R start \/ supplied_invalid R end_ ->
  let r := updateEvent R E eventId summary start end_ description location calendarId w in
  (exists e, fst r = inr (formatError e))
  /\ (remote_calls (issued w (snd r)) = []
      \/ remote_calls (issued w (snd r))
         = [EventsGet (default "primary" calendarId) (default "" eventId)]).
Proof.
  intros Hnb Hbad. cbv zeta. unfold updateEvent, calendar_events_get, calendar_events_update. run.
  rewrite (validateRequired_not_blank _ "eventId" (not_blank_default _ Hnb)). cbv beta iota.
  destruct (getCalendar_run w) as (reads & Hreads & [Hg | [a Hg]]); rewrite Hg; cbv beta iota.
  { cbn [fst snd]. split; [eexists; reflexivity | left; apply remote_calls_reads; exact Hreads]. }
  cbn [trace auth].
  destruct (events_get E (trace w ++ reads) a _ _) as [e | existing]; cbv beta iota.
  { cbn [fst snd]. split; [eexists; reflexivity |].
    right. rewrite (remote_calls_reads_then _ _ _ _ Hreads). reflexivity. }
  assert (Hdone : forall a',
            (exists e, @inr Exn string (formatError (Error "Invalid time value")) = inr (formatError e))
            /\ (remote_calls
                  (issued w {| auth := a';
                               trace := (trace w ++ reads)
                                        ++ [EventsGet (default "primary" calendarId)
                                              (default "" eventId)] |}) = []
                \/ remote_calls
                     (issued w {| auth := a';
                                  trace := (trace w ++ reads)
                                           ++ [EventsGet (default "primary" calendarId)
                                                 (default "" eventId)] |})
                   = [EventsGet (default "primary" calendarId) (default "" eventId)])).
  { intros a'. split; [eexists; reflexivity |].
    right. rewrite (remote_calls_reads_then _ _ _ _ Hreads). reflexivity. }
  destruct Hbad as [[Hne Hnone] | [Hne Hnone]].
  - rewrite Hne, (invalid_date _ Hnone). cbv beta iota. cbn [fst snd]. apply Hdone.
  - rewrite Hne, (invalid_date _ Hnone).
    destruct (nonempty (default "" start)); cbv beta iota.
    + destruct (new_Date_cases (default "" start)) as [(t & _ & ->) | (_ & ->)];
        cbv beta iota; cbn [fst snd]; apply Hdone.
    + cbn [fst snd]. apply Hdone.
Qed.

(** ** The requests of the event operations *)

Lemma nonempty_false_absent value : nonempty (default "" value) = false -> absent value.
Proof.
  unfold nonempty, absent. destruct (String.eqb_spec (default "" value) ""); [auto | discriminate].
Qed.

Lemma remote_calls_reads_then2 a w reads c1 c2 :
  file_reads_only reads ->
  remote_calls (issued w {| auth := a; trace := ((trace w ++ reads) ++ [c1]) ++ [c2] |})
  = remote_calls [c1; c2].
Proof.
  intros Hr. rewrite <- !app_assoc, issued_extend, remote_calls_app, Hr. reflexivity.
Qed.

(** X10. The body of the update call [updateEvent] sends goes to the
    calendar and event that were supplied; a supplied [summary] replaces the
    stored one, a supplied [start] or [end] is sent as a timed instant in
    UTC; and the body never carries attendees, conference data, an id, a
    status or a link, whatever the stored event has. *)
Theorem updateEvent_supplied_fields
  eventId summary start end_ description location calendarId w pre cid eid body :
  issued w (snd (updateEvent R E eventId summary start end_ description location calendarId w))
    = pre ++ [EventsUpdate cid eid body] ->
  cid = default "primary" calendarId /\ eid = default "" eventId
  /\ (~ absent summary -> ev_summary body = Str (default "" summary))
  /\ (~ absent start ->
        exists iso, new_Date_toISOString R (default "" start) = inr iso
                    /\ ev_start body
                       = Some {| date := Undefined; dateTime := Str iso; timeZone := Str "UTC" |})
  /\ (~ absent end_ ->
        exists iso, new_Date_toISOString R (default "" end_) = inr iso
                    /\ ev_end body
                       = Some {| date := Undefined; dateTime := Str iso; timeZone := Str "UTC" |})
  /\ ev_attendees body = None /\ ev_conferenceData body = None
  /\ ev_id body = Undefined /\ ev_status body = Undefined /\ ev_htmlLink body = Undefined.
Proof.
  unfold updateEvent. run. unfold calendar_events_get, calendar_events_update. run.
  destruct (validateRequired (Some (default "" eventId)) "eventId") as [e | id']; cbv beta iota.
  { cbn [snd]. rewrite issued_same. intros Hiss. destruct pre; discriminate. }
  destruct (getCalendar_run w) as (reads & Hreads & [Hg | [a Hg]]); rewrite Hg; cbv beta iota.
  { cbn [snd]. intros Hiss. apply issued_tail in Hiss.
    pose proof (file_reads_last _ _ _ Hreads Hiss). discriminate. }
  cbn [trace auth].
  destruct (events_get E (trace w ++ reads) a (default "primary" calendarId) (default "" eventId))
    as [e | existing] eqn:Hget; cbv beta iota.
  { cbn [snd]. rewrite <- app_assoc. intros Hiss. apply issued_tail in Hiss.
    apply app_inj_tail in Hiss. destruct Hiss; discriminate. }
  run_all; rewrite <- ?app_assoc; intros Hiss; apply issued_tail in Hiss;
    rewrite ?app_assoc in Hiss; apply app_inj_tail in Hiss; destruct Hiss as [Hpre Hcall];
    try discriminate; inversion Hcall; subst; clear Hcall;
    cbn [ev_summary ev_start ev_end ev_attendees ev_conferenceData ev_id ev_status ev_htmlLink];
    unfold utc;
    repeat split;
    try (intros Hsup;
         first [ reflexivity
               | exfalso; apply Hsup; apply nonempty_false_absent; assumption
               | eexists; split; reflexivity ]).
Qed.

Ltac calls_leaf Hreads :=
  cbn [snd];
  first
    [ rewrite issued_same
    | rewrite (remote_calls_reads _ _ _ Hreads)
    | rewrite (remote_calls_reads_then2 _ _ _ _ _ Hreads)
    | rewrite (remote_calls_reads_then _ _ _ _ Hreads) ];
  auto; eauto.

(** X12. The event operations send the identifiers as they were supplied:
    validation trims [eventId] only to test it, so an identifier with
    surrounding blanks passes and is sent with them. The remote calls each
    operation can make are: for [getEvent] one get call; for [deleteEvent]
    one delete call; for [updateEvent] one get call, alone or followed by
    one update call; all for the supplied calendar and event. *)
Theorem event_operations_send_supplied_ids eventId calendarId w :
  let cid := default "primary" calendarId in
  let eid := default "" eventId in
  (remote_calls (issued w (snd (getEvent R E eventId calendarId w))) = []
   \/ remote_calls (issued w (snd (getEvent R E eventId calendarId w))) = [EventsGet cid eid])
  /\ (remote_calls (issued w (snd (deleteEvent R E eventId calendarId w))) = []
      \/ remote_calls (issued w (snd (deleteEvent R E eventId calendarId w)))
         = [EventsDelete cid eid])
  /\ (forall summary start end_ description location,
        let w' := snd (updateEvent R E eventId summary start end_ description location
                         calendarId w) in
        remote_calls (issued w w') = []
        \/ remote_calls (issued w w') = [EventsGet cid eid]
        \/ exists body, remote_calls (issued w w') = [EventsGet cid eid; EventsUpdate cid eid body]).
Proof.
  cbv zeta. split; [| split].
  - unfold getEvent, calendar_events_get. run.
    destruct (validateRequired _ _); cbv beta iota; [left; cbn [snd]; rewrite issued_same; reflexivity |].
    destruct (getCalendar_run w) as (reads & Hreads & [Hg | [a Hg]]); rewrite Hg; cbv beta iota;
      cbn [trace auth]; run_all; calls_leaf Hreads.
  - unfold deleteEvent, calendar_events_delete. run.
    destruct (validateRequired _ _); cbv beta iota; [left; cbn [snd]; rewrite issued_same; reflexivity |].
    destruct (getCalendar_run w) as (reads & Hreads & [Hg | [a Hg]]); rewrite Hg; cbv beta iota;
      cbn [trace auth]; run_all; calls_leaf Hreads.
  - intros summary start end_ description location.
    unfold updateEvent, calendar_events_get, calendar_events_update. run.
    destruct (validateRequired _ _); cbv beta iota; [left; cbn [snd]; rewrite issued_same; reflexivity |].
    destruct (getCalendar_run w) as (reads & Hreads & [Hg | [a Hg]]); rewrite Hg; cbv beta iota;
      cbn [trace auth]; run_all; calls_leaf Hreads.
Qed.

Lemma split_comma_length s : length (Js.split_comma s) = S (count_commas s).
Proof.
  induction s as [| c r IH]; simpl; [reflexivity |].
  destruct (Ascii.eqb c ","); simpl; [rewrite IH; reflexivity |].
  destruct (Js.split_comma r); simpl in *; [discriminate | exact IH].
Qed.

(** The insert call of [createEvent], in full. *)
Lemma createEvent_body
  summary start end_ description location attendees calendarId w pre cid body :
  issued w (snd (createEvent R E summary start end_ description location attendees calendarId w))
    = pre ++ [EventsInsert cid body] ->
  file_reads_only pre /\ cid = default "primary" calendarId
  /\ ~ blank summary /\ ~ blank start /\ ~ blank end_
  /\ exists startISO endISO,
       new_Date_toISOString R (default "" start) = inr startISO
       /\ new_Date_toISOString R (default "" end_) = inr endISO
       /\ body =
            {| ev_id := Undefined;
               ev_summary := Str (default "" summary);
               ev_description :=
                 if nonempty (default "" description) then Str (default "" description)
                 else Undefined;
               ev_location :=
                 if nonempty (default "" location) then Str (default "" location) else Undefined;
               ev_start := Some (utc startISO);
               ev_end := Some (utc endISO);
               ev_status := Undefined;
               ev_htmlLink := Undefined;
               ev_attendees :=
                 if nonempty (default "" attendees)
                 then Some (map (fun email =>
                                   {| email := Str (Js.trim email); responseStatus := Undefined |})
                              (Js.split_comma (default "" attendees)))
                 else None;
               ev_conferenceData := None |}.
Proof.
  unfold createEvent, calendar_events_insert. run.
  assert (Hempty : forall v : World, issued v v = pre ++ [EventsInsert cid body] -> False)
    by (intros v Hiss; rewrite issued_same in Hiss; destruct pre; discriminate).
  destruct (blank_dec summary) as [Hs | Hs].
  { rewrite (validateRequired_blank _ _ (blank_default _ Hs)). cbn [snd]. intros Hiss.
    destruct (Hempty _ Hiss). }
  rewrite (validateRequired_not_blank _ "summary" (not_blank_default _ Hs)). cbv beta iota.
  destruct (blank_dec start) as [Ht | Ht].
  { rewrite (validateRequired_blank _ _ (blank_default _ Ht)). cbn [snd]. intros Hiss.
    destruct (Hempty _ Hiss). }
  rewrite (validateRequired_not_blank _ "start" (not_blank_default _ Ht)). cbv beta iota.
  destruct (blank_dec end_) as [He | He].
  { rewrite (validateRequired_blank _ _ (blank_default _ He)). cbn [snd]. intros Hiss.
    destruct (Hempty _ Hiss). }
  rewrite (validateRequired_not_blank _ "end" (not_blank_default _ He)). cbv beta iota.
  destruct (getCalendar_run w) as (reads & Hreads & [Hg | [a Hg]]); rewrite Hg; cbv beta iota.
  { cbn [snd]. intros Hiss. apply issued_tail in Hiss.
    pose proof (file_reads_last _ _ _ Hreads Hiss). discriminate. }
  cbn [trace auth].
  destruct (new_Date_toISOString R (default "" start)) as [e | startISO]; cbv beta iota.
  { cbn [snd]. intros Hiss. apply issued_tail in Hiss.
    pose proof (file_reads_last _ _ _ Hreads Hiss). discriminate. }
  destruct (new_Date_toISOString R (default "" end_)) as [e | endISO]; cbv beta iota.
  { cbn [snd]. intros Hiss. apply issued_tail in Hiss.
    pose proof (file_reads_last _ _ _ Hreads Hiss). discriminate. }
  match goal with
  | |- context [events_insert E ?h ?c ?i ?b] => destruct (events_insert E h c i b)
  end; cbv beta iota; cbn [snd]; rewrite <- app_assoc; intros Hiss; apply issued_tail in Hiss;
    apply app_inj_tail in Hiss; destruct Hiss as [<- Hcall]; inversion Hcall; subst;
    (split; [exact Hreads | split; [reflexivity |]]);
    (split; [exact Hs | split; [exact Ht | split; [exact He |]]]);
    exists startISO, endISO; repeat split.
Qed.

(** X11. The insert call [createEvent] sends comes after the three
    mandatory inputs passed validation and after file reads only; it goes
    to the supplied calendar (or [primary]); the title is the supplied one,
    untrimmed; [start] and [end] are valid dates, sent as timed instants in
    UTC and never as all-day dates; [description] and [location] are left
    out when absent and sent as supplied otherwise. *)
Theorem createEvent_request
  summary start end_ description location attendees calendarId w pre cid body :
  issued w (snd (createEvent R E summary start end_ description location attendees calendarId w))
    = pre ++ [EventsInsert cid body] ->
  file_reads_only pre /\ cid = default "primary" calendarId
  /\ ~ blank summary /\ ~ blank start /\ ~ blank end_
  /\ ev_summary body = Str (default "" summary)
  /\ (exists iso, new_Date_toISOString R (default "" start) = inr iso
                  /\ ev_start body
                     = Some {| date := Undefined; dateTime := Str iso; timeZone := Str "UTC" |})
  /\ (exists iso, new_Date_toISOString R (default "" end_) = inr iso
                  /\ ev_end body
                     = Some {| date := Undefined; dateTime := Str iso; timeZone := Str "UTC" |})
  /\ (absent description -> ev_description body = Undefined)
  /\ (~ absent description -> ev_description body = Str (default "" description))
  /\ (absent location -> ev_location body = Undefined)
  /\ (~ absent location -> ev_location body = Str (default "" location)).
Proof.
  intros Hiss. apply createEvent_body in Hiss.
  destruct Hiss as (Hreads & Hcid & Hs & Ht & He & startISO & endISO & Hstart & Hend & ->).
  cbn [ev_summary ev_start ev_end ev_description ev_location].
  repeat match goal with |- _ /\ _ => split end; auto.
  - exists startISO. split; [exact Hstart | reflexivity].
  - exists endISO. split; [exact Hend | reflexivity].
  - intros Habs. rewrite (absent_nonempty _ Habs). reflexivity.
  - intros Hsup. destruct (nonempty (default "" description)) eqn:Hn; [reflexivity |].
    destruct (Hsup (nonempty_false_absent _ Hn)).
  - intros Habs. rewrite (absent_nonempty _ Habs). reflexivity.
  - intros Hsup. destruct (nonempty (default "" location)) eqn:Hn; [reflexivity |].
    destruct (Hsup (nonempty_false_absent _ Hn)).
Qed.

(** X13. The attendees of the insert call: none when [attendees] is
    absent; otherwise one attendee for each piece between commas, in order,
    with the piece trimmed as email and no response status. Their number is
    the number of commas plus one, so an empty piece (a doubled or trailing
    comma) gives an attendee with an empty email. *)
Theorem createEvent_attendees
  summary start end_ description location attendees calendarId w pre cid body :
  issued w (snd (createEvent R E summary start end_ description location attendees calendarId w))
    = pre ++ [EventsInsert cid body] ->
  (absent attendees -> ev_attendees body = None)
  /\ (~ absent attendees ->
        exists l,
          ev_attendees body = Some l
          /\ length l = S (count_commas (default "" attendees))
          /\ map email l
             = map (fun piece => Str (Js.trim piece)) (Js.split_comma (default "" attendees))
          /\ Forall (fun a => responseStatus a = Undefined) l).
Proof.
  intros Hiss. apply createEvent_body in Hiss.
  destruct Hiss as (_ & _ & _ & _ & _ & startISO & endISO & _ & _ & ->).
  cbn [ev_attendees]. split.
  - intros Habs. rewrite (absent_nonempty _ Habs). reflexivity.
  - intros Hsup. destruct (nonempty (default "" attendees)) eqn:Hn;
      [| destruct (Hsup (nonempty_false_absent _ Hn))].
    eexists. split; [reflexivity |]. split; [| split].
    + rewrite length_map. apply split_comma_length.
    + rewrite map_map. reflexivity.
    + apply Forall_map. apply Forall_forall. intros piece _. reflexivity.
Qed.

(** ** The requests of the list and search operations *)

Lemma maxResultsNum_nonzero s : maxResultsNum s <> 0.
Proof.
  unfold maxResultsNum. destruct (Js.parseInt s) as [[n | negative] |]; [| discriminate ..].
  destruct (Z.eqb_spec n 0); [discriminate | congruence].
Qed.

Lemma maxResultsNum_parsed s n : Js.parseInt s = Some n -> n <> 0 -> maxResultsNum s = n.
Proof.
  unfold maxResultsNum. intros -> Hn. destruct n as [n | negative]; [| reflexivity].
  destruct (Z.eqb_spec n 0); [congruence | reflexivity].
Qed.

(** X14. The list call [searchEvents] sends: the query passed validation
    and is sent as supplied; the call expands recurring events and orders by
    start time; and, unlike that of [listEvents], it carries no time bound
    at all, so past events are searched too. *)
Theorem searchEvents_request query maxResults calendarId w pre p :
  issued w (snd (searchEvents R E query maxResults calendarId w)) = pre ++ [EventsList p] ->
  ~ blank query
  /\ lp_q p = Some (default "" query)
  /\ lp_calendarId p = default "primary" calendarId
  /\ lp_timeMin p = None /\ lp_timeMax p = None
  /\ lp_singleEvents p = true /\ lp_orderBy p = "startTime".
Proof.
  unfold searchEvents. run. unfold calendar_events_list. run.
  destruct (blank_dec query) as [Hb | Hnb].
  { rewrite (validateRequired_blank _ _ (blank_default _ Hb)). cbn [snd]. rewrite issued_same.
    intros Hiss. destruct pre; discriminate. }
  rewrite (validateRequired_not_blank _ "query" (not_blank_default _ Hnb)). cbv beta iota.
  destruct (getCalendar_run w) as (reads & Hreads & [Hg | [a Hg]]); rewrite Hg; cbv beta iota.
  - cbn [snd]. intros Hiss. exfalso. exact (issued_no_list_call _ _ _ _ _ Hreads Hiss).
  - cbn [trace auth]. list_call_cases Hreads; repeat split; assumption.
Qed.

(** X15. The list call [listEvents] sends: no query; the supplied calendar
    (or [primary]); recurring events expanded, ordered by start time; always
    a lower time bound; a supplied [timeMin] or [timeMax] is a valid date,
    sent in ISO form; and the limit is never zero: a [maxResults] for which
    [parseInt] gives a non-zero Number is sent as that Number, be it
    negative, the nearest double of a digit string beyond [2^53], or an
    infinity. *)
Theorem listEvents_request maxResults calendarId timeMin timeMax w pre p :
  issued w (snd (listEvents R E maxResults calendarId timeMin timeMax w)) = pre ++ [EventsList p] ->
  lp_q p = None
  /\ lp_calendarId p = default "primary" calendarId
  /\ lp_singleEvents p = true /\ lp_orderBy p = "startTime"
  /\ (exists iso, lp_timeMin p = Some iso)
  /\ (~ absent timeMin ->
        exists iso, new_Date_toISOString R (default "" timeMin) = inr iso /\ lp_timeMin p = Some iso)
  /\ (~ absent timeMax ->
        exists iso, new_Date_toISOString R (default "" timeMax) = inr iso /\ lp_timeMax p = Some iso)
  /\ lp_maxResults p <> 0
  /\ (forall n, Js.parseInt (default "10" maxResults) = Some n -> n <> 0 -> lp_maxResults p = n).
Proof.
  unfold listEvents. run. unfold now_toISOString, calendar_events_list. run.
  destruct (getCalendar_run w) as (reads & Hreads & [Hg | [a Hg]]); rewrite Hg; cbv beta iota.
  - cbn [snd]. intros Hiss. exfalso. exact (issued_no_list_call _ _ _ _ _ Hreads Hiss).
  - cbn [trace auth]. list_call_cases Hreads;
      cbn [lp_q lp_calendarId lp_singleEvents lp_orderBy lp_timeMin lp_timeMax lp_maxResults];
      repeat match goal with |- _ /\ _ => split end;
      try reflexivity;
      try (eexists; reflexivity);
      try apply maxResultsNum_nonzero;
      try (intros n Hn Hnz; apply maxResultsNum_parsed; assumption);
      try (intros Hsup;
           first [ exfalso; apply Hsup; apply nonempty_false_absent; assumption
                 | eexists; split; reflexivity ]).
Qed.

(** ** Remote failures *)

Lemma remote_error_read h a c : is_remote c = false -> remote_error E h a c = None.
Proof. destruct c; simpl; intros H; first [reflexivity | discriminate]. Qed.

(** A call the service answers with an error is not among the file reads
    that come first. *)
Lemma failed_call_after_reads reads calls pre c post h a e :
  file_reads_only reads ->
  reads ++ calls = pre ++ c :: post ->
  remote_error E h a c = Some e ->
  exists pre', pre = reads ++ pre' /\ calls = pre' ++ c :: post.
Proof.
  revert pre. induction reads as [| r reads IH]; intros pre Hreads Heq Herr.
  - exists pre. split; [reflexivity | exact Heq].
  - assert (Hr : is_remote r = false /\ file_reads_only reads).
    { unfold file_reads_only, remote_calls in *. destruct r; try discriminate Hreads.
      split; [reflexivity | exact Hreads]. }
    destruct Hr as [Hr Hrest].
    destruct pre as [| x pre]; cbn [app] in Heq; inversion Heq; subst.
    + rewrite (remote_error_read _ _ _ Hr) in Herr. discriminate Herr.
    + destruct (IH pre Hrest H1 Herr) as (pre' & -> & Hcalls).
      exists pre'. split; [reflexivity | exact Hcalls].
Qed.

Lemma failed_call_not_a_read reads pre c post h a e :
  file_reads_only reads -> reads = pre ++ c :: post -> remote_error E h a c = Some e -> False.
Proof.
  intros Hreads Heq Herr. rewrite <- (app_nil_r reads) in Heq.
  destruct (failed_call_after_reads _ _ _ _ _ _ _ _ Hreads Heq Herr) as (pre' & _ & Hnil).
  destruct pre'; discriminate Hnil.
Qed.

Ltac verbatim_leaf Hreads :=
  cbn [fst snd auth trace];
  let a' := fresh "a'" in
  let pre := fresh "pre" in
  let c := fresh "c" in
  let post := fresh "post" in
  let e := fresh "e" in
  let Ha := fresh "Ha" in
  let Hiss := fresh "Hiss" in
  let Herr := fresh "Herr" in
  let pre' := fresh "pre'" in
  let Hcalls := fresh "Hcalls" in
  intros a' pre c post e Ha Hiss Herr;
  first
    [ (* nothing issued *)
      rewrite issued_same in Hiss; destruct pre; discriminate Hiss
    | (* file reads only *)
      rewrite issued_extend in Hiss;
      exfalso; exact (failed_call_not_a_read _ _ _ _ _ _ _ Hreads Hiss Herr)
    | (* file reads, then one or two remote calls *)
      rewrite <- ?app_assoc in Hiss; rewrite issued_extend in Hiss;
      destruct (failed_call_after_reads _ _ _ _ _ _ _ _ Hreads Hiss Herr)
        as (pre' & -> & Hcalls);
      cbn [app] in Hcalls;
      destruct pre' as [| ? [| ? pre']]; cbn [app] in Hcalls;
      inversion Hcalls; subst;
      try match goal with H : [] = _ ++ _ :: _ |- _ => destruct pre'; discriminate H end;
      inversion Ha; subst;
      cbn [remote_error] in Herr; cbn [trace] in *;
      rewrite ?app_nil_r, ?app_assoc in Herr;
      repeat match goal with
             | H : ?x = _, H' : context [match ?x with _ => _ end] |- _ => rewrite H in H'
             end;
      first [discriminate Herr | inversion Herr; subst; split; reflexivity] ].

Ltac verbatim_op :=
  run;
  repeat match goal with
         | |- context [validateRequired ?v ?n] => destruct (validateRequired v n); cbv beta iota
         end;
  try (cbn [fst snd]; intros ? pre ? ? ? ? Hiss ?; rewrite issued_same in Hiss;
       destruct pre; discriminate Hiss);
  match goal with
  | |- context [getCalendar R E ?w] =>
      let reads := fresh "reads" in
      let Hreads := fresh "Hreads" in
      let Hg := fresh "Hg" in
      let a := fresh "a" in
      destruct (getCalendar_run w) as (reads & Hreads & [Hg | [a Hg]]);
      rewrite Hg; cbv beta iota; cbn [trace auth];
      run_all; verbatim_leaf Hreads
  | _ => idtac
  end.

Lemma listEvents_verbatim maxResults calendarId timeMin timeMax w :
  reports_failure E w (listEvents R E maxResults calendarId timeMin timeMax w).
Proof.
  unfold reports_failure, listEvents, now_toISOString, calendar_events_list. verbatim_op.
Qed.

Lemma createEvent_verbatim summary start end_ description location attendees calendarId w :
  reports_failure E w
    (createEvent R E summary start end_ description location attendees calendarId w).
Proof. unfold reports_failure, createEvent, calendar_events_insert. verbatim_op. Qed.

Lemma updateEvent_verbatim eventId summary start end_ description location calendarId w :
  reports_failure E w
    (updateEvent R E eventId summary start end_ description location calendarId w).
Proof.
  unfold reports_failure, updateEvent, calendar_events_get, calendar_events_update. verbatim_op.
Qed.

Lemma deleteEvent_verbatim eventId calendarId w :
  reports_failure E w (deleteEvent R E eventId calendarId w).
Proof. unfold reports_failure, deleteEvent, calendar_events_delete. verbatim_op. Qed.

Lemma searchEvents_verbatim query maxResults calendarId w :
  reports_failure E w (searchEvents R E query maxResults calendarId w).
Proof. unfold reports_failure, searchEvents, calendar_events_list. verbatim_op. Qed.

Lemma listCalendars_verbatim w : reports_failure E w (listCalendars R E w).
Proof. unfold reports_failure, listCalendars, calendar_calendarList_list. verbatim_op. Qed.

Lemma getEvent_verbatim eventId calendarId w :
  reports_failure E w (getEvent R E eventId calendarId w).
Proof. unfold reports_failure, getEvent, calendar_events_get. verbatim_op. Qed.

Lemma dispatch_verbatim name args w :
  name ∈ TOOL_NAMES -> reports_failure E w (dispatch (gateway R E) name args w).
Proof.
  unfold TOOL_NAMES. rewrite !elem_of_cons, elem_of_nil.
  intros [-> | [-> | [-> | [-> | [-> | [-> | [-> | []]]]]]]];
    unfold dispatch, gateway;
    cbn [String.eqb Ascii.eqb Bool.eqb gw_listEvents gw_createEvent gw_updateEvent
           gw_deleteEvent gw_searchEvents gw_listCalendars gw_getEvent];
    first [ apply listEvents_verbatim | apply createEvent_verbatim | apply updateEvent_verbatim
          | apply deleteEvent_verbatim | apply searchEvents_verbatim
          | apply listCalendars_verbatim | apply getEvent_verbatim ].
Qed.

(** X16. A failure of the remote service is reported verbatim and
    unflagged, and no further call follows a failed one. Whenever a remote
    call of a tool call is answered by the service with an error, that call
    is the last external call of the tool call, and the result of
    [callTool] is the formatted message of that very error, without the
    error flag. *)
Theorem remote_failure_reported_verbatim name args w a pre c post e :
  let r := callTool R E name args w in
  auth (snd r) = Some a ->
  issued w (snd r) = pre ++ c :: post ->
  remote_error E (trace w ++ pre) a c = Some e ->
  post = []
  /\ fst r = inr {| content := [TextContent (formatError e)]; isError := false |}.
Proof.
  cbv zeta. unfold callTool.
  destruct (decide (name ∈ TOOL_NAMES)) as [Hin | Hout].
  - destruct (gateway_returns name args Hin w) as (text & w' & Hrun).
    rewrite (handler_returned _ _ _ _ _ _ Hrun). cbn [fst snd].
    intros Ha Hiss Herr.
    pose proof (dispatch_verbatim name args w Hin a pre c post e) as Hv.
    rewrite Hrun in Hv. cbn [fst snd] in Hv.
    destruct (Hv Ha Hiss Herr) as [Hlast Htext].
    split; [exact Hlast |]. inversion Htext; subst. reflexivity.
  - rewrite (handler_raised _ name args w (Error ("Unknown tool: " +:+ name)) w)
      by (rewrite (dispatch_unknown _ _ _ Hout); reflexivity).
    cbn [fst snd]. intros _ Hiss _. rewrite issued_same in Hiss.
    destruct pre; discriminate Hiss.
Qed.

(** ** Success confirmations *)

Lemma fold_left_head {A} (f : A -> string) l c h :
  fold_left (fun result x => result +:+ f x) l (String c h)
  = String c (fold_left (fun result x => result +:+ f x) l h).
Proof. revert h. induction l as [| x l IH]; intros h; simpl; [reflexivity | apply IH]. Qed.

Lemma formatError_not_confirmation e : ~ confirmation (formatError e).
Proof. intros [rest H]. destruct e; discriminate H. Qed.

Ltac confirm_found a pre c :=
  exists a, pre, c;
  (split; [reflexivity |]);
  (split; [rewrite <- !app_assoc; apply issued_extend |]);
  (split; [reflexivity |]);
  cbn [remote_error]; cbn [trace] in *; rewrite ?app_assoc;
  repeat match goal with
         | H : ?x = _ |- context [match ?x with _ => _ end] => rewrite H
         end;
  reflexivity.

Ltac confirm_leaf :=
  cbn [fst snd auth trace];
  let text := fresh "text" in
  let Htext := fresh "Htext" in
  let Hglyph := fresh "Hglyph" in
  intros text Htext Hglyph; injection Htext as <-;
  first
    [ exfalso; exact (formatError_not_confirmation _ Hglyph)
    | exfalso; destruct Hglyph as [? Hglyph]; discriminate Hglyph
    | exfalso; destruct Hglyph as [? Hglyph];
      cbv [String.append] in Hglyph; rewrite fold_left_head in Hglyph; discriminate Hglyph
    | lazymatch goal with
      | |- context [issued ?w {| auth := Some ?a;
                                 trace := ((trace ?w ++ ?r) ++ [?c1]) ++ [?c2] |}] =>
          confirm_found a (r ++ [c1]) c2
      | |- context [issued ?w {| auth := Some ?a; trace := (trace ?w ++ ?r) ++ [?c1] |}] =>
          confirm_found a r c1
      end ].

Ltac confirm_op :=
  run;
  repeat match goal with
         | |- context [validateRequired ?v ?n] => destruct (validateRequired v n); cbv beta iota
         end;
  try confirm_leaf;
  match goal with
  | |- context [getCalendar R E ?w] =>
      let reads := fresh "reads" in
      let Hreads := fresh "Hreads" in
      let Hg := fresh "Hg" in
      let a := fresh "a" in
      destruct (getCalendar_run w) as (reads & Hreads & [Hg | [a Hg]]);
      rewrite Hg; cbv beta iota; cbn [trace auth];
      run_all; confirm_leaf
  | _ => idtac
  end.

Lemma listEvents_confirms maxResults calendarId timeMin timeMax w :
  confirms_only_success E w (listEvents R E maxResults calendarId timeMin timeMax w).
Proof.
  unfold confirms_only_success, listEvents, now_toISOString, calendar_events_list. confirm_op.
Qed.

Lemma createEvent_confirms summary start end_ description location attendees calendarId w :
  confirms_only_success E w
    (createEvent R E summary start end_ description location attendees calendarId w).
Proof. unfold confirms_only_success, createEvent, calendar_events_insert. confirm_op. Qed.

Lemma updateEvent_confirms eventId summary start end_ description location calendarId w :
  confirms_only_success E w
    (updateEvent R E eventId summary start end_ description location calendarId w).
Proof.
  unfold confirms_only_success, updateEvent, calendar_events_get, calendar_events_update.
  confirm_op.
Qed.

Lemma deleteEvent_confirms eventId calendarId w :
  confirms_only_success E w (deleteEvent R E eventId calendarId w).
Proof. unfold confirms_only_success, deleteEvent, calendar_events_delete. confirm_op. Qed.

Lemma searchEvents_confirms query maxResults calendarId w :
  confirms_only_success E w (searchEvents R E query maxResults calendarId w).
Proof. unfold confirms_only_success, searchEvents, calendar_events_list. confirm_op. Qed.

Lemma listCalendars_confirms w : confirms_only_success E w (listCalendars R E w).
Proof. unfold confirms_only_success, listCalendars, calendar_calendarList_list. confirm_op. Qed.

Lemma getEvent_confirms eventId calendarId w :
  confirms_only_success E w (getEvent R E eventId calendarId w).
Proof. unfold confirms_only_success, getEvent, calendar_events_get, getEvent_text. confirm_op. Qed.

Lemma dispatch_confirms name args w :
  name ∈ TOOL_NAMES -> confirms_only_success E w (dispatch (gateway R E) name args w).
Proof.
  unfold TOOL_NAMES. rewrite !elem_of_cons, elem_of_nil.
  intros [-> | [-> | [-> | [-> | [-> | [-> | [-> | []]]]]]]];
    unfold dispatch, gateway;
    cbn [String.eqb Ascii.eqb Bool.eqb gw_listEvents gw_createEvent gw_updateEvent
           gw_deleteEvent gw_searchEvents gw_listCalendars gw_getEvent];
    first [ apply listEvents_confirms | apply createEvent_confirms | apply updateEvent_confirms
          | apply deleteEvent_confirms | apply searchEvents_confirms
          | apply listCalendars_confirms | apply getEvent_confirms ].
Qed.

(** X17. A confirmation is never given for a change that did not happen.
    Whenever the text [callTool] returns starts with the success glyph, the
    tool call ended with a mutating remote call (insert, update or delete)
    and the service answered that call without error. *)
Theorem confirmation_means_remote_success name args w text flag w' :
  callTool R E name args w = (inr {| content := [TextContent text]; isError := flag |}, w') ->
  confirmation text ->
  exists a pre c,
    auth w' = Some a
    /\ issued w w' = pre ++ [c]
    /\ mutating c = true
    /\ remote_error E (trace w ++ pre) a c = None.
Proof.
  unfold callTool. intros Hcall Hglyph.
  destruct (decide (name ∈ TOOL_NAMES)) as [Hin | Hout].
  - destruct (gateway_returns name args Hin w) as (text' & w'' & Hrun).
    rewrite (handler_returned _ _ _ _ _ _ Hrun) in Hcall. inversion Hcall; subst.
    pose proof (dispatch_confirms name args w Hin text) as Hc.
    rewrite Hrun in Hc. cbn [fst snd] in Hc. apply Hc; [reflexivity | exact Hglyph].
  - rewrite (handler_raised _ name args w (Error ("Unknown tool: " +:+ name)) w) in Hcall
      by (rewrite (dispatch_unknown _ _ _ Hout); reflexivity).
    inversion Hcall; subst.
    destruct (formatError_not_confirmation (Error ("Unknown tool: " +:+ name)) Hglyph).
Qed.

(** ** Sequences of tool calls *)

Lemma steady_pure {A} (m : M A) : (forall w, snd (m w) = w) -> steady m.
Proof.
  intros Hm w a Ha. exists []. rewrite Hm, app_nil_r. split; [| constructor].
  destruct w; simpl in *; subst; reflexivity.
Qed.

Lemma steady_ret {A} (x : A) : steady (ret x).
Proof. apply steady_pure. reflexivity. Qed.

Lemma steady_throw {A} e : steady (@throw A e).
Proof. apply steady_pure. reflexivity. Qed.

Lemma steady_lift {A} (r : Exn + A) : steady (lift r).
Proof. apply steady_pure. reflexivity. Qed.

Lemma steady_now : steady (now_toISOString R E).
Proof. apply steady_pure. reflexivity. Qed.

Lemma steady_external {A} c (answer : History -> Exn + A) :
  is_remote c = true -> steady (external c answer).
Proof.
  intros Hc w a Ha. exists [c]. unfold external. cbn [snd]. rewrite Ha.
  split; [reflexivity | repeat constructor; exact Hc].
Qed.

Lemma steady_getCalendar : steady (getCalendar R E).
Proof.
  intros w a Ha. unfold getCalendar, initializeAuth. run. rewrite Ha. cbv beta iota.
  exists []. rewrite app_nil_r. split; [| constructor].
  destruct w; simpl in *; subst; reflexivity.
Qed.

Lemma steady_bind {A B} (m : M A) (k : A -> M B) :
  steady m -> (forall x, steady (k x)) -> steady (bind m k).
Proof.
  intros Hm Hk w a Ha. destruct (Hm w a Ha) as (h1 & Hw1 & Hh1).
  unfold bind. destruct (m w) as [[e | x] w1]; cbn [snd] in *; subst w1.
  - exists h1. split; [reflexivity | exact Hh1].
  - destruct (Hk x {| auth := Some a; trace := trace w ++ h1 |} a eq_refl) as (h2 & Hw2 & Hh2).
    exists (h1 ++ h2). rewrite Hw2. cbn [trace]. rewrite app_assoc.
    split; [reflexivity | apply Forall_app; split; assumption].
Qed.

Lemma steady_try_catch {A} (m : M A) (h : Exn -> M A) :
  steady m -> (forall e, steady (h e)) -> steady (try_catch m h).
Proof.
  intros Hm Hh w a Ha. destruct (Hm w a Ha) as (h1 & Hw1 & Hh1).
  unfold try_catch. destruct (m w) as [[e | x] w1]; cbn [snd] in *; subst w1.
  - destruct (Hh e {| auth := Some a; trace := trace w ++ h1 |} a eq_refl) as (h2 & Hw2 & Hh2).
    exists (h1 ++ h2). rewrite Hw2. cbn [trace]. rewrite app_assoc.
    split; [reflexivity | apply Forall_app; split; assumption].
  - exists h1. split; [reflexivity | exact Hh1].
Qed.

Ltac steady :=
  repeat first
    [ apply steady_getCalendar | apply steady_try_catch | apply steady_bind
    | match goal with
      | |- forall _, _ => intro
      | |- steady (if ?b then _ else _) => destruct b
      end
    | apply steady_ret | apply steady_throw | apply steady_lift
    | apply steady_now | (apply steady_external; reflexivity) ].

Lemma steady_callTool name args : steady (callTool R E name args).
Proof.
  unfold callTool, handler, dispatch, gateway;
    cbn [gw_listEvents gw_createEvent gw_updateEvent gw_deleteEvent
           gw_searchEvents gw_listCalendars gw_getEvent].
  unfold listEvents, createEvent, updateEvent, deleteEvent, searchEvents, listCalendars,
    getEvent, calendar_events_list, calendar_events_insert, calendar_events_get,
    calendar_events_update, calendar_events_delete, calendar_calendarList_list.
  steady.
Qed.

(** X18. Once the handle is cached the server never touches the file
    system again: after any sequence of tool calls handled one after
    another the same handle is still cached, and every external call made
    on the way is a remote call. *)
Theorem authenticated_server_reads_no_file requests w a :
  auth w = Some a ->
  exists h,
    after_calls R E requests w = {| auth := Some a; trace := trace w ++ h |}
    /\ Forall (fun c => is_remote c = true) h.
Proof.
  revert w. induction requests as [| [name args] requests IH]; intros w Ha.
  - exists []. rewrite app_nil_r. split; [| constructor].
    destruct w; simpl in *; subst; reflexivity.
  - unfold after_calls. cbn [fold_left fst snd].
    destruct (steady_callTool name args w a Ha) as (h1 & Hw1 & Hh1).
    destruct (IH (snd (callTool R E name args w))) as (h2 & Hw2 & Hh2);
      [rewrite Hw1; reflexivity |].
    exists (h1 ++ h2). unfold after_calls in Hw2. rewrite Hw2, Hw1. cbn [trace].
    rewrite app_assoc. split; [reflexivity | apply Forall_app; split; assumption].
Qed.

(** ** The reports of the listing operations *)

Lemma append_assoc (s1 s2 s3 : string) : (s1 +:+ s2) +:+ s3 = s1 +:+ (s2 +:+ s3).
Proof.
  induction s1 as [| c s1 IH]; [reflexivity |].
  change (String c ((s1 +:+ s2) +:+ s3) = String c (s1 +:+ (s2 +:+ s3))).
  rewrite IH. reflexivity.
Qed.

Lemma append_empty_r (s : string) : s +:+ "" = s.
Proof.
  induction s as [| c s IH]; [reflexivity |].
  change (String c (s +:+ "") = String c s). rewrite IH. reflexivity.
Qed.

Lemma fold_left_blocks {A} (block : A -> string) items header :
  fold_left (fun result item => result +:+ block item) items header
  = header +:+ blocks block items.
Proof.
  revert header. induction items as [| x items IH]; intros header; cbn [fold_left blocks fold_right].
  - symmetry. apply append_empty_r.
  - rewrite IH, append_assoc. reflexivity.
Qed.

Lemma length_zero_default {A} (items : option (list A)) :
  (length (default [] items) =? 0)%nat = true -> default [] items = [].
Proof. destruct (default [] items); [reflexivity | discriminate]. Qed.

Ltac report_leaf Hreads :=
  cbn [fst snd auth trace];
  let Ha := fresh "Ha" in
  let Hiss := fresh "Hiss" in
  let Hans := fresh "Hans" in
  intros Ha Hiss Hans;
  first
    [ rewrite issued_same in Hiss; exfalso; exact (app_cons_not_nil _ _ _ Hiss)
    | apply issued_tail in Hiss;
      pose proof (file_reads_last _ _ _ Hreads Hiss); discriminate
    | rewrite <- ?app_assoc in Hiss; apply issued_tail in Hiss;
      rewrite ?app_assoc in Hiss; apply app_inj_tail in Hiss;
      destruct Hiss as [<- Hcall]; inversion Hcall; subst; inversion Ha; subst;
      cbn [trace] in *;
      match goal with
      | H : ?x = _, H' : ?x = inr _ |- _ => rewrite H in H'; inversion H'; subst
      end;
      first
        [ discriminate
        | match goal with
          | H : (length (default [] _) =? 0)%nat = true |- _ =>
              unfold listEvents_text, searchEvents_text, listCalendars_text;
              rewrite (length_zero_default _ H); reflexivity
          | H : (length (default [] ?o) =? 0)%nat = false |- _ =>
              unfold listEvents_text, searchEvents_text, listCalendars_text;
              rewrite fold_left_blocks; rewrite ?append_assoc;
              destruct (default [] o); [discriminate H | reflexivity]
          end ] ].

Ltac report_op :=
  run;
  repeat match goal with
         | |- context [validateRequired ?v ?n] => destruct (validateRequired v n); cbv beta iota
         end;
  try (cbn [fst snd]; intros ? Hiss ?; rewrite issued_same in Hiss; exfalso;
       exact (app_cons_not_nil _ _ _ Hiss));
  match goal with
  | |- context [getCalendar R E ?w] =>
      let reads := fresh "reads" in
      let Hreads := fresh "Hreads" in
      let Hg := fresh "Hg" in
      let a := fresh "a" in
      destruct (getCalendar_run w) as (reads & Hreads & [Hg | [a Hg]]);
      rewrite Hg; cbv beta iota; cbn [trace auth];
      run_all; report_leaf Hreads
  end.

(** X19. The report of [listEvents] is made from the items the list call
    returned, all of them and in their order: missing or empty items give
    the fixed no-events text; otherwise the header carries their number and
    one block follows for each event. The report is not cut to
    [maxResults]. *)
Theorem listEvents_report maxResults calendarId timeMin timeMax w a pre p items :
  let r := listEvents R E maxResults calendarId timeMin timeMax w in
  auth (snd r) = Some a ->
  issued w (snd r) = pre ++ [EventsList p] ->
  events_list E (trace w ++ pre) a p = inr items ->
  fst r = inr (listEvents_text items).
Proof.
  cbv zeta. unfold listEvents, now_toISOString, calendar_events_list. report_op.
Qed.

(** X20. The report of [searchEvents], likewise: missing or empty items
    give the no-match text with the query in quotes; otherwise the header
    carries the number of events and the query, and one block follows for
    each event returned. *)
Theorem searchEvents_report query maxResults calendarId w a pre p items :
  let r := searchEvents R E query maxResults calendarId w in
  auth (snd r) = Some a ->
  issued w (snd r) = pre ++ [EventsList p] ->
  events_list E (trace w ++ pre) a p = inr items ->
  fst r = inr (searchEvents_text (default "" query) items).
Proof.
  cbv zeta. unfold searchEvents, calendar_events_list. report_op.
Qed.

(** X21. The report of [listCalendars]: missing or empty items give the
    fixed no-calendars text; otherwise the header carries the number of
    calendars and one block follows for each calendar returned. *)
Theorem listCalendars_report w a pre items :
  let r := listCalendars R E w in
  auth (snd r) = Some a ->
  issued w (snd r) = pre ++ [CalendarListList] ->
  calendarList_list E (trace w ++ pre) a = inr items ->
  fst r = inr (listCalendars_text items).
Proof.
  cbv zeta. unfold listCalendars, calendar_calendarList_list. report_op.
Qed.

(** ** The handle [initializeAuth] builds *)

(** X22. A handle built from an empty cache comes from the two documents:
    both files were read and parsed; the client id, the client secret and
    the first redirect URI are those of the [installed] section of the
    credentials document when that section is present (truthy), and of the
    [web] section otherwise; and the parsed token document, whatever it
    holds, becomes the credentials of the handle. *)
Theorem initializeAuth_client w a w1 :
  auth w = None ->
  initializeAuth R E w = (inr a, w1) ->
  exists credentialsContent document tokenContent token installed source,
    fs_readFile E (trace w) (CREDENTIALS_PATH E) = inr credentialsContent
    /\ JSON_parse R credentialsContent = inr document
    /\ fs_readFile E (trace w ++ [FsReadFile (CREDENTIALS_PATH E)]) (TOKEN_PATH E)
       = inr tokenContent
    /\ JSON_parse R tokenContent = inr token
    /\ get_member (Some document) "installed" = inr installed
    /\ (if json_truthy installed then source = installed
        else get_member (Some document) "web" = inr source)
    /\ get_member source "client_id" = inr (client_id a)
    /\ get_member source "client_secret" = inr (client_secret a)
    /\ (exists uris,
          get_member source "redirect_uris" = inr uris
          /\ get_index0 uris = inr (redirect_uri a))
    /\ credentials a = token.
Proof.
  intros Ha. unfold initializeAuth. rewrite Ha.
  unfold fs_readFile_utf8, set_auth. run. cbn [trace].
  run_all; intros Hrun; try discriminate Hrun; inversion Hrun; subst; clear Hrun;
    cbn [client_id client_secret redirect_uri credentials];
    match goal with
    | Hc : fs_readFile E (trace w) _ = inr ?cc,
      Hd : JSON_parse R ?cc = inr ?doc,
      Ht : fs_readFile E (trace w ++ _) _ = inr ?tc,
      Hk : JSON_parse R ?tc = inr ?tok,
      Hi : get_member (Some ?doc) "installed" = inr ?inst |- _ =>
        exists cc, doc, tc, tok, inst;
        match goal with
        | Hw : get_member (Some doc) "web" = inr ?src |- _ => exists src
        | _ => exists inst
        end;
        (split; [reflexivity | split; [exact Hd | split; [reflexivity | split; [exact Hk |]]]]);
        (split; [exact Hi |])
    end;
    match goal with
    | Hb : json_truthy _ = _ |- _ => rewrite Hb
    end;
    (split; [first [reflexivity | assumption] |]);
    (split; [assumption | split; [assumption |]]);
    (split; [eexists; split; eassumption | reflexivity]).
Qed.

End Properties.

(** * Start-up and set-up *)

Section Processes.

Variable E : Env.

(** X23. The server starts serving only when the credentials file and the
    token file were both found accessible, in that order, and the transport
    then connected; in every other case the process exits with status 1,
    the token file is not checked once the credentials file is missing, and
    the transport is not connected unless both checks passed. *)
Theorem startup_preflight (H : Startup.Host) :
  let credentials := Startup.FsAccess (CREDENTIALS_PATH E) in
  let token := Startup.FsAccess (TOKEN_PATH E) in
  let outcome := fst (Startup.main E H) in
  let steps := snd (Startup.main E H) in
  (outcome = Startup.Serving <->
     Startup.fs_access H [] (CREDENTIALS_PATH E) = inr tt
     /\ Startup.fs_access H [credentials] (TOKEN_PATH E) = inr tt
     /\ Startup.server_connect H [credentials; token] = inr tt)
  /\ (outcome = Startup.Serving \/ outcome = Startup.Exited 1)
  /\ (Startup.ServerConnect ∈ steps ->
        Startup.fs_access H [] (CREDENTIALS_PATH E) = inr tt
        /\ Startup.fs_access H [credentials] (TOKEN_PATH E) = inr tt)
  /\ (Startup.fs_access H [] (CREDENTIALS_PATH E) <> inr tt -> steps = [credentials]).
Proof.
  cbv zeta. unfold Startup.main.
  destruct (Startup.fs_access H [] (CREDENTIALS_PATH E)) as [e1 | []];
    [| destruct (Startup.fs_access H _ (TOKEN_PATH E)) as [e2 | []];
       [| destruct (Startup.server_connect H _) as [e3 | []]]];
    cbn [fst snd];
    (split; [split; [intros Hs; try discriminate Hs; auto
                    | intros (H1 & H2 & H3); first [discriminate | reflexivity]] |]);
    (split; [auto |]);
    (split; [intros Hin; rewrite ?elem_of_cons, ?elem_of_nil in Hin;
             first [ split; reflexivity
                   | exfalso; repeat destruct Hin as [Hin | Hin]; first [discriminate Hin | exact Hin] ]
            | intros Hne; first [reflexivity | exfalso; apply Hne; reflexivity] ]).
Qed.

(** X24. The set-up script writes the token file only after the
    credentials file was found and the authentication flow succeeded, at
    most once, to its token path, and what it writes is the serialised
    token record of the authenticated client, of type [authorized_user].
    It completes exactly when that write succeeds and exits with status 1
    otherwise. The path it writes is the one the server reads when the
    token path is configured in the environment; with the defaults the two
    differ. *)
Theorem setup_writes_token_after_authentication (H : AuthSetup.Host) :
  let check := AuthSetup.FsAccess (AuthSetup.CREDENTIALS_PATH E) in
  let flow := AuthSetup.Authenticate (AuthSetup.CREDENTIALS_PATH E) AuthSetup.SCOPES in
  let outcome := fst (AuthSetup.main E H) in
  let steps := snd (AuthSetup.main E H) in
  (forall path data,
      AuthSetup.FsWriteFile path data ∈ steps ->
      steps = [check; flow; AuthSetup.FsWriteFile path data]
      /\ path = AuthSetup.TOKEN_PATH E
      /\ AuthSetup.fs_access H [] (AuthSetup.CREDENTIALS_PATH E) = inr tt
      /\ exists auth,
           AuthSetup.authenticate H [check] (AuthSetup.CREDENTIALS_PATH E) AuthSetup.SCOPES
           = inr auth
           /\ data = AuthSetup.JSON_stringify H (AuthSetup.tokenData auth)
           /\ member "type" (omap (fun kv => pair (fst kv) <$> snd kv) (AuthSetup.tokenData auth))
              = Some (JString "authorized_user"))
  /\ (outcome = AuthSetup.Completed <->
        exists path data,
          steps = [check; flow; AuthSetup.FsWriteFile path data]
          /\ AuthSetup.fs_writeFile H [check; flow] path data = inr tt)
  /\ (outcome = AuthSetup.Completed \/ outcome = AuthSetup.Exited 1)
  /\ (AuthSetup.TOKEN_PATH E = TOKEN_PATH E <->
        exists p, env_TOKEN_PATH E = Some p /\ nonempty p = true).
Proof.
  cbv zeta. unfold AuthSetup.main.
  split; [| split; [| split]].
  - intros path data.
    destruct (AuthSetup.fs_access H [] _) as [e1 | []];
      [| destruct (AuthSetup.authenticate H _ _ _) as [e2 | auth] eqn:Hauth;
         [| destruct (AuthSetup.fs_writeFile H _ _ _) as [e3 | []]]];
      cbn [fst snd]; rewrite ?elem_of_cons, ?elem_of_nil;
      intros Hin; repeat destruct Hin as [Hin | Hin]; try discriminate Hin; try (exfalso; exact Hin);
      inversion Hin; subst;
      (split; [reflexivity | split; [reflexivity | split; [reflexivity |]]]);
      exists auth; (split; [reflexivity | split; reflexivity]).
  - destruct (AuthSetup.fs_access H [] _) as [e1 | []];
      [| destruct (AuthSetup.authenticate H _ _ _) as [e2 | auth];
         [| destruct (AuthSetup.fs_writeFile H _ _ _) as [e3 | []] eqn:Hwrite]];
      cbn [fst snd]; split;
      try (intros Hc; discriminate Hc);
      try (intros (path & data & Hsteps & Hok); try discriminate Hsteps;
           inversion Hsteps; subst; congruence).
    intros _. eexists. eexists. split; [reflexivity | exact Hwrite].
  - destruct (AuthSetup.fs_access H [] _) as [e1 | []];
      [| destruct (AuthSetup.authenticate H _ _ _) as [e2 | auth];
         [| destruct (AuthSetup.fs_writeFile H _ _ _) as [e3 | []]]];
      cbn [fst snd]; auto.
  - unfold AuthSetup.TOKEN_PATH, TOKEN_PATH.
    destruct (env_TOKEN_PATH E) as [p |]; [destruct (nonempty p) eqn:Hp |]; split;
      try (intros Heq; discriminate Heq).
    + intros _. exists p. auto.
    + reflexivity.
    + intros (p' & Hp' & Hne). inversion Hp'; subst. congruence.
    + intros (p' & Hp' & _). discriminate Hp'.
Qed.

End Processes.

(** * The server on concrete requests *)

(** C1, at a failing input. The stored event [evt1] has the description
    [Quarterly planning] and the location [Room 4]. A call of
    [update_event] that supplies only [eventId] makes one get call and then
    one update call; the body of the update keeps [summary], [start] and
    [end] of the stored event, but its [description] and [location] are
    the empty string and not the stored values. *)
Theorem update_event_only_eventId_overwrites_description :
  exists body,
    remote_calls
      (issued Sample.fresh
         (snd (callTool Sample.runtime Sample.env "update_event"
                 (Some {[ "eventId" := "evt1" ]}) Sample.fresh)))
      = [EventsGet "primary" "evt1"; EventsUpdate "primary" "evt1" body]
    /\ ev_summary body = ev_summary Sample.evt1
    /\ ev_start body = ev_start Sample.evt1
    /\ ev_end body = ev_end Sample.evt1
    /\ ev_description body = Str "" /\ ev_description Sample.evt1 = Str "Quarterly planning"
    /\ ev_location body = Str "" /\ ev_location Sample.evt1 = Str "Room 4".
Proof.
  eexists. split; [vm_compute; reflexivity |]. repeat split.
Qed.

(** C2, as claimed, fails: [create_event] without arguments makes the
    gateway report the validation failure, and the result is not flagged. *)
Lemma create_event_failure_not_flagged :
  ~ flags_gateway_failures Sample.runtime Sample.env.
Proof.
  intros Hflag.
  destruct (Hflag "create_event" None Sample.fresh "❌ Error: summary is required" Sample.fresh)
    as (r & w'' & Hcall & Herr).
  - unfold TOOL_NAMES. repeat constructor.
  - reflexivity.
  - reflexivity.
  - vm_compute in Hcall. inversion Hcall; subst. discriminate Herr.
Qed.



(** ** Witnesses *)

Lemma error_flag_set_only_on_raise_witness :
  "create_event" ∈ TOOL_NAMES
  /\ callTool Sample.runtime Sample.env "create_event" None Sample.fresh
     = (inr {| content := [TextContent "❌ Error: summary is required"]; isError := false |},
        Sample.fresh).
Proof.
  assert (Hname : "create_event" ∈ TOOL_NAMES) by (unfold TOOL_NAMES; repeat constructor).
  split; [exact Hname |].
  exact (proj1 (error_flag_set_only_on_raise Sample.runtime Sample.env
                  (gateway Sample.runtime Sample.env) "create_event" None Sample.fresh Hname)
           "❌ Error: summary is required" Sample.fresh eq_refl).
Defined.

Lemma required_inputs_validated_witness :
  blank (Some "  ")
  /\ rejected "query" Sample.fresh
       (searchEvents Sample.runtime Sample.env (Some "  ") None None Sample.fresh)
  /\ blank None
  /\ exists name, name ∈ ["summary"; "start"; "end"] /\
       rejected name Sample.fresh
         (createEvent Sample.runtime Sample.env (Some "Team Sync") None
            (Some "2025-11-27T15:00:00") None None None None Sample.fresh).
Proof.
  assert (Hb : blank (Some "  ")) by reflexivity.
  assert (Hn : blank None) by reflexivity.
  pose proof (required_inputs_validated Sample.runtime Sample.env Sample.fresh)
    as (_ & _ & _ & Hsearch & Hcreate).
  split; [exact Hb | split; [apply Hsearch; exact Hb | split; [exact Hn |]]].
  apply Hcreate. right. left. exact Hn.
Defined.

Lemma callTool_never_raises_witness :
  "get_event" ∈ TOOL_NAMES
  /\ exists text flag w',
       callTool Sample.runtime Sample.env "get_event" (Some {[ "eventId" := "evt1" ]}) Sample.fresh
       = (inr {| content := [TextContent text]; isError := flag |}, w').
Proof.
  assert (Hname : "get_event" ∈ TOOL_NAMES) by (unfold TOOL_NAMES; repeat constructor).
  split; [exact Hname |].
  exact (callTool_never_raises Sample.runtime Sample.env "get_event"
           (Some {[ "eventId" := "evt1" ]}) Sample.fresh Hname).
Defined.

Lemma unknown_tool_witness :
("nonexistent_tool" ∉ TOOL_NAMES)
  /\ callTool Sample.runtime Sample.env "nonexistent_tool" (Some ∅) Sample.fresh
     = (inr {| content := [TextContent "❌ Error: Unknown tool: nonexistent_tool"];
               isError := true |}, Sample.fresh).
Proof.
  assert (Hn : "nonexistent_tool" ∉ TOOL_NAMES).
  { unfold TOOL_NAMES. rewrite !elem_of_cons, elem_of_nil.
    intros [H | [H | [H | [H | [H | [H | [H | H]]]]]]]; first [discriminate H | exact H]. }
  split; [exact Hn |].
  exact (proj1 (unknown_tool_only_dispatcher_failure Sample.runtime Sample.env
                  "nonexistent_tool" (Some ∅) Sample.fresh) Hn).
Defined.

Lemma listEvents_defaults_witness :
  issued Sample.fresh
    (snd (listEvents Sample.runtime Sample.env None None None None Sample.fresh))
  = sample_reads ++ [EventsList sample_list_params]
  /\ lp_timeMin sample_list_params
     = Some (Sample.toISOString (clock Sample.env (trace Sample.fresh ++ sample_reads)))
  /\ lp_maxResults sample_list_params = 10
  /\ lp_timeMax sample_list_params = None
  /\ issued Sample.fresh
       (snd (listEvents Sample.runtime Sample.env (Some "ten") None (Some "2025-11-27T14:00:00")
               None Sample.fresh))
     = sample_reads ++ [EventsList sample_list_params_since]
  /\ Js.parseInt (default "10" (Some "ten")) = None
  /\ lp_maxResults sample_list_params_since = 10
  /\ lp_timeMax sample_list_params_since = None.
Proof.
  assert (Habs : absent None) by reflexivity.
  assert (Hiss : issued Sample.fresh
                   (snd (listEvents Sample.runtime Sample.env None None None None Sample.fresh))
                 = sample_reads ++ [EventsList sample_list_params])
    by (vm_compute; reflexivity).
  assert (Hsince : issued Sample.fresh
                     (snd (listEvents Sample.runtime Sample.env (Some "ten") None
                             (Some "2025-11-27T14:00:00") None Sample.fresh))
                   = sample_reads ++ [EventsList sample_list_params_since])
    by (vm_compute; reflexivity).
  assert (Hnan : Js.parseInt (default "10" (Some "ten")) = None) by reflexivity.
  destruct (proj1 (listEvents_defaults Sample.runtime Sample.env None None None None
                     Sample.fresh) sample_reads sample_list_params Hiss)
    as (Hmin & Hlimit & Hmax).
  destruct (proj1 (listEvents_defaults Sample.runtime Sample.env (Some "ten") None
                     (Some "2025-11-27T14:00:00") None Sample.fresh)
              sample_reads sample_list_params_since Hsince)
    as (_ & Hlimit' & Hmax').
  split; [exact Hiss | split; [exact (Hmin Habs) | split; [exact (Hlimit (or_introl eq_refl)) |]]].
  split; [exact (Hmax Habs) | split; [exact Hsince | split; [exact Hnan |]]].
  split; [exact (Hlimit' (or_intror Hnan)) | exact (Hmax' Habs)].
Defined.



Lemma maxResults_zero_falls_back_witness :
  Js.parseInt "0" = Some (Finite 0)
  /\ Js.parseInt "ten" = None
  /\ authenticates Sample.runtime Sample.env Sample.fresh
  /\ ~ blank (Some "sync")
  /\ listEvents Sample.runtime Sample.env (Some "0") None None None Sample.fresh
     = listEvents Sample.runtime Sample.env (Some "ten") None None None Sample.fresh
  /\ searchEvents Sample.runtime Sample.env (Some "sync") (Some "0") None Sample.fresh
     = searchEvents Sample.runtime Sample.env (Some "sync") (Some "ten") None Sample.fresh
  /\ issued Sample.fresh
       (snd (listEvents Sample.runtime Sample.env (Some "0") None None None Sample.fresh))
     = sample_reads ++ [EventsList sample_list_params]
  /\ lp_maxResults sample_list_params = 10
  /\ issued Sample.fresh
       (snd (searchEvents Sample.runtime Sample.env (Some "sync") (Some "0") None Sample.fresh))
     = sample_reads ++ [EventsList sample_search_params]
  /\ lp_maxResults sample_search_params = 10
  /\ (exists pre p,
        issued Sample.fresh
          (snd (searchEvents Sample.runtime Sample.env (Some "sync") (Some "0") None
                  Sample.fresh)) = pre ++ [EventsList p]
        /\ lp_maxResults p = 10).
Proof.
  assert (Hzero : Js.parseInt "0" = Some (Finite 0)) by reflexivity.
  assert (Hnan : Js.parseInt "ten" = None) by reflexivity.
  assert (Hauth : authenticates Sample.runtime Sample.env Sample.fresh)
    by (exists sample_client, sample_authenticated; vm_compute; reflexivity).
  assert (Hq : ~ blank (Some "sync")) by (vm_compute; discriminate).
  assert (Hlist : issued Sample.fresh
                    (snd (listEvents Sample.runtime Sample.env (Some "0") None None None
                            Sample.fresh))
                  = sample_reads ++ [EventsList sample_list_params])
    by (vm_compute; reflexivity).
  assert (Hsearch : issued Sample.fresh
                      (snd (searchEvents Sample.runtime Sample.env (Some "sync") (Some "0") None
                              Sample.fresh))
                    = sample_reads ++ [EventsList sample_search_params])
    by (vm_compute; reflexivity).
  destruct (maxResults_zero_falls_back Sample.runtime Sample.env "0" Hzero) as [Hl Hs].
  destruct (Hl None None None Sample.fresh) as (Hlsame & Hllimit & _).
  destruct (Hs (Some "sync") None Sample.fresh) as (Hssame & Hslimit & Hssends).
  split; [exact Hzero | split; [exact Hnan | split; [exact Hauth | split; [exact Hq |]]]].
  split; [exact (Hlsame "ten" Hnan) | split; [exact (Hssame "ten" Hnan) |]].
  split; [exact Hlist | split; [exact (proj1 (Hllimit _ _ Hlist)) |]].
  split; [exact Hsearch | split; [exact (proj1 (Hslimit _ _ Hsearch)) |]].
  exact (Hssends Hauth Hq).
Defined.

Lemma createEvent_invalid_date_witness :
  ~ blank (Some "Team Sync") /\ ~ blank (Some "2025-11-27T14:00:00") /\ ~ blank (Some "tomorrow")
  /\ Sample.parse "tomorrow" = None
  /\ fst (createEvent Sample.runtime Sample.env (Some "Team Sync") (Some "2025-11-27T14:00:00")
            (Some "tomorrow") None None None None Sample.fresh)
     = inr "❌ Error: Invalid time value"
  /\ remote_calls
       (issued Sample.fresh
          (snd (createEvent Sample.runtime Sample.env (Some "Team Sync")
                  (Some "2025-11-27T14:00:00") (Some "tomorrow") None None None None
                  Sample.fresh))) = [].
Proof.
  assert (H1 : ~ blank (Some "Team Sync")) by (vm_compute; discriminate).
  assert (H2 : ~ blank (Some "2025-11-27T14:00:00")) by (vm_compute; discriminate).
  assert (H3 : ~ blank (Some "tomorrow")) by (vm_compute; discriminate).
  assert (H4 : Sample.parse "tomorrow" = None) by reflexivity.
  pose proof (createEvent_invalid_date Sample.runtime Sample.env (Some "Team Sync")
                (Some "2025-11-27T14:00:00") (Some "tomorrow") None None None None Sample.fresh
                H1 H2 H3 (or_intror H4)) as [_ Hcalls].
  repeat (split; [assumption |]).
  split; [vm_compute; reflexivity | exact Hcalls].
Defined.

(** ** Witnesses of the further properties *)

Lemma undeclared_arguments_ignored_witness :
  sample_tool "get_event" ∈ TOOLS
  /\ (forall key, key ∈ declared (sample_tool "get_event") ->
        ({[ "eventId" := "evt1" ]} : gmap string string) !! key
        = (<[ "verbose" := "yes" ]> {[ "eventId" := "evt1" ]} : gmap string string) !! key)
  /\ callTool Sample.runtime Sample.env "get_event" (Some {[ "eventId" := "evt1" ]}) Sample.fresh
     = callTool Sample.runtime Sample.env "get_event"
         (Some (<[ "verbose" := "yes" ]> {[ "eventId" := "evt1" ]})) Sample.fresh.
Proof.
  assert (Ht : sample_tool "get_event" ∈ TOOLS) by (vm_compute; repeat constructor).
  assert (Hagree : forall key, key ∈ declared (sample_tool "get_event") ->
            ({[ "eventId" := "evt1" ]} : gmap string string) !! key
            = (<[ "verbose" := "yes" ]> {[ "eventId" := "evt1" ]} : gmap string string) !! key).
  { intros key Hkey. rewrite lookup_insert_ne; [reflexivity |].
    intros <-. change ("verbose" ∈ ["eventId"; "calendarId"]) in Hkey.
    rewrite !elem_of_cons, elem_of_nil in Hkey.
    destruct Hkey as [Hkey | [Hkey | Hkey]]; first [discriminate Hkey | exact Hkey]. }
  split; [exact Ht | split; [exact Hagree |]].
  exact (undeclared_arguments_ignored Sample.runtime Sample.env (sample_tool "get_event")
           {[ "eventId" := "evt1" ]} (<[ "verbose" := "yes" ]> {[ "eventId" := "evt1" ]})
           Sample.fresh Ht Hagree).
Defined.

Lemma schema_required_is_validated_witness :
  sample_tool "create_event" ∈ TOOLS
  /\ "start" ∈ required (sample_tool "create_event")
  /\ blank (Some (arg (Some {[ "summary" := "Team Sync" ]}) "start" ""))
  /\ exists q,
       q ∈ required (sample_tool "create_event")
       /\ blank (Some (arg (Some {[ "summary" := "Team Sync" ]}) q ""))
       /\ callTool Sample.runtime Sample.env "create_event"
            (Some {[ "summary" := "Team Sync" ]}) Sample.fresh
          = (inr {| content := [TextContent ("❌ Error: " +:+ q +:+ " is required")];
                    isError := false |}, Sample.fresh).
Proof.
  assert (Ht : sample_tool "create_event" ∈ TOOLS) by (vm_compute; repeat constructor).
  assert (Hp : "start" ∈ required (sample_tool "create_event")) by (vm_compute; repeat constructor).
  assert (Hb : blank (Some (arg (Some {[ "summary" := "Team Sync" ]}) "start" "")))
    by (vm_compute; reflexivity).
  split; [exact Ht | split; [exact Hp | split; [exact Hb |]]].
  exact (schema_required_is_validated Sample.runtime Sample.env (sample_tool "create_event")
           (Some {[ "summary" := "Team Sync" ]}) Sample.fresh Ht
           (ex_intro _ "start" (conj Hp Hb))).
Defined.

Lemma failed_initialization_is_retried_witness :
  initializeAuth Sample.runtime sample_env_no_token Sample.fresh
  = (inl auth_init_error, sample_unauthenticated)
  /\ auth sample_unauthenticated = None
  /\ (issued Sample.fresh sample_unauthenticated
      = [FsReadFile (CREDENTIALS_PATH sample_env_no_token)]
      \/ issued Sample.fresh sample_unauthenticated
         = [FsReadFile (CREDENTIALS_PATH sample_env_no_token);
            FsReadFile (TOKEN_PATH sample_env_no_token)])
  /\ exists more,
       issued sample_unauthenticated
         (snd (initializeAuth Sample.runtime sample_env_no_token sample_unauthenticated))
       = FsReadFile (CREDENTIALS_PATH sample_env_no_token) :: more.
Proof.
  assert (Hrun : initializeAuth Sample.runtime sample_env_no_token Sample.fresh
                 = (inl auth_init_error, sample_unauthenticated)) by (vm_compute; reflexivity).
  split; [exact Hrun |].
  exact (proj2 (failed_initialization_is_retried Sample.runtime sample_env_no_token Sample.fresh
                  auth_init_error sample_unauthenticated Hrun)).
Defined.

Lemma authentication_failure_stops_every_tool_witness :
  sample_tool "delete_event" ∈ TOOLS
  /\ (forall p, p ∈ required (sample_tool "delete_event") ->
        ~ blank (Some (arg (Some {[ "eventId" := "evt1" ]}) p "")))
  /\ initializeAuth Sample.runtime sample_env_no_token Sample.fresh
     = (inl auth_init_error, sample_unauthenticated)
  /\ exists w',
       callTool Sample.runtime sample_env_no_token "delete_event"
         (Some {[ "eventId" := "evt1" ]}) Sample.fresh
       = (inr {| content := [TextContent (formatError auth_init_error)]; isError := false |}, w')
       /\ (remote_calls (issued Sample.fresh w') = [] /\ auth w' = None).
Proof.
  assert (Ht : sample_tool "delete_event" ∈ TOOLS) by (vm_compute; repeat constructor).
  assert (Hreq : forall p, p ∈ required (sample_tool "delete_event") ->
                   ~ blank (Some (arg (Some {[ "eventId" := "evt1" ]}) p ""))).
  { intros p Hp. change (p ∈ ["eventId"]) in Hp. rewrite elem_of_cons, elem_of_nil in Hp.
    destruct Hp as [-> | []]. vm_compute. discriminate. }
  assert (Hrun : initializeAuth Sample.runtime sample_env_no_token Sample.fresh
                 = (inl auth_init_error, sample_unauthenticated)) by (vm_compute; reflexivity).
  split; [exact Ht | split; [exact Hreq | split; [exact Hrun |]]].
  exact (authentication_failure_stops_every_tool Sample.runtime sample_env_no_token
           (sample_tool "delete_event") (Some {[ "eventId" := "evt1" ]}) Sample.fresh
           auth_init_error sample_unauthenticated Ht Hreq Hrun).
Defined.

Lemma listEvents_invalid_time_witness :
  supplied_invalid Sample.runtime (Some "tomorrow")
  /\ date_or_auth_failure
       (fst (listEvents Sample.runtime Sample.env None None (Some "tomorrow") None Sample.fresh))
  /\ remote_calls
       (issued Sample.fresh
          (snd (listEvents Sample.runtime Sample.env None None (Some "tomorrow") None
                  Sample.fresh))) = [].
Proof.
  assert (Hbad : supplied_invalid Sample.runtime (Some "tomorrow")) by (split; reflexivity).
  split; [exact Hbad |].
  exact (listEvents_invalid_time Sample.runtime Sample.env None None (Some "tomorrow") None
           Sample.fresh (or_introl Hbad)).
Defined.

Lemma updateEvent_invalid_date_witness :
  ~ blank (Some "evt1")
  /\ supplied_invalid Sample.runtime (Some "tomorrow")
  /\ (exists e,
        fst (updateEvent Sample.runtime Sample.env (Some "evt1") None None (Some "tomorrow")
               None None None Sample.fresh) = inr (formatError e))
  /\ (remote_calls
        (issued Sample.fresh
           (snd (updateEvent Sample.runtime Sample.env (Some "evt1") None None (Some "tomorrow")
                   None None None Sample.fresh))) = []
      \/ remote_calls
           (issued Sample.fresh
              (snd (updateEvent Sample.runtime Sample.env (Some "evt1") None None
                      (Some "tomorrow") None None None Sample.fresh)))
         = [EventsGet (default "primary" None) (default "" (Some "evt1"))]).
Proof.
  assert (Hid : ~ blank (Some "evt1")) by (vm_compute; discriminate).
  assert (Hbad : supplied_invalid Sample.runtime (Some "tomorrow")) by (split; reflexivity).
  split; [exact Hid | split; [exact Hbad |]].
  exact (updateEvent_invalid_date Sample.runtime Sample.env (Some "evt1") None None
           (Some "tomorrow") None None None Sample.fresh Hid (or_intror Hbad)).
Defined.

Lemma updateEvent_supplied_fields_witness :
  issued Sample.fresh
    (snd (updateEvent Sample.runtime Sample.env (Some "evt1") (Some "Renamed")
            (Some "2025-11-28T09:00:00") None None None None Sample.fresh))
  = (sample_reads ++ [EventsGet "primary" "evt1"])
    ++ [EventsUpdate "primary" "evt1" sample_update_body]
  /\ ~ absent (Some "Renamed")
  /\ ev_summary sample_update_body = Str "Renamed"
  /\ ev_attendees sample_update_body = None.
Proof.
  assert (Hiss : issued Sample.fresh
                   (snd (updateEvent Sample.runtime Sample.env (Some "evt1") (Some "Renamed")
                           (Some "2025-11-28T09:00:00") None None None None Sample.fresh))
                 = (sample_reads ++ [EventsGet "primary" "evt1"])
                   ++ [EventsUpdate "primary" "evt1" sample_update_body])
    by (vm_compute; reflexivity).
  assert (Hsum : ~ absent (Some "Renamed")) by (vm_compute; discriminate).
  pose proof (updateEvent_supplied_fields Sample.runtime Sample.env (Some "evt1")
                (Some "Renamed") (Some "2025-11-28T09:00:00") None None None None Sample.fresh
                (sample_reads ++ [EventsGet "primary" "evt1"]) "primary" "evt1"
                sample_update_body Hiss)
    as (_ & _ & Hsummary & _ & _ & Hatt & _).
  split; [exact Hiss | split; [exact Hsum | split; [exact (Hsummary Hsum) | exact Hatt]]].
Defined.

Lemma createEvent_request_witness :
  issued Sample.fresh
    (snd (createEvent Sample.runtime Sample.env (Some "Team Sync") (Some "2025-11-27T14:00:00")
            (Some "2025-11-27T15:00:00") None (Some "Room 4")
            (Some "ana@example.org, bo@example.org,") None Sample.fresh))
  = sample_reads ++ [EventsInsert "primary" sample_insert_body]
  /\ absent None
  /\ ~ absent (Some "Room 4")
  /\ file_reads_only sample_reads
  /\ ev_summary sample_insert_body = Str "Team Sync"
  /\ ev_description sample_insert_body = Undefined
  /\ ev_location sample_insert_body = Str "Room 4".
Proof.
  assert (Hiss : issued Sample.fresh
                   (snd (createEvent Sample.runtime Sample.env (Some "Team Sync")
                           (Some "2025-11-27T14:00:00") (Some "2025-11-27T15:00:00") None
                           (Some "Room 4") (Some "ana@example.org, bo@example.org,") None
                           Sample.fresh))
                 = sample_reads ++ [EventsInsert "primary" sample_insert_body])
    by (vm_compute; reflexivity).
  assert (Hnone : absent None) by reflexivity.
  assert (Hloc : ~ absent (Some "Room 4")) by (vm_compute; discriminate).
  pose proof (createEvent_request Sample.runtime Sample.env (Some "Team Sync")
                (Some "2025-11-27T14:00:00") (Some "2025-11-27T15:00:00") None (Some "Room 4")
                (Some "ana@example.org, bo@example.org,") None Sample.fresh sample_reads
                "primary" sample_insert_body Hiss)
    as (Hreads & _ & _ & _ & _ & Hsummary & _ & _ & Hdesc & _ & _ & Hlocation).
  split; [exact Hiss | split; [exact Hnone | split; [exact Hloc | split; [exact Hreads |]]]].
  split; [exact Hsummary | split; [exact (Hdesc Hnone) | exact (Hlocation Hloc)]].
Defined.

Lemma createEvent_attendees_witness :
  issued Sample.fresh
    (snd (createEvent Sample.runtime Sample.env (Some "Team Sync") (Some "2025-11-27T14:00:00")
            (Some "2025-11-27T15:00:00") None (Some "Room 4")
            (Some "ana@example.org, bo@example.org,") None Sample.fresh))
  = sample_reads ++ [EventsInsert "primary" sample_insert_body]
  /\ ~ absent (Some "ana@example.org, bo@example.org,")
  /\ exists l,
       ev_attendees sample_insert_body = Some l
       /\ length l = S (count_commas (default "" (Some "ana@example.org, bo@example.org,")))
       /\ map email l
          = map (fun piece => Str (Js.trim piece))
              (Js.split_comma (default "" (Some "ana@example.org, bo@example.org,")))
       /\ Forall (fun a => responseStatus a = Undefined) l.
Proof.
  assert (Hiss : issued Sample.fresh
                   (snd (createEvent Sample.runtime Sample.env (Some "Team Sync")
                           (Some "2025-11-27T14:00:00") (Some "2025-11-27T15:00:00") None
                           (Some "Room 4") (Some "ana@example.org, bo@example.org,") None
                           Sample.fresh))
                 = sample_reads ++ [EventsInsert "primary" sample_insert_body])
    by (vm_compute; reflexivity).
  assert (Hatt : ~ absent (Some "ana@example.org, bo@example.org,")) by (vm_compute; discriminate).
  split; [exact Hiss | split; [exact Hatt |]].
  exact (proj2 (createEvent_attendees Sample.runtime Sample.env (Some "Team Sync")
                  (Some "2025-11-27T14:00:00") (Some "2025-11-27T15:00:00") None (Some "Room 4")
                  (Some "ana@example.org, bo@example.org,") None Sample.fresh sample_reads
                  "primary" sample_insert_body Hiss) Hatt).
Defined.

Lemma searchEvents_request_witness :
  issued Sample.fresh
    (snd (searchEvents Sample.runtime Sample.env (Some "sync") None None Sample.fresh))
  = sample_reads ++ [EventsList sample_search_params]
  /\ ~ blank (Some "sync")
  /\ lp_q sample_search_params = Some (default "" (Some "sync"))
  /\ lp_calendarId sample_search_params = default "primary" None
  /\ lp_timeMin sample_search_params = None /\ lp_timeMax sample_search_params = None
  /\ lp_singleEvents sample_search_params = true
  /\ lp_orderBy sample_search_params = "startTime".
Proof.
  assert (Hiss : issued Sample.fresh
                   (snd (searchEvents Sample.runtime Sample.env (Some "sync") None None
                           Sample.fresh))
                 = sample_reads ++ [EventsList sample_search_params])
    by (vm_compute; reflexivity).
  split; [exact Hiss |].
  exact (searchEvents_request Sample.runtime Sample.env (Some "sync") None None Sample.fresh
           sample_reads sample_search_params Hiss).
Defined.

Lemma listEvents_request_witness :
  issued Sample.fresh
    (snd (listEvents Sample.runtime Sample.env (Some "-5") None None None Sample.fresh))
  = sample_reads
    ++ [EventsList
          {| lp_calendarId := "primary"; lp_q := None; lp_maxResults := -5;
             lp_singleEvents := true; lp_orderBy := "startTime";
             lp_timeMin := Some "2025-11-27T12:00:00.002Z"; lp_timeMax := None |}]
  /\ Js.parseInt (default "10" (Some "-5")) = Some (Finite (-5))
  /\ issued Sample.fresh
       (snd (listEvents Sample.runtime Sample.env (Some "9007199254740993") None None None
               Sample.fresh))
     = sample_reads
       ++ [EventsList
             {| lp_calendarId := "primary"; lp_q := None; lp_maxResults := 9007199254740992;
                lp_singleEvents := true; lp_orderBy := "startTime";
                lp_timeMin := Some "2025-11-27T12:00:00.002Z"; lp_timeMax := None |}]
  /\ Js.parseInt (default "10" (Some "9007199254740993")) = Some (Finite 9007199254740992)
  /\ lp_maxResults
       {| lp_calendarId := "primary"; lp_q := None; lp_maxResults := -5;
          lp_singleEvents := true; lp_orderBy := "startTime";
          lp_timeMin := Some "2025-11-27T12:00:00.002Z"; lp_timeMax := None |} = -5
  /\ lp_maxResults
       {| lp_calendarId := "primary"; lp_q := None; lp_maxResults := 9007199254740992;
          lp_singleEvents := true; lp_orderBy := "startTime";
          lp_timeMin := Some "2025-11-27T12:00:00.002Z"; lp_timeMax := None |}
     = 9007199254740992.
Proof.
  assert (Hiss : issued Sample.fresh
                   (snd (listEvents Sample.runtime Sample.env (Some "-5") None None None
                           Sample.fresh))
                 = sample_reads
                   ++ [EventsList
                         {| lp_calendarId := "primary"; lp_q := None; lp_maxResults := -5;
                            lp_singleEvents := true; lp_orderBy := "startTime";
                            lp_timeMin := Some "2025-11-27T12:00:00.002Z";
                            lp_timeMax := None |}])
    by (vm_compute; reflexivity).
  assert (Hparse : Js.parseInt (default "10" (Some "-5")) = Some (Finite (-5))) by reflexivity.
  assert (Hbig : issued Sample.fresh
                   (snd (listEvents Sample.runtime Sample.env (Some "9007199254740993") None
                           None None Sample.fresh))
                 = sample_reads
                   ++ [EventsList
                         {| lp_calendarId := "primary"; lp_q := None;
                            lp_maxResults := 9007199254740992;
                            lp_singleEvents := true; lp_orderBy := "startTime";
                            lp_timeMin := Some "2025-11-27T12:00:00.002Z";
                            lp_timeMax := None |}])
    by (vm_compute; reflexivity).
  assert (Hround : Js.parseInt (default "10" (Some "9007199254740993"))
                   = Some (Finite 9007199254740992)) by (vm_compute; reflexivity).
  pose proof (listEvents_request Sample.runtime Sample.env (Some "-5") None None None
                Sample.fresh sample_reads _ Hiss)
    as (_ & _ & _ & _ & _ & _ & _ & _ & Hlimit).
  pose proof (listEvents_request Sample.runtime Sample.env (Some "9007199254740993") None None
                None Sample.fresh sample_reads _ Hbig)
    as (_ & _ & _ & _ & _ & _ & _ & _ & Hlimit').
  split; [exact Hiss | split; [exact Hparse | split; [exact Hbig | split; [exact Hround |]]]].
  split; [apply (Hlimit _ Hparse); discriminate | apply (Hlimit' _ Hround); discriminate].
Defined.

Lemma remote_failure_reported_verbatim_witness :
  auth (snd (callTool Sample.runtime Sample.env "update_event"
               (Some {[ "eventId" := "nope" ]}) Sample.fresh)) = Some sample_client
  /\ issued Sample.fresh
       (snd (callTool Sample.runtime Sample.env "update_event" (Some {[ "eventId" := "nope" ]})
               Sample.fresh))
     = sample_reads ++ EventsGet "primary" "nope" :: []
  /\ remote_error Sample.env (trace Sample.fresh ++ sample_reads) sample_client
       (EventsGet "primary" "nope") = Some (Error "Not Found")
  /\ fst (callTool Sample.runtime Sample.env "update_event" (Some {[ "eventId" := "nope" ]})
            Sample.fresh)
     = inr {| content := [TextContent (formatError (Error "Not Found"))]; isError := false |}.
Proof.
  assert (Ha : auth (snd (callTool Sample.runtime Sample.env "update_event"
                            (Some {[ "eventId" := "nope" ]}) Sample.fresh))
               = Some sample_client) by (vm_compute; reflexivity).
  assert (Hiss : issued Sample.fresh
                   (snd (callTool Sample.runtime Sample.env "update_event"
                           (Some {[ "eventId" := "nope" ]}) Sample.fresh))
                 = sample_reads ++ EventsGet "primary" "nope" :: [])
    by (vm_compute; reflexivity).
  assert (Herr : remote_error Sample.env (trace Sample.fresh ++ sample_reads) sample_client
                   (EventsGet "primary" "nope") = Some (Error "Not Found"))
    by (vm_compute; reflexivity).
  split; [exact Ha | split; [exact Hiss | split; [exact Herr |]]].
  exact (proj2 (remote_failure_reported_verbatim Sample.runtime Sample.env "update_event"
                  (Some {[ "eventId" := "nope" ]}) Sample.fresh sample_client sample_reads
                  (EventsGet "primary" "nope") [] (Error "Not Found") Ha Hiss Herr)).
Defined.

Lemma confirmation_means_remote_success_witness :
  callTool Sample.runtime Sample.env "delete_event" (Some {[ "eventId" := "evt1" ]}) Sample.fresh
  = (inr {| content := [TextContent ("✅" +:+ " Event deleted successfully!" +:+ Js.LF +:+
                                     "   Event ID: evt1")];
            isError := false |},
     {| auth := Some sample_client; trace := sample_reads ++ [EventsDelete "primary" "evt1"] |})
  /\ confirmation ("✅" +:+ " Event deleted successfully!" +:+ Js.LF +:+ "   Event ID: evt1")
  /\ exists a pre c,
       auth {| auth := Some sample_client;
               trace := sample_reads ++ [EventsDelete "primary" "evt1"] |} = Some a
       /\ issued Sample.fresh
            {| auth := Some sample_client;
               trace := sample_reads ++ [EventsDelete "primary" "evt1"] |} = pre ++ [c]
       /\ mutating c = true
       /\ remote_error Sample.env (trace Sample.fresh ++ pre) a c = None.
Proof.
  assert (Hcall : callTool Sample.runtime Sample.env "delete_event"
                    (Some {[ "eventId" := "evt1" ]}) Sample.fresh
                  = (inr {| content := [TextContent ("✅" +:+ " Event deleted successfully!" +:+
                                                     Js.LF +:+ "   Event ID: evt1")];
                            isError := false |},
                     {| auth := Some sample_client;
                        trace := sample_reads ++ [EventsDelete "primary" "evt1"] |}))
    by (vm_compute; reflexivity).
  assert (Hok : confirmation ("✅" +:+ " Event deleted successfully!" +:+ Js.LF +:+
                              "   Event ID: evt1")) by (eexists; reflexivity).
  split; [exact Hcall | split; [exact Hok |]].
  exact (confirmation_means_remote_success Sample.runtime Sample.env "delete_event"
           (Some {[ "eventId" := "evt1" ]}) Sample.fresh _ false _ Hcall Hok).
Defined.

Lemma authenticated_server_reads_no_file_witness :
  auth sample_authenticated = Some sample_client
  /\ exists h,
       after_calls Sample.runtime Sample.env
         [("list_calendars", None); ("get_event", Some {[ "eventId" := "evt1" ]})]
         sample_authenticated
       = {| auth := Some sample_client; trace := trace sample_authenticated ++ h |}
       /\ Forall (fun c => is_remote c = true) h.
Proof.
  assert (Ha : auth sample_authenticated = Some sample_client) by reflexivity.
  split; [exact Ha |].
  exact (authenticated_server_reads_no_file Sample.runtime Sample.env
           [("list_calendars", None); ("get_event", Some {[ "eventId" := "evt1" ]})]
           sample_authenticated sample_client Ha).
Defined.

Lemma listEvents_report_witness :
  auth (snd (listEvents Sample.runtime Sample.env None None None None Sample.fresh))
  = Some sample_client
  /\ issued Sample.fresh
       (snd (listEvents Sample.runtime Sample.env None None None None Sample.fresh))
     = sample_reads ++ [EventsList sample_list_params]
  /\ events_list Sample.env (trace Sample.fresh ++ sample_reads) sample_client sample_list_params
     = inr (Some [Sample.evt1])
  /\ fst (listEvents Sample.runtime Sample.env None None None None Sample.fresh)
     = inr (listEvents_text (Some [Sample.evt1])).
Proof.
  assert (Ha : auth (snd (listEvents Sample.runtime Sample.env None None None None Sample.fresh))
               = Some sample_client) by (vm_compute; reflexivity).
  assert (Hiss : issued Sample.fresh
                   (snd (listEvents Sample.runtime Sample.env None None None None Sample.fresh))
                 = sample_reads ++ [EventsList sample_list_params]) by (vm_compute; reflexivity).
  assert (Hans : events_list Sample.env (trace Sample.fresh ++ sample_reads) sample_client
                   sample_list_params = inr (Some [Sample.evt1])) by reflexivity.
  split; [exact Ha | split; [exact Hiss | split; [exact Hans |]]].
  exact (listEvents_report Sample.runtime Sample.env None None None None Sample.fresh
           sample_client sample_reads sample_list_params (Some [Sample.evt1]) Ha Hiss Hans).
Defined.

Lemma searchEvents_report_witness :
  auth (snd (searchEvents Sample.runtime Sample.env (Some "sync") None None Sample.fresh))
  = Some sample_client
  /\ issued Sample.fresh
       (snd (searchEvents Sample.runtime Sample.env (Some "sync") None None Sample.fresh))
     = sample_reads ++ [EventsList sample_search_params]
  /\ events_list Sample.env (trace Sample.fresh ++ sample_reads) sample_client
       sample_search_params = inr (Some [Sample.evt1])
  /\ fst (searchEvents Sample.runtime Sample.env (Some "sync") None None Sample.fresh)
     = inr (searchEvents_text (default "" (Some "sync")) (Some [Sample.evt1])).
Proof.
  assert (Ha : auth (snd (searchEvents Sample.runtime Sample.env (Some "sync") None None
                            Sample.fresh)) = Some sample_client) by (vm_compute; reflexivity).
  assert (Hiss : issued Sample.fresh
                   (snd (searchEvents Sample.runtime Sample.env (Some "sync") None None
                           Sample.fresh))
                 = sample_reads ++ [EventsList sample_search_params])
    by (vm_compute; reflexivity).
  assert (Hans : events_list Sample.env (trace Sample.fresh ++ sample_reads) sample_client
                   sample_search_params = inr (Some [Sample.evt1])) by reflexivity.
  split; [exact Ha | split; [exact Hiss | split; [exact Hans |]]].
  exact (searchEvents_report Sample.runtime Sample.env (Some "sync") None None Sample.fresh
           sample_client sample_reads sample_search_params (Some [Sample.evt1]) Ha Hiss Hans).
Defined.

Lemma listCalendars_report_witness :
  auth (snd (listCalendars Sample.runtime Sample.env Sample.fresh)) = Some sample_client
  /\ issued Sample.fresh (snd (listCalendars Sample.runtime Sample.env Sample.fresh))
     = sample_reads ++ [CalendarListList]
  /\ calendarList_list Sample.env (trace Sample.fresh ++ sample_reads) sample_client
     = inr (Some [sample_calendar])
  /\ fst (listCalendars Sample.runtime Sample.env Sample.fresh)
     = inr (listCalendars_text (Some [sample_calendar])).
Proof.
  assert (Ha : auth (snd (listCalendars Sample.runtime Sample.env Sample.fresh))
               = Some sample_client) by (vm_compute; reflexivity).
  assert (Hiss : issued Sample.fresh (snd (listCalendars Sample.runtime Sample.env Sample.fresh))
                 = sample_reads ++ [CalendarListList]) by (vm_compute; reflexivity).
  assert (Hans : calendarList_list Sample.env (trace Sample.fresh ++ sample_reads) sample_client
                 = inr (Some [sample_calendar])) by reflexivity.
  split; [exact Ha | split; [exact Hiss | split; [exact Hans |]]].
  exact (listCalendars_report Sample.runtime Sample.env Sample.fresh sample_client sample_reads
           (Some [sample_calendar]) Ha Hiss Hans).
Defined.

Lemma initializeAuth_client_witness :
  auth Sample.fresh = None
  /\ initializeAuth Sample.runtime Sample.env Sample.fresh = (inr sample_client, sample_authenticated)
  /\ exists credentialsContent document tokenContent token installed source,
       fs_readFile Sample.env (trace Sample.fresh) (CREDENTIALS_PATH Sample.env)
       = inr credentialsContent
       /\ JSON_parse Sample.runtime credentialsContent = inr document
       /\ fs_readFile Sample.env
            (trace Sample.fresh ++ [FsReadFile (CREDENTIALS_PATH Sample.env)])
            (TOKEN_PATH Sample.env) = inr tokenContent
       /\ JSON_parse Sample.runtime tokenContent = inr token
       /\ get_member (Some document) "installed" = inr installed
       /\ (if json_truthy installed then source = installed
           else get_member (Some document) "web" = inr source)
       /\ get_member source "client_id" = inr (client_id sample_client)
       /\ get_member source "client_secret" = inr (client_secret sample_client)
       /\ (exists uris,
             get_member source "redirect_uris" = inr uris
             /\ get_index0 uris = inr (redirect_uri sample_client))
       /\ credentials sample_client = token.
Proof.
  assert (Hfresh : auth Sample.fresh = None) by reflexivity.
  assert (Hrun : initializeAuth Sample.runtime Sample.env Sample.fresh
                 = (inr sample_client, sample_authenticated)) by (vm_compute; reflexivity).
  split; [exact Hfresh | split; [exact Hrun |]].
  exact (initializeAuth_client Sample.runtime Sample.env Sample.fresh sample_client
           sample_authenticated Hfresh Hrun).
Defined.
